(** * SciTE file input and output (SciTEIO.cxx): a shallow embedding

    The development follows [SciTEIO.cxx] of SciTE 5.5.6.  Text is a list of
    bytes, sizes and positions are naturals or integers as the source has
    them, and the members of [SciTEBase] that the input/output code reads and
    writes are gathered in a record that every operation takes and returns.

    Parts of the program that live outside [SciTEIO.cxx] (the [Utf8_16]
    codec, the [Buffer] and [BufferList] methods, the file workers) are
    modelled from the specification; each such definition says so.

    The file has two parts: the embedding, then the properties. *)

From Equations Require Import Equations.
From stdpp Require Import base option list strings gmap.
From Stdlib Require Import ZArith NArith Lia Bool.
From Stdlib.Strings Require Import Byte.

Set Default Proof Using "Type".
Local Open Scope nat_scope.

(** * Part I: the embedding *)

(** ** Text *)

(** [std::string_view] and [std::string] holding document text: a run of
    bytes. *)
Definition string_view := list byte.

#[global] Instance byte_eq_decision : EqDecision byte := Byte.byte_eq_dec.

(** [a[i]]; the source only indexes inside the view. *)
Definition at_ (a : string_view) (i : nat) : byte := nth i a x00.

(** [sv.starts_with(prefix)] *)
Definition starts_with (sv pre : string_view) : bool :=
  bool_decide (take (length pre) sv = pre).

(** A value together with the equation that names it, for definitions by
    cases on a computed value. *)
Definition inspect {A} (a : A) : {b : A | a = b} := exist _ a eq_refl.

(** The byte with value [n mod 256]. *)
Definition byteOf (n : N) : byte := default x00 (Byte.of_N (n mod 256)).

(** ** CommonEnds *)

Module Ends.

(** [while ((start < length) && (a[start] == b[start])) start++;] *)
Equations? scanStart (a b : string_view) (len start : nat) : nat
  by wf (len - start) lt :=
  scanStart a b len start with lt_dec start len => {
    | left _ with Byte.eqb (at_ a start) (at_ b start) => {
        | true := scanStart a b len (S start);
        | false := start };
    | right _ := start }.
Proof. lia. Qed.

(** [while ((last < maxLeft) &&
           (a[a.length() - last - 1] == b[b.length() - last - 1])) last++;] *)
Equations? scanLast (a b : string_view) (maxLeft last : nat) : nat
  by wf (maxLeft - last) lt :=
  scanLast a b maxLeft last with lt_dec last maxLeft => {
    | left _ with Byte.eqb (at_ a (length a - last - 1))
                           (at_ b (length b - last - 1)) => {
        | true := scanLast a b maxLeft (S last);
        | false := last };
    | right _ := last }.
Proof. lia. Qed.

(** Find the portions that are the same at the start and end of two
    string_views. *)
Definition CommonEnds (a b : string_view) : nat * nat :=
  let len := Nat.min (length a) (length b) in
  let start := scanStart a b len 0 in
  let maxLeft := len - start in
  let last := scanLast a b maxLeft 0 in
  (start, last).

End Ends.
Export Ends.

(** ** Encodings *)

(** [enum class UniMode] of Cookie.h, whose members [uni8Bit], [utf8] and
    [cookie] the source names; the two UTF-16 members are named after the
    specification's list of supported modes. *)
Inductive UniMode := uni8Bit | uni16BE | uni16LE | utf8 | cookie.

#[global] Instance UniMode_eq_decision : EqDecision UniMode.
Proof. solve_decision. Defined.

(** Modelled from the spec: the macro [UTF8BOM] is defined outside
    SciTEIO.cxx; it is the UTF-8 byte-order mark. *)
Definition UTF8BOM : string_view := [xef; xbb; xbf].
Definition UTF16BEBOM : string_view := [xfe; xff].
Definition UTF16LEBOM : string_view := [xff; xfe].

(** The byte-order mark a mode requires at the start of a file. *)
Definition bomOf (m : UniMode) : string_view :=
  match m with
  | utf8 => UTF8BOM
  | uni16BE => UTF16BEBOM
  | uni16LE => UTF16LEBOM
  | uni8Bit | cookie => []
  end.

(** The UTF-8 form of a code point. *)
Definition utf8Bytes (cp : N) : list byte :=
  if (cp <? 0x80)%N then [byteOf cp]
  else if (cp <? 0x800)%N then
    [byteOf (N.lor 0xC0 (N.shiftr cp 6));
     byteOf (N.lor 0x80 (N.land cp 0x3F))]
  else if (cp <? 0x10000)%N then
    [byteOf (N.lor 0xE0 (N.shiftr cp 12));
     byteOf (N.lor 0x80 (N.land (N.shiftr cp 6) 0x3F));
     byteOf (N.lor 0x80 (N.land cp 0x3F))]
  else
    [byteOf (N.lor 0xF0 (N.shiftr cp 18));
     byteOf (N.lor 0x80 (N.land (N.shiftr cp 12) 0x3F));
     byteOf (N.lor 0x80 (N.land (N.shiftr cp 6) 0x3F));
     byteOf (N.lor 0x80 (N.land cp 0x3F))].

(** Unicode scalar values: code points outside the surrogate range. *)
Definition isScalar (cp : N) : bool :=
  ((cp <? 0xD800) || (0xE000 <=? cp))%N && (cp <? 0x110000)%N.

Definition isLead (u : N) : bool := ((0xD800 <=? u) && (u <? 0xDC00))%N.
Definition isTrail (u : N) : bool := ((0xDC00 <=? u) && (u <? 0xE000))%N.

(** An open file: what has been written through the handle and how many
    more bytes the device will take. *)
Record FILE := mkFILE { written : list byte; room : nat }.

(** [::fwrite(data, 1, n, fp)]: the device takes what it has room for; the
    result is the number of bytes taken. *)
Definition fwriteBytes (data : list byte) (fp : FILE) : FILE * nat :=
  let n := Nat.min (length data) (room fp) in
  (mkFILE (written fp ++ take n data) (room fp - n), n).

Module Utf8_16.

(** Modelled from the spec: [Utf8_16::Reader] is defined outside
    SciTEIO.cxx.  Section 4.1 describes a streaming decoder that consumes a
    chunk, returns the text of the sequences that are complete and keeps an
    incomplete trailing sequence for the next call; a call with an empty
    chunk flushes what is kept, substituting for a tail that is truly
    incomplete.  The state is the one of section 3: the pending bytes, the
    detected mode and whether a byte-order mark was seen.  The mode is
    detected from the byte-order mark at the start of the stream, which may
    itself arrive split over chunks. *)
Module Reader.

Record t := mk {
  mode : UniMode;
  bomSeen : bool;
  atStart : bool;        (* the start of the stream is still being examined *)
  pending : list byte }.

#[global] Instance eq_decision : EqDecision t.
Proof. solve_decision. Defined.

Definition Allocate : t := mk uni8Bit false true [].

Definition getEncoding (r : t) : UniMode := mode r.

(** A proper prefix of some byte-order mark. *)
Definition bomPrefix (buf : list byte) : bool :=
  bool_decide (buf ∈ [[xfe]; [xff]; [xef]; [xef; xbb]]).

Definition unit16 (m : UniMode) (b0 b1 : byte) : N :=
  match m with
  | uni16BE => (Byte.to_N b0 * 256 + Byte.to_N b1)%N
  | _ => (Byte.to_N b1 * 256 + Byte.to_N b0)%N
  end.

Definition pair16 (hi lo : N) : N :=
  (0x10000 + (hi - 0xD800) * 0x400 + (lo - 0xDC00))%N.

(** The best-effort substitution: U+FFFD. *)
Definition substitute : list byte := utf8Bytes 0xFFFD.

(** One more byte of a UTF-16 stream; [buf] is the pending bytes followed by
    the new one. *)
Definition feed16 (r : t) (buf : list byte) : t * list byte :=
  let keep := mk (mode r) (bomSeen r) false in
  match buf with
  | [b0; b1] =>
      let u := unit16 (mode r) b0 b1 in
      if isLead u then (keep buf, [])
      else if isTrail u then (keep [], substitute)
      else (keep [], utf8Bytes u)
  | [b0; b1; b2; b3] =>
      let hi := unit16 (mode r) b0 b1 in
      let lo := unit16 (mode r) b2 b3 in
      if isTrail lo then (keep [], utf8Bytes (pair16 hi lo))
      else if isLead lo then (keep [b2; b3], substitute)
      else (keep [], substitute ++ utf8Bytes lo)
  | _ => (keep buf, [])
  end.

(** One more byte of the stream. *)
Definition feed (r : t) (b : byte) : t * list byte :=
  let buf := pending r ++ [b] in
  if atStart r then
    if decide (buf = UTF16BEBOM) then (mk uni16BE true false [], [])
    else if decide (buf = UTF16LEBOM) then (mk uni16LE true false [], [])
    else if decide (buf = UTF8BOM) then (mk utf8 true false [], [])
    else if bomPrefix buf then (mk (mode r) (bomSeen r) true buf, [])
    else (mk uni8Bit false false [], buf)
  else
    match mode r with
    | uni16BE | uni16LE => feed16 r buf
    | _ => (r, [b])
    end.

Fixpoint feedAll (r : t) (chunk : list byte) : t * list byte :=
  match chunk with
  | [] => (r, [])
  | b :: rest =>
      let '(r1, out1) := feed r b in
      let '(r2, out2) := feedAll r1 rest in
      (r2, out1 ++ out2)
  end.

(** The final call: what is kept is given up. *)
Definition flush (r : t) : t * list byte :=
  match pending r with
  | [] => (r, [])
  | kept =>
      if atStart r then (mk uni8Bit false false [], kept)
      else (mk (mode r) (bomSeen r) false [], substitute)
  end.

(** [convert->convert(chunk)] *)
Definition convert (r : t) (chunk : string_view) : t * string_view :=
  match chunk with
  | [] => flush r
  | _ => feedAll r chunk
  end.

End Reader.

(** Modelled from the spec: [Utf8_16::Writer] is defined outside
    SciTEIO.cxx.  Section 4.1 makes [encode] the inverse streaming direction,
    writing a byte-order mark exactly once at the start of the stream when
    the mode requires one; section 4.4 makes a short write on a chunk fatal,
    and [SaveBuffer] takes a result of 0 from [fwrite] for the failure.  The
    editor text is UTF-8 when the mode is one of the UTF-16 modes. *)
Module Writer.

Record t := mk {
  mode : UniMode;
  firstWrite : bool;
  pending : list byte }.   (* an incomplete UTF-8 sequence *)

#[global] Instance eq_decision : EqDecision t.
Proof. solve_decision. Defined.

Definition Allocate (m : UniMode) (blockSize : nat) : t := mk m true [].

(** The length of the UTF-8 sequence that a byte starts. *)
Definition seqLen (b0 : byte) : nat :=
  let n := Byte.to_N b0 in
  if (n <? 0xC0)%N then 1
  else if (n <? 0xE0)%N then 2
  else if (n <? 0xF0)%N then 3
  else if (n <? 0xF8)%N then 4
  else 1.

Definition low6 (b : byte) : N := N.land (Byte.to_N b) 0x3F.

Definition codePoint (buf : list byte) : N :=
  match buf with
  | [b0] => Byte.to_N b0
  | [b0; b1] =>
      N.lor (N.shiftl (N.land (Byte.to_N b0) 0x1F) 6) (low6 b1)
  | [b0; b1; b2] =>
      N.lor (N.shiftl (N.land (Byte.to_N b0) 0x0F) 12)
        (N.lor (N.shiftl (low6 b1) 6) (low6 b2))
  | [b0; b1; b2; b3] =>
      N.lor (N.shiftl (N.land (Byte.to_N b0) 0x07) 18)
        (N.lor (N.shiftl (low6 b1) 12)
           (N.lor (N.shiftl (low6 b2) 6) (low6 b3)))
  | _ => 0xFFFD%N
  end.

Definition units (cp : N) : list N :=
  if (cp <? 0x10000)%N then [cp]
  else [(0xD800 + N.shiftr (cp - 0x10000) 10)%N;
        (0xDC00 + N.land (cp - 0x10000) 0x3FF)%N].

Definition unitBytes (m : UniMode) (u : N) : list byte :=
  match m with
  | uni16BE => [byteOf (N.shiftr u 8); byteOf u]
  | _ => [byteOf u; byteOf (N.shiftr u 8)]
  end.

(** One more byte of the text. *)
Definition put (w : t) (b : byte) : t * list byte :=
  match mode w with
  | uni16BE | uni16LE =>
      let buf := pending w ++ [b] in
      if decide (seqLen (hd b buf) <= length buf) then
        (mk (mode w) (firstWrite w) [],
         mjoin (unitBytes (mode w) <$> units (codePoint buf)))
      else (mk (mode w) (firstWrite w) buf, [])
  | _ => (w, [b])
  end.

Fixpoint putAll (w : t) (chunk : list byte) : t * list byte :=
  match chunk with
  | [] => (w, [])
  | b :: rest =>
      let '(w1, out1) := put w b in
      let '(w2, out2) := putAll w1 rest in
      (w2, out1 ++ out2)
  end.

(** The bytes that a chunk of text becomes. *)
Definition encode (w : t) (chunk : string_view) : t * list byte :=
  let '(w1, out) := putAll w chunk in
  (mk (mode w1) false (pending w1),
   (if firstWrite w then bomOf (mode w) else []) ++ out).

(** [convert->fwrite(chunk, fp)]: 0 when the device took fewer bytes than
    the chunk became. *)
Definition fwrite (w : t) (chunk : string_view) (fp : FILE) : t * FILE * nat :=
  let '(w1, out) := encode w chunk in
  let '(fp1, n) := fwriteBytes out fp in
  (w1, fp1, if decide (n < length out) then 0 else length chunk).

End Writer.

End Utf8_16.
(** ** Files *)

(** [FilePath] *)
Definition FilePath := string.

(** The file system the program runs on: the content and the modification
    time of each file, the paths that cannot be opened for writing, the free
    space of the device and whether closing a written file succeeds. *)
Record FileSystem := mkFS {
  files : gmap FilePath (list byte);
  times : gmap FilePath Z;
  locked : list FilePath;
  free : nat;
  closeOk : bool }.

(** [path.GetFileLength()] *)
Definition GetFileLength (fs : FileSystem) (path : FilePath) : Z :=
  Z.of_nat (length (default [] (files fs !! path))).

(** [path.Read()] *)
Definition Read (fs : FileSystem) (path : FilePath) : list byte :=
  default [] (files fs !! path).

(** [path.ModifiedTime()] *)
Definition ModifiedTime (fs : FileSystem) (path : FilePath) : Z :=
  default 0%Z (times fs !! path).

(** [fread(data, 1, n, fp)] on the rest of a file. *)
Definition fread (n : nat) (fp : list byte) : list byte * list byte :=
  (take n fp, drop n fp).

(** The blocks that consecutive calls of [fread] with a buffer of
    [blockSize] bytes return, the empty one at the end of the file left
    out. *)
Equations? freadBlocks (blockSize : nat) (fp : list byte) : list (list byte)
  by wf (length fp) lt :=
  freadBlocks blockSize fp with decide (take blockSize fp = []) => {
    | left _ := [];
    | right _ := take blockSize fp :: freadBlocks blockSize (drop blockSize fp) }.
Proof.
  rewrite length_drop. destruct blockSize, fp; simpl in *; try congruence; lia.
Qed.

(** ** Workers, documents and buffers *)

(** [FileWorker] with its two kinds, [FileLoader] and [FileStorer]; [id]
    stands for the address of the object, which is how the buffer list finds
    the owner of a worker. *)
Module FileWorker.
Record t := mk {
  id : nat;
  IsLoading : bool;            (* a FileLoader, else a FileStorer *)
  path : FilePath;
  err : Z;
  Cancelling : bool;
  unicodeMode : UniMode;
  pLoader : list byte;         (* FileLoader: the document being loaded *)
  documentBytes : list byte;   (* FileStorer: the text to write *)
  sleepTime : Z;
  visibleProgress : bool }.

#[global] Instance eq_decision : EqDecision t.
Proof. solve_decision. Defined.

Definition set_sleepTime (v : Z) (w : t) : t :=
  mk (id w) (IsLoading w) (path w) (err w) (Cancelling w) (unicodeMode w)
     (pLoader w) (documentBytes w) v (visibleProgress w).
End FileWorker.

(** [SA::DocumentOption]: [Default] has neither flag. *)
Record DocumentOption := mkOption { TextLarge : bool; StylesNone : bool }.

#[global] Instance DocumentOption_eq_decision : EqDecision DocumentOption.
Proof. solve_decision. Defined.

(** [SA::EndOfLine] *)
Inductive EndOfLine := CrLf | Cr | Lf.

#[global] Instance EndOfLine_eq_decision : EqDecision EndOfLine.
Proof. solve_decision. Defined.

(** A Scintilla document as the input/output code uses it. *)
Record Document := mkDocument {
  text : list byte;
  readOnly : bool;
  undoCollection : bool;
  options : DocumentOption;
  eolMode : EndOfLine }.

(** A document as [CreateDocument] and [CreateLoader] make them. *)
Definition newDocument (t : list byte) (o : DocumentOption) : Document :=
  mkDocument t false true o CrLf.

#[global] Instance Document_eq_decision : EqDecision Document.
Proof. solve_decision. Defined.

Module LifeState.
(** [Buffer::LifeState] *)
Inductive t := empty | reading | readAll | opened.
#[global] Instance eq_decision : EqDecision t.
Proof. solve_decision. Defined.
End LifeState.

Module Buffer.
Record t := mk {
  file : FilePath;
  doc : Document;
  isDirty : bool;
  isReadOnly : bool;
  failedSave : bool;
  lifeState : LifeState.t;
  unicodeMode : UniMode;
  fileModTime : Z;
  finishSave : bool;           (* futureDo holds finishSave *)
  pFileWorker : option FileWorker.t;
  overrideExtension : string }.

#[global] Instance eq_decision : EqDecision t.
Proof. solve_decision. Defined.

Definition set_file v b :=
  mk v (doc b) (isDirty b) (isReadOnly b) (failedSave b) (lifeState b)
     (unicodeMode b) (fileModTime b) (finishSave b) (pFileWorker b)
     (overrideExtension b).
Definition set_doc v b :=
  mk (file b) v (isDirty b) (isReadOnly b) (failedSave b) (lifeState b)
     (unicodeMode b) (fileModTime b) (finishSave b) (pFileWorker b)
     (overrideExtension b).
Definition set_isDirty v b :=
  mk (file b) (doc b) v (isReadOnly b) (failedSave b) (lifeState b)
     (unicodeMode b) (fileModTime b) (finishSave b) (pFileWorker b)
     (overrideExtension b).
Definition set_isReadOnly v b :=
  mk (file b) (doc b) (isDirty b) v (failedSave b) (lifeState b)
     (unicodeMode b) (fileModTime b) (finishSave b) (pFileWorker b)
     (overrideExtension b).
Definition set_failedSave v b :=
  mk (file b) (doc b) (isDirty b) (isReadOnly b) v (lifeState b)
     (unicodeMode b) (fileModTime b) (finishSave b) (pFileWorker b)
     (overrideExtension b).
Definition set_lifeState v b :=
  mk (file b) (doc b) (isDirty b) (isReadOnly b) (failedSave b) v
     (unicodeMode b) (fileModTime b) (finishSave b) (pFileWorker b)
     (overrideExtension b).
Definition set_unicodeMode v b :=
  mk (file b) (doc b) (isDirty b) (isReadOnly b) (failedSave b) (lifeState b)
     v (fileModTime b) (finishSave b) (pFileWorker b) (overrideExtension b).
Definition set_fileModTime v b :=
  mk (file b) (doc b) (isDirty b) (isReadOnly b) (failedSave b) (lifeState b)
     (unicodeMode b) v (finishSave b) (pFileWorker b) (overrideExtension b).
Definition set_finishSave v b :=
  mk (file b) (doc b) (isDirty b) (isReadOnly b) (failedSave b) (lifeState b)
     (unicodeMode b) (fileModTime b) v (pFileWorker b) (overrideExtension b).
Definition set_pFileWorker v b :=
  mk (file b) (doc b) (isDirty b) (isReadOnly b) (failedSave b) (lifeState b)
     (unicodeMode b) (fileModTime b) (finishSave b) v (overrideExtension b).
Definition set_overrideExtension v b :=
  mk (file b) (doc b) (isDirty b) (isReadOnly b) (failedSave b) (lifeState b)
     (unicodeMode b) (fileModTime b) (finishSave b) (pFileWorker b) v.

(** A slot that holds nothing, as a newly made buffer list has them. *)
Definition blank : t :=
  mk EmptyString (newDocument [] (mkOption false false)) false false false
     LifeState.empty uni8Bit
     0%Z false None EmptyString.

(** The worker is a loader. *)
Definition loading (b : t) : bool :=
  match pFileWorker b with
  | Some w => FileWorker.IsLoading w
  | None => false
  end.

(** The worker is a storer. *)
Definition storing (b : t) : bool :=
  match pFileWorker b with
  | Some w => negb (FileWorker.IsLoading w)
  | None => false
  end.

(** Modelled from the spec: [Buffer::CompleteLoading] is defined outside
    SciTEIO.cxx.  By the lifecycle of section 3 a buffer is back in the
    [opened] state once the load is complete, and by its invariant the
    buffer then holds no loader. *)
Definition CompleteLoading (b : t) : t :=
  let b := set_lifeState LifeState.opened b in
  if loading b then set_pFileWorker None b else b.

(** Modelled from the spec: [Buffer::CompleteStoring] is defined outside
    SciTEIO.cxx.  [TextWritten] calls it to "complete and release" the
    storer; by the invariant of section 3 the buffer then holds none. *)
Definition CompleteStoring (b : t) : t :=
  if storing b then set_pFileWorker None b else b.

(** Modelled from the spec: [Buffer::ShouldNotSave] is defined outside
    SciTEIO.cxx.  A buffer may be saved in the steady state [opened] of the
    lifecycle of section 3 and in no other. *)
Definition ShouldNotSave (b : t) : bool :=
  bool_decide (lifeState b <> LifeState.opened).

(** Modelled from the spec: [Buffer::ScheduleFinishSave] and
    [Buffer::FinishSave] are defined outside SciTEIO.cxx.  The first leaves
    a note that the save point is to be set when the buffer next receives
    the focus, the second takes the note and tells whether there was one. *)
Definition ScheduleFinishSave (b : t) : t := set_finishSave true b.

Definition FinishSave (b : t) : bool * t :=
  if finishSave b
  then (true, set_finishSave false b)
  else (false, b).

End Buffer.

(** ** The application *)

(** [MessageBoxChoice] *)
Inductive MessageBoxChoice := mbOK | mbCancel | mbYes | mbNo.

#[global] Instance MessageBoxChoice_eq_decision : EqDecision MessageBoxChoice.
Proof. solve_decision. Defined.

(** What the program does to its surroundings, in the order it does it:
    the message boxes it shows, the threads it starts, the calls to the
    extension, and the editor calls that the properties below speak of. *)
Inductive Event :=
| WindowMessageBox (msg : string) (arg : string)
| FailedSaveMessageBox (path : FilePath)
| PerformOnNewThread (worker : nat)
| OnOpen (path : FilePath)
| OnSave (path : FilePath)
| SetSavePoint
| ReplaceTarget (start finish : nat) (changed : list byte)
| Execute
| QuitProgram.

#[global] Instance Event_eq_decision : EqDecision Event.
Proof. solve_decision. Defined.

(** [OpenCompletion], with the two members that SciTEIO.cxx uses. *)
Inductive OpenCompletion := synchronous | completeCurrent.

(** The members of [SciTEBase] that the input/output code reads and writes,
    with the file system, the answers the user will give to the message
    boxes to come, the worker threads that are running and the record of
    events. *)
Record SciTE := mkSciTE {
  buffers : list Buffer.t;       (* buffers.buffers, the slots in use *)
  current : Z;                   (* buffers.Current() *)
  lengthVisible : Z;             (* buffers.lengthVisible *)
  filePath : FilePath;
  props : gmap string Z;         (* the integer settings *)
  propStrings : gmap string string;
  language : string;
  codePage : Z;
  extender : bool;               (* an extension is attached *)
  quitting : bool;
  jobExecuting : bool;           (* jobQueue.executing *)
  jobHasCommand : bool;          (* jobQueue.HasCommandToRun() *)
  stripTrailingSpaces : bool;
  ensureFinalLineEnd : bool;
  ensureConsistentLineEnds : bool;
  disk : FileSystem;
  replies : list MessageBoxChoice;
  threadsStart : bool;           (* a new thread can be started *)
  loaderFails : bool;            (* CreateLoader throws *)
  threads : list nat;            (* the workers whose thread is running *)
  nextWorker : nat;
  trace : list Event }.

Definition set_buffers v s :=
  mkSciTE v (current s) (lengthVisible s) (filePath s) (props s)
    (propStrings s) (language s) (codePage s) (extender s) (quitting s)
    (jobExecuting s) (jobHasCommand s) (stripTrailingSpaces s)
    (ensureFinalLineEnd s) (ensureConsistentLineEnds s) (disk s) (replies s)
    (threadsStart s) (loaderFails s) (threads s) (nextWorker s) (trace s).
Definition set_lengthVisible v s :=
  mkSciTE (buffers s) (current s) v (filePath s) (props s)
    (propStrings s) (language s) (codePage s) (extender s) (quitting s)
    (jobExecuting s) (jobHasCommand s) (stripTrailingSpaces s)
    (ensureFinalLineEnd s) (ensureConsistentLineEnds s) (disk s) (replies s)
    (threadsStart s) (loaderFails s) (threads s) (nextWorker s) (trace s).
Definition set_filePath v s :=
  mkSciTE (buffers s) (current s) (lengthVisible s) v (props s)
    (propStrings s) (language s) (codePage s) (extender s) (quitting s)
    (jobExecuting s) (jobHasCommand s) (stripTrailingSpaces s)
    (ensureFinalLineEnd s) (ensureConsistentLineEnds s) (disk s) (replies s)
    (threadsStart s) (loaderFails s) (threads s) (nextWorker s) (trace s).
Definition set_language v s :=
  mkSciTE (buffers s) (current s) (lengthVisible s) (filePath s) (props s)
    (propStrings s) v (codePage s) (extender s) (quitting s)
    (jobExecuting s) (jobHasCommand s) (stripTrailingSpaces s)
    (ensureFinalLineEnd s) (ensureConsistentLineEnds s) (disk s) (replies s)
    (threadsStart s) (loaderFails s) (threads s) (nextWorker s) (trace s).
Definition set_codePage v s :=
  mkSciTE (buffers s) (current s) (lengthVisible s) (filePath s) (props s)
    (propStrings s) (language s) v (extender s) (quitting s)
    (jobExecuting s) (jobHasCommand s) (stripTrailingSpaces s)
    (ensureFinalLineEnd s) (ensureConsistentLineEnds s) (disk s) (replies s)
    (threadsStart s) (loaderFails s) (threads s) (nextWorker s) (trace s).
Definition set_disk v s :=
  mkSciTE (buffers s) (current s) (lengthVisible s) (filePath s) (props s)
    (propStrings s) (language s) (codePage s) (extender s) (quitting s)
    (jobExecuting s) (jobHasCommand s) (stripTrailingSpaces s)
    (ensureFinalLineEnd s) (ensureConsistentLineEnds s) v (replies s)
    (threadsStart s) (loaderFails s) (threads s) (nextWorker s) (trace s).
Definition set_replies v s :=
  mkSciTE (buffers s) (current s) (lengthVisible s) (filePath s) (props s)
    (propStrings s) (language s) (codePage s) (extender s) (quitting s)
    (jobExecuting s) (jobHasCommand s) (stripTrailingSpaces s)
    (ensureFinalLineEnd s) (ensureConsistentLineEnds s) (disk s) v
    (threadsStart s) (loaderFails s) (threads s) (nextWorker s) (trace s).
Definition set_threads v s :=
  mkSciTE (buffers s) (current s) (lengthVisible s) (filePath s) (props s)
    (propStrings s) (language s) (codePage s) (extender s) (quitting s)
    (jobExecuting s) (jobHasCommand s) (stripTrailingSpaces s)
    (ensureFinalLineEnd s) (ensureConsistentLineEnds s) (disk s) (replies s)
    (threadsStart s) (loaderFails s) v (nextWorker s) (trace s).
Definition set_nextWorker v s :=
  mkSciTE (buffers s) (current s) (lengthVisible s) (filePath s) (props s)
    (propStrings s) (language s) (codePage s) (extender s) (quitting s)
    (jobExecuting s) (jobHasCommand s) (stripTrailingSpaces s)
    (ensureFinalLineEnd s) (ensureConsistentLineEnds s) (disk s) (replies s)
    (threadsStart s) (loaderFails s) (threads s) v (trace s).
Definition set_trace v s :=
  mkSciTE (buffers s) (current s) (lengthVisible s) (filePath s) (props s)
    (propStrings s) (language s) (codePage s) (extender s) (quitting s)
    (jobExecuting s) (jobHasCommand s) (stripTrailingSpaces s)
    (ensureFinalLineEnd s) (ensureConsistentLineEnds s) (disk s) (replies s)
    (threadsStart s) (loaderFails s) (threads s) (nextWorker s) v.

(** What SciTEIO.cxx takes from headers and libraries that are not part of
    the sources at hand: the constants and flag values of SciTEBase.h, the
    path predicates of [FilePath], and two Scintilla calls. *)
Class Platform := {
  IsUntitled : FilePath -> bool;
  SameNameAs : FilePath -> FilePath -> bool;
  IsPropertiesFile : FilePath -> bool;
  PTRDIFF_MAX : Z;
  INTPTR_MAX : Z;
  blockSize : nat;
  ofForceLoad : Z;
  ofPreserveUndo : Z;
  ofQuiet : Z;
  ofSynchronous : Z;
  sfSynchronous : Z;
  sfProgressVisible : Z;
  (* wEditor.PositionBefore(pos) on a text *)
  PositionBefore : list byte -> nat -> nat;
  (* wEditor.ConvertEOLs(wEditor.EOLMode()) on a text *)
  ConvertEOLs : list byte -> list byte;
  (* ExtractLine of StringHelpers.h *)
  ExtractLine : string_view -> string_view;
  (* the lexer language that ReadProperties finds for a file name and an
     override extension *)
  LexerLanguage : FilePath -> string -> string;
  (* extender->OnBeforeSave(path) *)
  OnBeforeSave : FilePath -> bool;
  (* SaveAsDialog() *)
  SaveAsDialog : SciTE -> bool * SciTE }.

(** A flag of a set of flags: [flags & flag]. *)
Definition flagSet (flags flag : Z) : bool := negb (Z.land flags flag =? 0)%Z.

(** [props.GetInt(key, defaultValue)] *)
Definition GetInt (s : SciTE) (key : string) (defaultValue : Z) : Z :=
  default defaultValue (props s !! key).

(** [props.GetExpandedString(key)] *)
Definition GetExpandedString (s : SciTE) (key : string) : string :=
  default EmptyString (propStrings s !! key).

(** [buffers.buffers[i]] *)
Definition bufferAt (s : SciTE) (i : Z) : Buffer.t :=
  default Buffer.blank (buffers s !! Z.to_nat i).

(** [CurrentBuffer()] *)
Definition CurrentBuffer (s : SciTE) : Buffer.t := bufferAt s (current s).

(** An assignment through [buffers.buffers[i]]. *)
Definition updBuffer (i : Z) (f : Buffer.t -> Buffer.t) (s : SciTE) : SciTE :=
  set_buffers (alter f (Z.to_nat i) (buffers s)) s.

(** An assignment through [CurrentBuffer()]. *)
Definition updCurrent (f : Buffer.t -> Buffer.t) (s : SciTE) : SciTE :=
  updBuffer (current s) f s.

Definition emit (e : Event) (s : SciTE) : SciTE := set_trace (trace s ++ [e]) s.

(** [WindowMessageBox(wSciTE, LocaliseMessage(msg, arg), style)]: the box
    is shown and the user answers. *)
Definition MessageBox (msg arg : string) (s : SciTE) : MessageBoxChoice * SciTE :=
  let s1 := emit (WindowMessageBox msg arg) s in
  match replies s1 with
  | [] => (mbOK, s1)
  | r :: rest => (r, set_replies rest s1)
  end.

(** A message box whose answer is not used. *)
Definition Notify (msg arg : string) (s : SciTE) : SciTE := (MessageBox msg arg s).2.

(** *** The editor

    The editor window shows the document of the current buffer, so the
    Scintilla calls on [wEditor] read and write that document.  A change of
    the text leaves the save point, which makes the buffer dirty, and
    reaching the save point makes it clean; the refusal of changes by a
    read-only document is left out. *)

Definition wEditor (s : SciTE) : Document := Buffer.doc (CurrentBuffer s).

Definition updEditor (f : Document -> Document) (s : SciTE) : SciTE :=
  updCurrent (fun b => Buffer.set_doc (f (Buffer.doc b)) b) s.

Definition setText (t : list byte) (s : SciTE) : SciTE :=
  updCurrent (fun b =>
    Buffer.set_isDirty true
      (Buffer.set_doc (mkDocument t (readOnly (Buffer.doc b))
                         (undoCollection (Buffer.doc b))
                         (options (Buffer.doc b)) (eolMode (Buffer.doc b))) b)) s.

(** [wEditor.ClearAll()] *)
Definition ClearAll (s : SciTE) : SciTE := setText [] s.

(** [AddText(wEditor, sv)] *)
Definition AddText (sv : string_view) (s : SciTE) : SciTE :=
  setText (text (wEditor s) ++ sv) s.

(** [wEditor.SetReadOnly(v)] *)
Definition SetReadOnly (v : bool) (s : SciTE) : SciTE :=
  updEditor (fun d => mkDocument (text d) v (undoCollection d) (options d) (eolMode d)) s.

(** [wEditor.SetUndoCollection(v)] *)
Definition SetUndoCollection (v : bool) (s : SciTE) : SciTE :=
  updEditor (fun d => mkDocument (text d) (readOnly d) v (options d) (eolMode d)) s.

(** [wEditor.SetSavePoint()] *)
Definition EditorSetSavePoint (s : SciTE) : SciTE :=
  emit SetSavePoint (updCurrent (Buffer.set_isDirty false) s).

(** [wEditor.SetTarget(SA::Span(start, finish)); wEditor.ReplaceTarget(changed)] *)
Definition EditorReplaceTarget (start finish : nat) (changed : string_view)
    (s : SciTE) : SciTE :=
  let t := text (wEditor s) in
  emit (ReplaceTarget start finish changed)
    (setText (take start t ++ changed ++ drop finish t) s).

(** [TextAsView()] *)
Definition TextAsView (s : SciTE) : string_view := text (wEditor s).

(** [LengthDocument()] *)
Definition LengthDocument (s : SciTE) : nat := length (text (wEditor s)).

(** *** The buffer list *)

(** Modelled from the spec: [BufferList::GetDocumentByWorker] is defined
    outside SciTEIO.cxx.  Section 4.5: find the buffer by its owning worker;
    -1 when there is none. *)
Definition GetDocumentByWorker (s : SciTE) (pFileWorker : option FileWorker.t) : Z :=
  match pFileWorker with
  | None => (-1)%Z
  | Some w =>
      match list_find (fun b => FileWorker.id <$> Buffer.pFileWorker b = Some (FileWorker.id w))
                      (buffers s) with
      | Some (i, _) => Z.of_nat i
      | None => (-1)%Z
      end
  end.

(** Modelled from the spec: [BufferList::GetVisible], [SetVisible] and
    [RemoveInvisible] are defined outside SciTEIO.cxx.  Section 4.5: the
    list is partitioned into the visible buffers, the first [lengthVisible]
    ones, and the invisible ones that are still being saved; a buffer made
    visible joins the end of the visible range, and a buffer that is removed
    leaves the list. *)
Definition GetVisible (s : SciTE) (i : Z) : bool := (i <? lengthVisible s)%Z.

Definition swapBuffers (i j : nat) (l : list Buffer.t) : list Buffer.t :=
  match l !! i, l !! j with
  | Some bi, Some bj => <[i := bj]> (<[j := bi]> l)
  | _, _ => l
  end.

Definition SetVisible (i : Z) (visible : bool) (s : SciTE) : SciTE :=
  if visible && negb (GetVisible s i) then
    set_lengthVisible (lengthVisible s + 1)%Z
      (set_buffers (swapBuffers (Z.to_nat (lengthVisible s)) (Z.to_nat i) (buffers s)) s)
  else s.

Definition RemoveInvisible (i : Z) (s : SciTE) : SciTE :=
  if GetVisible s i then s
  else set_buffers (delete (Z.to_nat i) (buffers s)) s.

(** Modelled from the spec: [BufferList::SavingInBackground] is defined
    outside SciTEIO.cxx: some buffer has an outstanding storer. *)
Definition SavingInBackground (s : SciTE) : bool :=
  existsb Buffer.storing (buffers s).

(** Modelled from the spec: [BufferList::SingleBuffer] is defined outside
    SciTEIO.cxx: the list has room for one buffer only. *)
Definition SingleBuffer (s : SciTE) : bool := bool_decide (length (buffers s) = 1).

(** Modelled from the spec: [Buffer::SetTimeFromFile] is defined outside
    SciTEIO.cxx: the last-known modification time becomes that of the
    file. *)
Definition SetTimeFromFile (s : SciTE) : SciTE :=
  updCurrent (fun b => Buffer.set_fileModTime (ModifiedTime (disk s) (Buffer.file b)) b) s.

(** ** Lines

    The Scintilla calls that deal in lines, on the text: a line ends at a
    carriage return, a line feed, or the two in this order. *)

Definition chCR : byte := x0d.
Definition chLF : byte := x0a.
Definition chSpace : byte := x20.
Definition chTab : byte := x09.

(** The lines of a text, each as its start and the position where its line
    end begins; [pos] is the position of the head of [t], [start] the start
    of the line that [pos] is in. *)
Fixpoint lineSpans (t : list byte) (pos start : nat) : list (nat * nat) :=
  match t with
  | [] => [(start, pos)]
  | c :: r =>
      if decide (c = chCR) then
        match r with
        | c' :: r' =>
            if decide (c' = chLF)
            then (start, pos) :: lineSpans r' (pos + 2) (pos + 2)
            else (start, pos) :: lineSpans r (pos + 1) (pos + 1)
        | [] => (start, pos) :: lineSpans r (pos + 1) (pos + 1)
        end
      else if decide (c = chLF)
      then (start, pos) :: lineSpans r (pos + 1) (pos + 1)
      else lineSpans r (pos + 1) start
  end.

(** [wEditor.LineCount()] *)
Definition LineCount (t : list byte) : nat := length (lineSpans t 0 0).

(** [wEditor.LineStart(line)]; the line after the last one starts at the
    end of the text. *)
Definition LineStart (t : list byte) (line : nat) : nat :=
  match lineSpans t 0 0 !! line with
  | Some span => span.1
  | None => length t
  end.

(** [wEditor.LineEnd(line)] *)
Definition LineEnd (t : list byte) (line : nat) : nat :=
  match lineSpans t 0 0 !! line with
  | Some span => span.2
  | None => length t
  end.

(** [wEditor.DeleteRange(start, lengthDelete)] *)
Definition DeleteRange (start lengthDelete : nat) (t : list byte) : list byte :=
  take start t ++ drop (start + lengthDelete) t.

(** [wEditor.InsertText(pos, s)] *)
Definition InsertText (pos : nat) (s : list byte) (t : list byte) : list byte :=
  take pos t ++ s ++ drop pos t.

(** [LineEndString(eolMode)] *)
Definition LineEndString (m : EndOfLine) : list byte :=
  match m with
  | CrLf => [chCR; chLF]
  | Cr => [chCR]
  | Lf => [chLF]
  end.

(** [IsSpaceOrTab(ch)] *)
Definition IsSpaceOrTab (ch : byte) : bool :=
  bool_decide (ch = chSpace) || bool_decide (ch = chTab).

(** [while ((firstSpace > lineStart) &&
           IsSpaceOrTab(wEditor.CharacterAt(firstSpace-1))) firstSpace--;] *)
Fixpoint scanSpaces (t : list byte) (lineStart firstSpace : nat) : nat :=
  match firstSpace with
  | 0 => 0
  | S before =>
      if decide (lineStart < firstSpace) then
        if IsSpaceOrTab (at_ t before) then scanSpaces t lineStart before
        else firstSpace
      else firstSpace
  end.

(** The body of the loop of [StripTrailingSpaces] for one line. *)
Definition stripLine (line : nat) (t : list byte) : list byte :=
  let lineStart := LineStart t line in
  let lineEnd := LineEnd t line in
  let firstSpace := scanSpaces t lineStart lineEnd in
  if decide (firstSpace < lineEnd)
  then DeleteRange firstSpace (lineEnd - firstSpace) t
  else t.

(** [for (line = ...; line < maxLines; line++)] with [n] lines to go. *)
Fixpoint stripLines (n line : nat) (t : list byte) : list byte :=
  match n with
  | 0 => t
  | S n' => stripLines n' (S line) (stripLine line t)
  end.

(** [SciTEBase::StripTrailingSpaces], on the text. *)
Definition StripTrailingSpaces (t : list byte) : list byte :=
  let maxLines := LineCount t in
  stripLines maxLines 0 t.

(** [SciTEBase::EnsureFinalNewLine], on the text. *)
Definition EnsureFinalNewLine (eol : EndOfLine) (t : list byte) : list byte :=
  let maxLines := LineCount t in
  let appendNewLine := bool_decide (maxLines = 1) in
  let endDocument := LineStart t maxLines in
  let appendNewLine :=
    if decide (1 < maxLines)
    then bool_decide (LineStart t (maxLines - 1) < endDocument)
    else appendNewLine in
  if appendNewLine then InsertText endDocument (LineEndString eol) t else t.

(** ** Line ends and indentation of a loaded text *)

(** [acc.SafeGetCharAt(i)]: a space outside the text. *)
Definition SafeGetCharAt (t : list byte) (i : nat) : byte := nth i t chSpace.

(** The loop of [CountLineEnds] from position [i] on, with [n] positions to
    go; the counts are (linesCR, linesLF, linesCRLF). *)
Fixpoint countLineEnds (t : list byte) (n i : nat) (chPrev : byte)
    (counts : nat * nat * nat) : nat * nat * nat :=
  match n with
  | 0 => counts
  | S n' =>
      let '(linesCR, linesLF, linesCRLF) := counts in
      let ch := SafeGetCharAt t i in
      let chNext := SafeGetCharAt t (i + 1) in
      if decide (ch = chCR) then
        if decide (chNext = chLF)
        then countLineEnds t n' (i + 1) ch (linesCR, linesLF, linesCRLF + 1)
        else countLineEnds t n' (i + 1) ch (linesCR + 1, linesLF, linesCRLF)
      else if decide (ch = chLF) then
        if decide (chPrev <> chCR)
        then countLineEnds t n' (i + 1) ch (linesCR, linesLF + 1, linesCRLF)
        else countLineEnds t n' (i + 1) ch counts
      else if (1000000 <? N.of_nat i)%N then counts
      else countLineEnds t n' (i + 1) ch counts
  end.

(** [SciTEBase::CountLineEnds] *)
Definition CountLineEnds (t : list byte) : nat * nat * nat :=
  countLineEnds t (length t) 0 chSpace (0, 0, 0).

(** The choice that [DiscoverEOLSetting] makes when [eol.auto] is set:
    the mode to set, if any. *)
Definition chooseEOL (counts : nat * nat * nat) : option EndOfLine :=
  let '(linesCR, linesLF, linesCRLF) := counts in
  if (bool_decide (linesCR <= linesLF) && bool_decide (linesCRLF < linesLF))
     || (bool_decide (linesCR < linesLF) && bool_decide (linesCRLF <= linesLF))
  then Some Lf
  else if (bool_decide (linesLF <= linesCR) && bool_decide (linesCRLF < linesCR))
     || (bool_decide (linesLF < linesCR) && bool_decide (linesCRLF <= linesCR))
  then Some Cr
  else if (bool_decide (linesLF <= linesCRLF) && bool_decide (linesCR < linesCRLF))
     || (bool_decide (linesLF < linesCRLF) && bool_decide (linesCR <= linesCRLF))
  then Some CrLf
  else None.

(** ** Opening *)

Section SciTEBase.
Context `{Platform}.

(** [LoadingOptions(props, fileSize)] *)
Definition LoadingOptions (s : SciTE) (fileSize : Z) : DocumentOption :=
  let docOptions := mkOption false false in
  let sizeLarge := GetInt s "file.size.large" 0 in
  let docOptions :=
    if negb (sizeLarge =? 0)%Z && (sizeLarge <? fileSize)%Z
    then mkOption true false else docOptions in
  let sizeNoStyles := GetInt s "file.size.no.styles" 0 in
  if negb (sizeNoStyles =? 0)%Z && (sizeNoStyles <? fileSize)%Z
  then mkOption (TextLarge docOptions) true else docOptions.

(** Modelled from the spec: [ReadProperties] is defined outside
    SciTEIO.cxx; of what it sets, the input/output code reads the lexer
    language. *)
Definition ReadProperties (s : SciTE) : SciTE :=
  set_language
    (LexerLanguage (filePath s) (Buffer.overrideExtension (CurrentBuffer s))) s.

(** [std::ranges::replace(l1, from, to)] *)
Definition replaceByte (from to : byte) (l : list byte) : list byte :=
  (fun c => if decide (c = from) then to else c) <$> l.

(** [Substitute(l1, "  ", " ")] of StringHelpers.h: every pair of spaces,
    from the left, becomes one space. *)
Fixpoint SubstituteSpaces (l : list byte) : list byte :=
  match l with
  | c :: ((c' :: r') as r) =>
      if decide (c = chSpace /\ c' = chSpace)
      then chSpace :: SubstituteSpaces r'
      else c :: SubstituteSpaces r
  | _ => l
  end.

(** [Remove(l1, std::string(1, ch))] of StringHelpers.h *)
Definition Remove (ch : byte) (l : list byte) : list byte :=
  filter (fun c => c <> ch) l.

(** The words of [l1] once its spaces have become NULs: the loop
    [while ( *word) { ...; word += strlen(word) + 1; }] visits the words up
    to the first empty one. *)
Fixpoint shbangWords (l : list byte) (word : list byte) : list (list byte) :=
  match l with
  | [] => match word with [] => [] | _ => [word] end
  | c :: r =>
      if decide (c = chSpace) then
        match word with
        | [] => []
        | _ => word :: shbangWords r []
        end
      else shbangWords r (word ++ [c])
  end.

(** The language that the last word with a [shbang.] setting names. *)
Definition shbangLanguage (s : SciTE) (words : list (list byte)) : string :=
  foldl (fun languageOverride word =>
           let langShBang :=
             GetExpandedString s ("shbang." +:+ String.string_of_list_byte word) in
           if decide (langShBang = EmptyString) then languageOverride else langShBang)
        EmptyString words.

(** [SciTEBase::DiscoverLanguage]: look inside the first line for a #! clue
    regarding the language. *)
Definition DiscoverLanguage (s : SciTE) : string :=
  let length := Nat.min (LengthDocument s) (64 * 1024) in
  let buf := take length (text (wEditor s)) in
  let line := ExtractLine buf in
  let languageOverride :=
    if starts_with line (String.list_byte_of_string "<?xml") then "xml"
    else if starts_with line (String.list_byte_of_string "#!") then
      let l1 := drop 2 line in
      let l1 := replaceByte x5c chSpace l1 in
      let l1 := replaceByte x2f chSpace l1 in
      let l1 := replaceByte chTab chSpace l1 in
      let l1 := SubstituteSpaces (SubstituteSpaces (SubstituteSpaces l1)) in
      let l1 := Remove chCR l1 in
      let l1 := Remove chLF l1 in
      let l1 := if starts_with l1 [chSpace] then drop 1 l1 else l1 in
      shbangLanguage s (shbangWords l1 [])
    else EmptyString in
  if decide (languageOverride = EmptyString) then EmptyString else "x." +:+ languageOverride.

(** [SA::CpUtf8] *)
Definition CpUtf8 : Z := 65001.

(** [SciTEBase::CompleteOpen]; what only changes the view (indentation
    settings, folding, the caret, the filter, redrawing) is left out, and of
    [DiscoverEOLSetting] the part that [eol.auto] governs is kept. *)
Definition CompleteOpen (oc : OpenCompletion) (s : SciTE) : SciTE :=
  let s := SetReadOnly (Buffer.isReadOnly (CurrentBuffer s)) s in
  let s := match oc with synchronous => s | _ => ReadProperties s end in
  let s :=
    if bool_decide (language s = EmptyString) || bool_decide (language s = "null") then
      let languageOverride := DiscoverLanguage s in
      if decide (languageOverride = EmptyString) then s
      else
        let s := updCurrent (Buffer.set_overrideExtension languageOverride) s in
        let s := updCurrent (Buffer.set_lifeState LifeState.opened) s in
        ReadProperties s
    else s in
  let s :=
    if decide (Buffer.unicodeMode (CurrentBuffer s) <> uni8Bit)
    then set_codePage CpUtf8 s
    else set_codePage (GetInt s "code.page" 0) s in
  let s :=
    if negb (GetInt s "eol.auto" 0 =? 0)%Z then
      match chooseEOL (CountLineEnds (text (wEditor s))) with
      | Some m =>
          updEditor (fun d => mkDocument (text d) (readOnly d) (undoCollection d)
                                (options d) m) s
      | None => s
      end
    else s in
  let s :=
    if negb (undoCollection (wEditor s))
    then EditorSetSavePoint (SetUndoCollection true s)
    else EditorSetSavePoint s in
  updCurrent Buffer.CompleteLoading s.

(** [PerformOnNewThread(pWorker)] *)
Definition StartThread (w : FileWorker.t) (s : SciTE) : bool * SciTE :=
  if threadsStart s
  then (true, emit (PerformOnNewThread (FileWorker.id w))
                (set_threads (FileWorker.id w :: threads s) s))
  else (false, s).

(** The loop of the synchronous load: each block that [fread] returned goes
    through the reader and its text is added to the editor; [added] is the
    text added so far.  The loop ends at the first empty block. *)
Fixpoint loadBlocks (convert : Utf8_16.Reader.t) (reads : list (list byte))
    (added : list byte) : Utf8_16.Reader.t * list byte :=
  match reads with
  | [] => (convert, added)
  | [] :: _ => (convert, added)
  | data :: rest =>
      let '(convert, dataBlock) := Utf8_16.Reader.convert convert data in
      loadBlocks convert rest (added ++ dataBlock)
  end.

(** The whole of the synchronous load: the loop, then the call with the
    empty view that handles the case where the reader is holding a lead
    surrogate but there is no more data. *)
Definition loadText (reads : list (list byte)) : list byte * UniMode :=
  let '(convert, added) := loadBlocks Utf8_16.Reader.Allocate reads [] in
  let '(convert, dataTrail) := Utf8_16.Reader.convert convert [] in
  (added ++ dataTrail, Utf8_16.Reader.getEncoding convert).

Definition couldNotOpen (suppressMessage : bool) (s : SciTE) : SciTE :=
  if suppressMessage then s
  else Notify "Could not open file '^0'." (filePath s) s.

(** [SciTEBase::OpenCurrentFile]; [fileSize + 1000] is taken not to
    overflow. *)
Definition OpenCurrentFile (fileSize : Z) (suppressMessage asynchronous : bool)
    (s : SciTE) : SciTE :=
  let fileAllocationSize := (fileSize + 1000)%Z in
  if (PTRDIFF_MAX <=? fileAllocationSize)%Z || (fileSize <? 0)%Z then
    couldNotOpen suppressMessage s
  else if bool_decide (is_Some (Buffer.pFileWorker (CurrentBuffer s))) then
    (* Already performing an asynchronous load or save so do not restart load *)
    couldNotOpen suppressMessage s
  else
    match files (disk s) !! filePath s with
    | None =>
        let s := couldNotOpen suppressMessage s in
        if negb (undoCollection (wEditor s)) then SetUndoCollection true s else s
    | Some fp =>
        let s := SetTimeFromFile s in
        let s := updCurrent (Buffer.set_lifeState LifeState.reading) s in
        if asynchronous then
          let s := ClearAll s in
          let s := SetReadOnly true s in
          if loaderFails s then s
          else
            let w := FileWorker.mk (nextWorker s) true (filePath s) 0 false
                       uni8Bit [] [] (GetInt s "asynchronous.sleep" 0) false in
            let s := updCurrent (Buffer.set_pFileWorker (Some w)) s in
            let s := set_nextWorker (S (nextWorker s)) s in
            (StartThread w s).2
        else
          let s := ClearAll s in
          let '(loaded, encoding) := loadText (freadBlocks blockSize fp) in
          let s := AddText loaded s in
          let s := updCurrent (Buffer.set_unicodeMode encoding) s in
          CompleteOpen synchronous s
    end.

(** Modelled from the spec: [SwitchDocumentAt] is defined outside
    SciTEIO.cxx: the buffer takes the document and gives up the one it
    had. *)
Definition SwitchDocumentAt (index : Z) (pdoc : Document) (s : SciTE) : SciTE :=
  updBuffer index (Buffer.set_doc pdoc) s.

(** [SciTEBase::TextRead]; restoring the caret and the scroll position is
    left out. *)
Definition TextRead (pFileWorker : FileWorker.t) (s : SciTE) : SciTE :=
  let pFileLoader :=
    if FileWorker.IsLoading pFileWorker then Some pFileWorker else None in
  let iBuffer := GetDocumentByWorker s pFileLoader in
  (* May not be found if load cancelled *)
  if (0 <=? iBuffer)%Z && bool_decide (is_Some pFileLoader) then
    let s := updBuffer iBuffer
               (Buffer.set_unicodeMode (FileWorker.unicodeMode pFileWorker)) s in
    let s := updBuffer iBuffer (Buffer.set_lifeState LifeState.readAll) s in
    let s :=
      if negb (FileWorker.err pFileWorker =? 0)%Z then
        let s := Notify "Could not open file '^0'." (FileWorker.path pFileWorker) s in
        (* Should refuse to save when failure occurs *)
        updBuffer iBuffer (Buffer.set_lifeState LifeState.empty) s
      else s in
    (* Switch documents *)
    let pdocLoading :=
      newDocument (FileWorker.pLoader pFileWorker)
                  (options (Buffer.doc (bufferAt s iBuffer))) in
    let s := SwitchDocumentAt iBuffer pdocLoading s in
    if (iBuffer =? current s)%Z then
      let s := CompleteOpen completeCurrent s in
      if extender s then emit (OnOpen (Buffer.file (bufferAt s iBuffer))) s else s
    else s
  else s.

(** [SciTEBase::PerformDeferredTasks] *)
Definition PerformDeferredTasks (s : SciTE) : SciTE :=
  let '(finish, b) := Buffer.FinishSave (CurrentBuffer s) in
  let s := updCurrent (fun _ => b) s in
  if finish then
    let s := EditorSetSavePoint s in
    SetReadOnly (Buffer.isReadOnly (CurrentBuffer s)) s
  else s.

(** [SciTEBase::ReloadProperties]; of the files it reads and the menus it
    sets, the input/output code depends on [ReadProperties] only. *)
Definition ReloadProperties (s : SciTE) : SciTE := ReadProperties s.

(** [SciTEBase::TextWritten]; updating the menu and the status bar is left
    out. *)
Definition TextWritten (pFileWorker : FileWorker.t) (s : SciTE) : SciTE :=
  if FileWorker.IsLoading pFileWorker then s
  else
    let pFileStorer := pFileWorker in
    let iBuffer := GetDocumentByWorker s (Some pFileStorer) in
    let pathSaved := FileWorker.path pFileStorer in
    let errSaved := negb (FileWorker.err pFileStorer =? 0)%Z in
    let cancelledSaved := FileWorker.Cancelling pFileStorer in
    (* May not be found if save cancelled or buffer closed *)
    let s :=
      if (0 <=? iBuffer)%Z then
        (* Complete and release *)
        let s := updBuffer iBuffer Buffer.CompleteStoring s in
        if errSaved || cancelledSaved then
          (* Background save failed (possibly out-of-space) so resurrect the
             buffer so can be saved to another disk or retried after making
             room. *)
          let s := SetVisible iBuffer true s in
          if (iBuffer =? current s)%Z
          then SetReadOnly (Buffer.isReadOnly (CurrentBuffer s)) s
          else s
        else
          let s := if negb (GetVisible s iBuffer) then RemoveInvisible iBuffer s else s in
          if (iBuffer =? current s)%Z then
            let s := SetReadOnly (Buffer.isReadOnly (CurrentBuffer s)) s in
            let s :=
              if SameNameAs pathSaved (Buffer.file (CurrentBuffer s))
              then EditorSetSavePoint s else s in
            if extender s then emit (OnSave (Buffer.file (bufferAt s iBuffer))) s else s
          else
            (* Need to make writable and set save point when next receive focus. *)
            updBuffer iBuffer Buffer.ScheduleFinishSave s
      else Notify "Could not find buffer '^0'." pathSaved s in
    let s := if errSaved then emit (FailedSaveMessageBox pathSaved) s else s in
    let s := if IsPropertiesFile pathSaved then ReloadProperties s else s in
    let s :=
      if negb (jobExecuting s) && jobHasCommand s then emit Execute s else s in
    if quitting s && negb (SavingInBackground s) then emit QuitProgram s else s.

(** [SciTEBase::SetFileName] without [fixCase]; paths are absolute, and
    reading the local properties and naming the window are left out. *)
Definition SetFileName (openName : FilePath) (s : SciTE) : SciTE :=
  let s :=
    if bool_decide (String.get 0 openName = Some (Ascii.ascii_of_byte x22)) then
      (* openName is surrounded by double quotes *)
      set_filePath (String.substring 1 (String.length openName - 2) openName) s
    else set_filePath openName s in
  if decide (0 < length (buffers s))
  then updCurrent (Buffer.set_file (filePath s)) s
  else s.

(** [SciTEBase::Open] once a buffer has been made current for the file:
    the size checks of lines 565 to 592 and lines 606 to 671.  Choosing the
    buffer (lines 539 to 564 and 594 to 604) belongs to the buffer list and
    the discovery of properties by a command to the job subsystem; they are
    left out, with the menus and the window title. *)
Definition Open (file : FilePath) (of_ : Z) (s : SciTE) : bool * SciTE :=
  let absPath := file in
  let fileSize := if IsUntitled absPath then 0%Z else GetFileLength (disk s) absPath in
  if (INTPTR_MAX <? fileSize)%Z then
    (false, Notify "File '^0' is ^1 bytes long, larger than 2GB which is the largest SciTE can open." absPath s)
  else
    let maxSize := GetInt s "max.file.size" 2000000000 in
    let '(answer, s) :=
      if (0 <? fileSize)%Z && (0 <? maxSize)%Z && (maxSize <? fileSize)%Z
      then MessageBox "File '^0' is ^1 bytes long, larger than the ^2 bytes limit set in the properties. Do you still want to open it?" absPath s
      else (mbYes, s) in
    if decide (answer <> mbYes) then (false, s)
    else
      let s := SetFileName absPath s in
      let s := updCurrent (Buffer.set_overrideExtension EmptyString) s in
      let s := ReadProperties s in
      let asynchronous := false in
      let '(asynchronous, s) :=
        if negb (IsUntitled (filePath s)) then
          let s := SetReadOnly false s in
          let allowUndoLoad := flagSet of_ ofPreserveUndo in
          let asynchronous :=
            (GetInt s "background.open.size" (-1) <? fileSize)%Z
            && negb (flagSet of_ (Z.lor ofPreserveUndo ofSynchronous)) in
          let loadingOptions := LoadingOptions s fileSize in
          let '(allowUndoLoad, s) :=
            if negb asynchronous
               && bool_decide (loadingOptions <> options (wEditor s)) then
              (* File needs different options than current document so
                 create new. *)
              (false, SwitchDocumentAt (current s) (newDocument [] loadingOptions) s)
            else (allowUndoLoad, s) in
          let s := if allowUndoLoad then s else SetUndoCollection false s in
          let s := OpenCurrentFile fileSize (flagSet of_ ofQuiet) asynchronous s in
          let s := updCurrent
                     (Buffer.set_isReadOnly (negb (GetInt s "read.only" 0 =? 0)%Z)) s in
          let s := SetReadOnly (Buffer.isReadOnly (CurrentBuffer s)) s in
          (asynchronous, s)
        else (asynchronous, s) in
      let s :=
        if extender s && negb asynchronous then emit (OnOpen (filePath s)) s else s in
      (true, s).

(** ** Reverting *)

(** [SciTEBase::Revert]; moving the view back to the caret is left out. *)
Definition Revert (s : SciTE) : SciTE :=
  if IsUntitled (filePath s) then ClearAll s
  else
    let fileLength := GetFileLength (disk s) (filePath s) in
    let uniMode := Buffer.unicodeMode (CurrentBuffer s) in
    if (fileLength <? 1000000)%Z
       && bool_decide (uniMode = cookie \/ uniMode = uni8Bit \/ uniMode = utf8) then
      (* If short and file and memory use same encoding *)
      let contents := Read (disk s) (filePath s) in
      (* Check for BOM that matches file mode *)
      let svUtf8BOM := UTF8BOM in
      if bool_decide (uniMode = utf8) && negb (starts_with contents svUtf8BOM) then
        (* Should have BOM but doesn't so use full load *)
        OpenCurrentFile fileLength false false s
      else
        let viewContents :=
          if decide (uniMode = utf8)
          then drop (length svUtf8BOM) contents   (* Has BOM but should be omitted in editor *)
          else contents in
        let doc := TextAsView s in
        let '(start, last) := CommonEnds doc viewContents in
        let s :=
          if bool_decide (length viewContents <> length doc)
             || bool_decide (start <> length doc) then
            (* Truncate and insert *)
            let changed :=
              take (length viewContents - last - start) (drop start viewContents) in
            EditorReplaceTarget start (length doc - last) changed s
          else s in
        EditorSetSavePoint s
    else OpenCurrentFile fileLength false false s.

(** ** Saving *)

(** [SciTEBase::SaveResult] *)
Inductive SaveResult := completed | cancelled.

#[global] Instance SaveResult_eq_decision : EqDecision SaveResult.
Proof. solve_decision. Defined.

(** [SciTEBase::PrepareBufferForSave]: perform any changes needed before
    saving such as normalizing spaces and line ends. *)
Definition PrepareBufferForSave (saveName : FilePath) (s : SciTE) : bool * SciTE :=
  let s :=
    if stripTrailingSpaces s
    then setText (StripTrailingSpaces (text (wEditor s))) s else s in
  let s :=
    if ensureFinalLineEnd s
    then setText (EnsureFinalNewLine (eolMode (wEditor s)) (text (wEditor s))) s
    else s in
  let s :=
    if ensureConsistentLineEnds s
    then setText (ConvertEOLs (text (wEditor s))) s else s in
  (if extender s then OnBeforeSave saveName else false, s).

(** The size of the block that the synchronous save takes at
    [startBlock]:
    [grabSize = std::min(lengthDoc - startBlock, blockSize);
     grabSize = wEditor.PositionBefore(startBlock + grabSize + 1) - startBlock;] *)
Definition grabSizeAt (doc : list byte) (startBlock : nat) : nat :=
  let grabSize := Nat.min (length doc - startBlock) blockSize in
  (* Round down so only whole characters retrieved. *)
  PositionBefore doc (startBlock + grabSize + 1) - startBlock.

(** The loop of the synchronous save from [startBlock] on; the result is
    [retVal] with the writer and the file. *)
Equations? saveBlocks (doc : list byte) (convert : Utf8_16.Writer.t) (fp : FILE)
    (startBlock : nat) : bool * Utf8_16.Writer.t * FILE
  by wf (length doc - startBlock) lt :=
  saveBlocks doc convert fp startBlock with lt_dec startBlock (length doc) => {
    | right _ := (true, convert, fp);
    | left _
      with inspect (Utf8_16.Writer.fwrite convert
                      (take (grabSizeAt doc startBlock) (drop startBlock doc)) fp) => {
        | exist _ (convert1, fp1, 0) _ := (false, convert1, fp1);
        | exist _ (convert1, fp1, S _) _ :=
            saveBlocks doc convert1 fp1 (startBlock + grabSizeAt doc startBlock) } }.
Proof.
  unfold Utf8_16.Writer.fwrite in *.
  destruct (Utf8_16.Writer.encode _ _) as [w1 out].
  destruct (fwriteBytes _ _) as [fp2 k].
  destruct (decide (k < length out)); simplify_eq.
  assert (grabSizeAt doc startBlock <> 0).
  { intros E. rewrite E in *. simpl in *. discriminate. }
  lia.
Qed.

(** [saveName.Open(fileWrite)]: the file is made empty; no handle when the
    path cannot be written. *)
Definition OpenForWrite (saveName : FilePath) (s : SciTE) : option FILE * SciTE :=
  if bool_decide (saveName ∈ locked (disk s)) then (None, s)
  else
    let fs := disk s in
    (Some (mkFILE [] (free fs)),
     set_disk (mkFS (<[saveName := []]> (files fs)) (times fs) (locked fs)
                    (free fs) (closeOk fs)) s).

(** [fclose(fp)]: what was written is the file. *)
Definition fclose (saveName : FilePath) (fp : FILE) (s : SciTE) : bool * SciTE :=
  let fs := disk s in
  (closeOk fs,
   set_disk (mkFS (<[saveName := written fp]> (files fs)) (times fs) (locked fs)
                  (room fp) (closeOk fs)) s).

(** [SciTEBase::SaveBuffer]: writes the buffer to the given filename. *)
Definition SaveBuffer (saveName : FilePath) (sf : Z) (s : SciTE) : bool * SciTE :=
  let '(retVal, s) := PrepareBufferForSave saveName s in
  let '(retVal, s) :=
    if negb retVal then
      match OpenForWrite saveName s with
      | (Some fp, s) =>
          if negb (flagSet sf sfSynchronous) then
            let s := SetReadOnly true s in
            let documentBytes := TextAsView s in
            let w := FileWorker.mk (nextWorker s) false saveName 0 false
                       (Buffer.unicodeMode (CurrentBuffer s)) [] documentBytes
                       (GetInt s "asynchronous.sleep" 0)
                       (flagSet sf sfProgressVisible) in
            let s := updCurrent (Buffer.set_pFileWorker (Some w)) s in
            let s := set_nextWorker (S (nextWorker s)) s in
            match StartThread w s with
            | (true, s) => (true, s)
            | (false, s) =>
                (retVal,
                 Notify "Failed to save file '^0' as thread could not be started." saveName s)
            end
          else
            let convert :=
              Utf8_16.Writer.Allocate (Buffer.unicodeMode (CurrentBuffer s)) blockSize in
            let '(retVal, _, fp) := saveBlocks (text (wEditor s)) convert fp 0 in
            let '(closed, s) := fclose saveName fp s in
            (retVal && closed, s)
      | (None, s) => (retVal, s)
      end
    else (retVal, s) in
  let s :=
    if retVal && extender s && flagSet sf sfSynchronous
    then emit (OnSave saveName) s else s in
  (retVal, s).

(** [filePath.Remove()] *)
Definition RemoveFile (path : FilePath) (s : SciTE) : SciTE :=
  let fs := disk s in
  set_disk (mkFS (delete path (files fs)) (delete path (times fs)) (locked fs)
                 (free fs) (closeOk fs)) s.

(** [SciTEBase::Save]: returns false if cancelled or failed to save.  The
    suggestion of a path for an untitled buffer is part of the dialog. *)
Definition Save (sf : Z) (s : SciTE) : bool * SciTE :=
  if negb (IsUntitled (filePath s)) then
    if Buffer.ShouldNotSave (CurrentBuffer s) then
      (* It is OK to not save this file *)
      (true, Notify "The file '^0' has not yet been loaded entirely, so it can not be saved right now. Please retry in a while." (filePath s) s)
    else if bool_decide (is_Some (Buffer.pFileWorker (CurrentBuffer s))) then
      (* It is OK to not save this file *)
      (true, Notify "The file '^0' is already being saved." (filePath s) s)
    else
      let '(proceed, s) :=
        if negb (GetInt s "save.deletes.first" 0 =? 0)%Z then
          (true, RemoveFile (filePath s) s)
        else if negb (GetInt s "save.check.modified.time" 0 =? 0)%Z then
          let newModTime := ModifiedTime (disk s) (filePath s) in
          if negb (newModTime =? 0)%Z
             && negb (Buffer.fileModTime (CurrentBuffer s) =? 0)%Z
             && negb (newModTime =? Buffer.fileModTime (CurrentBuffer s))%Z then
            let '(decision, s) :=
              MessageBox "The file '^0' has been modified outside SciTE. Should it be saved?" (filePath s) s in
            (bool_decide (decision <> mbNo), s)
          else (true, s)
        else (true, s) in
      if negb proceed then (false, s)
      else
        let sf :=
          if (Z.of_nat (LengthDocument s) <=? GetInt s "background.save.size" (-1))%Z
             || SingleBuffer s
          then Z.lor sf sfSynchronous else sf in
        match SaveBuffer (filePath s) sf s with
        | (true, s) =>
            let s := SetTimeFromFile s in
            let s :=
              if flagSet sf sfSynchronous then
                let s := EditorSetSavePoint s in
                if IsPropertiesFile (filePath s) then ReloadProperties s else s
              else s in
            (true, s)
        | (false, s) =>
            if negb (Buffer.failedSave (CurrentBuffer s)) then
              let s := updCurrent (Buffer.set_failedSave true) s in
              let '(decision, s) :=
                MessageBox "Could not save file '^0'. Save under a different name?" (filePath s) s in
              if decide (decision = mbYes) then SaveAsDialog s else (false, s)
            else (false, s)
        end
  else
    let '(ret, s) := SaveAsDialog s in
    if negb ret then (ret, set_filePath EmptyString s) else (ret, s).

(** [SciTEBase::SaveIfUnsure] *)
Definition SaveIfUnsure (forceQuestion : bool) (sf : Z) (s : SciTE) : SaveResult * SciTE :=
  let s := updCurrent (Buffer.set_failedSave false) s in
  match Buffer.pFileWorker (CurrentBuffer s) with
  | Some w =>
      if FileWorker.IsLoading w
      then (cancelled, s)       (* In semi-loaded state so refuse to save *)
      else (completed, s)
  | None =>
      if Buffer.isDirty (CurrentBuffer s)
         && (bool_decide (LengthDocument s <> 0) || negb (IsUntitled (filePath s))
             || forceQuestion) then
        if negb (GetInt s "are.you.sure" 1 =? 0)%Z || IsUntitled (filePath s)
           || forceQuestion then
          let '(decision, s) :=
            if negb (IsUntitled (filePath s))
            then MessageBox "Save changes to '^0'?" (filePath s) s
            else MessageBox "Save changes to (Untitled)?" EmptyString s in
          if decide (decision = mbYes) then
            match Save sf s with
            | (false, s) => (cancelled, s)
            | (true, s) => (completed, s)
            end
          else (if decide (decision = mbCancel) then cancelled else completed, s)
        else
          match Save sf s with
          | (false, s) => (cancelled, s)
          | (true, s) => (completed, s)
          end
      else (completed, s)
  end.

End SciTEBase.

(** ** A platform and some states to run the program on *)

Module Sample.

(** A platform with small blocks: a path is untitled when it is empty, two
    paths name the same file when they are equal, every byte is a
    character. *)
Definition platform : Platform := {|
  IsUntitled p := bool_decide (p = EmptyString);
  SameNameAs p q := bool_decide (p = q);
  IsPropertiesFile p := false;
  PTRDIFF_MAX := 9223372036854775807;
  INTPTR_MAX := 9223372036854775807;
  blockSize := 4;
  ofForceLoad := 2;
  ofPreserveUndo := 4;
  ofQuiet := 8;
  ofSynchronous := 16;
  sfSynchronous := 16;
  sfProgressVisible := 1;
  PositionBefore doc pos := pos - 1;
  ConvertEOLs t := t;
  ExtractLine buf := take (LineEnd buf 0) buf;
  LexerLanguage p ext := EmptyString;
  OnBeforeSave p := false;
  SaveAsDialog s := (false, s) |}.

Definition bytes (s : string) : list byte := String.list_byte_of_string s.

(** A buffer in the steady state that shows [t] for the file [path]. *)
Definition buffer (path : FilePath) (t : list byte) (m : UniMode) : Buffer.t :=
  Buffer.mk path (newDocument t (mkOption false false)) false false false
    LifeState.opened m 0 false None EmptyString.

(** The application with the given buffers, the first one current and all
    of them visible, and the given files. *)
Definition app (bs : list Buffer.t) (fs : gmap FilePath (list byte)) : SciTE :=
  mkSciTE bs 0 (Z.of_nat (length bs)) (Buffer.file (default Buffer.blank (head bs)))
    ∅ ∅ EmptyString 0 false false false false false false false
    (mkFS fs ∅ [] 1000 true) [] true false [] 0 [].

(** The editor shows "abXcd" for a file that holds "abYYcd". *)
Definition edited : SciTE :=
  app [buffer "/a.txt" (bytes "abXcd") uni8Bit] {[ "/a.txt" := bytes "abYYcd" ]}.

(** The same application on a device with [n] free bytes. *)
Definition small (n : nat) (s : SciTE) : SciTE :=
  set_disk (mkFS (files (disk s)) (times (disk s)) (locked (disk s)) n
                 (closeOk (disk s))) s.

(** The editor shows "A"; the file is "B" in UTF-16 with its byte-order
    mark. *)
Definition wide : SciTE :=
  app [buffer "/u.txt" (bytes "A") uni16LE] {[ "/u.txt" := [xff; xfe; x42; x00] ]}.

(** A storer for [path] that ended with the error number [err]. *)
Definition storer (path : FilePath) (err : Z) : FileWorker.t :=
  FileWorker.mk 7 false path err false uni8Bit [] (bytes "abXcd") 0 false.

(** The buffer for "/a.txt" while [w] saves it in the background: edited,
    and read-only in the editor for the time of the save. *)
Definition beingSaved (w : FileWorker.t) : Buffer.t :=
  Buffer.mk "/a.txt"
    (mkDocument (bytes "abXcd") true true (mkOption false false) Lf)
    true false false LifeState.opened uni8Bit 0 false (Some w) EmptyString.

(** The application while [w] saves its only buffer. *)
Definition saving (w : FileWorker.t) : SciTE :=
  app [beingSaved w] {[ "/a.txt" := bytes "ab" ]}.

(** The application with a second buffer that [w] saves after the buffer
    has been closed: it is kept behind the visible buffers. *)
Definition closing (w : FileWorker.t) : SciTE :=
  set_lengthVisible 1
    (app [buffer "/b.txt" (bytes "b") uni8Bit; beingSaved w]
         {[ "/a.txt" := bytes "ab" ]}).

(** A loader for "/x.xml" that stopped with the error number [err] after
    it had read the first bytes of the file. *)
Definition loader (err : Z) : FileWorker.t :=
  FileWorker.mk 3 true "/x.xml" err false uni8Bit (bytes "<?xml ver") [] 0 false.

(** The buffer for "/x.xml" while [w] loads it in the background. *)
Definition beingLoaded (w : FileWorker.t) : Buffer.t :=
  Buffer.mk "/x.xml"
    (mkDocument [] true true (mkOption false false) Lf)
    false false false LifeState.reading uni8Bit 0 false (Some w) EmptyString.

(** The application while [w] loads its current buffer; the file is longer
    than what the loader has read. *)
Definition halfRead (w : FileWorker.t) : SciTE :=
  app [beingLoaded w; buffer "/b.txt" (bytes "b") uni8Bit]
      {[ "/x.xml" := bytes "<?xml version='1.0'?><doc/>" ]}.

(** The same with the other buffer current. *)
Definition halfReadBehind (w : FileWorker.t) : SciTE :=
  app [buffer "/b.txt" (bytes "b") uni8Bit; beingLoaded w]
      {[ "/x.xml" := bytes "<?xml version='1.0'?><doc/>" ]}.

End Sample.

(** ** Vocabulary of the properties *)

(** The cases in which [Revert] edits the text in place: a named file
    shorter than 1,000,000 bytes, read in a mode that keeps the bytes of
    the file as they are, with the byte-order mark where the mode has
    one. *)
Definition revertsInPlace (s : SciTE) : bool :=
  let uniMode := Buffer.unicodeMode (CurrentBuffer s) in
  (GetFileLength (disk s) (filePath s) <? 1000000)%Z
  && (bool_decide (uniMode = cookie) || bool_decide (uniMode = uni8Bit)
      || (bool_decide (uniMode = utf8)
          && starts_with (Read (disk s) (filePath s)) UTF8BOM)).

(** The content of the file as the editor shows it: without the byte-order
    mark of a UTF-8 file. *)
Definition diskView (s : SciTE) : list byte :=
  if decide (Buffer.unicodeMode (CurrentBuffer s) = utf8)
  then drop (length UTF8BOM) (Read (disk s) (filePath s))
  else Read (disk s) (filePath s).

(** The part of [vc] between the ends it has in common with [doc]. *)
Definition middle (doc vc : list byte) : list byte :=
  let '(start, last) := CommonEnds doc vc in
  take (length vc - last - start) (drop start vc).

(** The current buffer exists. *)
Definition hasCurrent (s : SciTE) : Prop :=
  is_Some (buffers s !! Z.to_nat (current s)).

(** A loader has been started for the current buffer: what an asynchronous
    load amounts to. *)
Definition loadsInBackground (s : SciTE) : Prop :=
  exists w, Buffer.pFileWorker (CurrentBuffer s) = Some w
            /\ FileWorker.IsLoading w = true
            /\ FileWorker.id w ∈ threads s.

(** The decision that [Open] takes for a file of [fileSize] bytes, in the
    words of the specification: larger than the configured threshold, and
    neither asked to load synchronously nor to keep the undo history. *)
Definition opensInBackground `{Platform} (s : SciTE) (fileSize : Z) (of_ : Z) : bool :=
  (GetInt s "background.open.size" (-1) <? fileSize)%Z
  && negb (flagSet of_ ofSynchronous)
  && negb (flagSet of_ ofPreserveUndo).

(** A state in which [Open] can load the named file [file]: the current
    buffer exists and has no worker, the file is there, it is no larger
    than the limits, and the name is not quoted. *)
Definition canOpen `{Platform} (s : SciTE) (file : FilePath) (fp : list byte) : Prop :=
  hasCurrent s
  /\ Buffer.pFileWorker (CurrentBuffer s) = None
  /\ IsUntitled file = false
  /\ String.get 0 file <> Some (Ascii.ascii_of_byte x22)
  /\ files (disk s) !! file = Some fp
  /\ (Z.of_nat (length fp) <= INTPTR_MAX)%Z
  /\ (Z.of_nat (length fp) <= GetInt s "max.file.size" 2000000000)%Z
  /\ (Z.of_nat (length fp) + 1000 < PTRDIFF_MAX)%Z.

(** What the operations on the buffers leave alone: the settings, the file
    system, the worker threads, and which buffer is current. *)
Definition sameWorld (s s' : SciTE) : Prop :=
  current s' = current s
  /\ lengthVisible s' = lengthVisible s
  /\ length (buffers s') = length (buffers s)
  /\ props s' = props s
  /\ propStrings s' = propStrings s
  /\ extender s' = extender s
  /\ quitting s' = quitting s
  /\ jobExecuting s' = jobExecuting s
  /\ jobHasCommand s' = jobHasCommand s
  /\ disk s' = disk s
  /\ threadsStart s' = threadsStart s
  /\ loaderFails s' = loaderFails s
  /\ threads s' = threads s
  /\ nextWorker s' = nextWorker s.

(** What the completion of a load leaves alone in a buffer. *)
Definition keepsContent (b b' : Buffer.t) : Prop :=
  text (Buffer.doc b') = text (Buffer.doc b)
  /\ options (Buffer.doc b') = options (Buffer.doc b)
  /\ Buffer.file b' = Buffer.file b
  /\ Buffer.unicodeMode b' = Buffer.unicodeMode b
  /\ Buffer.isReadOnly b' = Buffer.isReadOnly b
  /\ Buffer.fileModTime b' = Buffer.fileModTime b
  /\ Buffer.failedSave b' = Buffer.failedSave b
  /\ Buffer.finishSave b' = Buffer.finishSave b
  /\ Buffer.pFileWorker b' = Buffer.pFileWorker b.

(** A state reached from [s] by steps that act on the current buffer and
    keep its content. *)
Definition follows (s s' : SciTE) : Prop :=
  sameWorld s s'
  /\ (exists f, buffers s' = alter f (Z.to_nat (current s)) (buffers s)
                /\ forall b, keepsContent b (f b)).

(** The worker that [OpenCurrentFile] makes in the state [s]. *)
Definition theLoader (s : SciTE) : FileWorker.t :=
  FileWorker.mk (nextWorker s) true (filePath s) 0 false uni8Bit [] []
    (GetInt s "asynchronous.sleep" 0) false.

(** What [Open] does once the load has been asked for. *)
Definition afterLoad (y : SciTE) : SciTE :=
  SetReadOnly
    (Buffer.isReadOnly
       (CurrentBuffer
          (updCurrent (Buffer.set_isReadOnly (negb (GetInt y "read.only" 0 =? 0)%Z)) y)))
    (updCurrent (Buffer.set_isReadOnly (negb (GetInt y "read.only" 0 =? 0)%Z)) y).


(** A state [x] reached from [s] in which the load of [file] into the
    current buffer can start. *)
Definition readyFor (s : SciTE) (file : FilePath) (x : SciTE) : Prop :=
  sameWorld s x
  /\ hasCurrent x
  /\ Buffer.pFileWorker (CurrentBuffer x) = None
  /\ filePath x = file.

(** [PositionBefore] does what the synchronous save needs of it on [doc]:
    the block taken at a position before the end is not empty and does not
    go past what was asked for. *)
Definition wholeChars `{Platform} (doc : list byte) : Prop :=
  forall startBlock, startBlock < length doc ->
    let grabSize := Nat.min (length doc - startBlock) blockSize in
    startBlock < PositionBefore doc (startBlock + grabSize + 1)
    /\ PositionBefore doc (startBlock + grabSize + 1) <= startBlock + grabSize.

(** The bytes that the rest of a text from [startBlock] on becomes: none
    when there is no text left, as the loop then calls the writer no
    more. *)
Definition restBytes (convert : Utf8_16.Writer.t) (doc : list byte)
    (startBlock : nat) : list byte :=
  if decide (startBlock < length doc)
  then (Utf8_16.Writer.encode convert (drop startBlock doc)).2
  else [].

(** The bytes that a text becomes when it is saved in mode [m]. *)
Definition savedBytes (m : UniMode) (doc : list byte) : list byte :=
  restBytes (Utf8_16.Writer.Allocate m 0) doc 0.

(** The text that the synchronous load makes of the bytes of a file. *)
Definition decoded (fileBytes : list byte) : list byte := (loadText [fileBytes]).1.

(** The text starts with one of the byte-order marks. *)
Definition startsWithBom (t : list byte) : bool :=
  starts_with t UTF8BOM || starts_with t UTF16BEBOM || starts_with t UTF16LEBOM.

(** The UTF-8 form of a sequence of code points. *)
Definition utf8Text (cps : list N) : list byte := mjoin (utf8Bytes <$> cps).

(** The UTF-16 form of a sequence of code points in the byte order of
    [m]. *)
Definition utf16Bytes (m : UniMode) (cps : list N) : list byte :=
  mjoin ((fun cp => mjoin (Utf8_16.Writer.unitBytes m <$> Utf8_16.Writer.units cp)) <$> cps).

(** The texts that come back from a file written in mode [m]: in a mode
    without byte-order mark, those that do not themselves start with one;
    in UTF-8 with byte-order mark, all; in UTF-16, the well-formed UTF-8
    texts. *)
Definition roundTrips (m : UniMode) (t : list byte) : Prop :=
  match m with
  | uni8Bit | cookie => startsWithBom t = false
  | utf8 => True
  | uni16BE | uni16LE => exists cps, Forall (fun cp => isScalar cp = true) cps
                                     /\ t = utf8Text cps
  end.

(** [f] holds of the [n] numbers from [start] on. *)
Fixpoint allFrom (f : N -> bool) (n : nat) (start : N) : bool :=
  match n with
  | 0 => true
  | S k => f start && allFrom f k (N.succ start)
  end.

(** A scalar value survives the way through UTF-8 and UTF-16: its UTF-8
    form has the length that its first byte announces and is read back as
    the value, and its UTF-16 units are a single unit that is no surrogate
    or a lead and a trail surrogate that combine to the value. *)
Definition scalarOk (cp : N) : bool :=
  negb (isScalar cp)
  || (bool_decide (Utf8_16.Writer.seqLen (hd x00 (utf8Bytes cp)) = length (utf8Bytes cp))
      && (Utf8_16.Writer.codePoint (utf8Bytes cp) =? cp)%N
      && match Utf8_16.Writer.units cp with
         | [u] => (u =? cp)%N && (u <? 0x10000)%N && negb (isLead u) && negb (isTrail u)
         | [hi; lo] =>
             isLead hi && isTrail lo && (hi <? 0x10000)%N && (lo <? 0x10000)%N
             && (Utf8_16.Reader.pair16 hi lo =? cp)%N
         | _ => false
         end).

(** A UTF-16 unit survives the way through its two bytes. *)
Definition unitOk (u : N) : bool :=
  match Utf8_16.Writer.unitBytes uni16BE u, Utf8_16.Writer.unitBytes uni16LE u with
  | [b0; b1], [c0; c1] =>
      (Utf8_16.Reader.unit16 uni16BE b0 b1 =? u)%N
      && (Utf8_16.Reader.unit16 uni16LE c0 c1 =? u)%N
  | _, _ => false
  end.

(** The two UTF-16 modes. *)
Definition is16 (m : UniMode) : Prop := m = uni16BE \/ m = uni16LE.

(** The buffer list is in order: the current buffer is one of the visible
    buffers, which are the first of the list. *)
Definition listed (s : SciTE) : Prop :=
  (0 <= current s < lengthVisible s)%Z
  /\ (lengthVisible s <= Z.of_nat (length (buffers s)))%Z.

(** The events that [s'] has recorded since [s]. *)
Definition newEvents (s s' : SciTE) : list Event :=
  drop (length (trace s)) (trace s').

(** The worker is a storer whose save failed or was cancelled. *)
Definition saveFailed (w : FileWorker.t) : Prop :=
  FileWorker.IsLoading w = false
  /\ (FileWorker.err w <> 0%Z \/ FileWorker.Cancelling w = true).

(** The worker is a storer whose save went through. *)
Definition saveSucceeded (w : FileWorker.t) : Prop :=
  FileWorker.IsLoading w = false
  /\ FileWorker.err w = 0%Z
  /\ FileWorker.Cancelling w = false.

(** The place of the buffer at [i] once it has been made visible. *)
Definition shownAt (s : SciTE) (i : Z) : Z :=
  if GetVisible s i then i else lengthVisible s.

(** [s'] is reached from [s] by steps that leave the buffers and the
    workers alone and set no save point. *)
Definition quietly (s s' : SciTE) : Prop :=
  buffers s' = buffers s
  /\ current s' = current s
  /\ lengthVisible s' = lengthVisible s
  /\ nextWorker s' = nextWorker s
  /\ threads s' = threads s
  /\ exists evs, trace s' = trace s ++ evs /\ SetSavePoint ∉ evs.

(** The worker that a buffer holds, by its number. *)
Definition workerOf (b : Buffer.t) : option nat :=
  FileWorker.id <$> Buffer.pFileWorker b.

(** No worker is held by two buffers, the workers made so far are numbered
    below the next one, and no thread has been started twice. *)
Definition tidy (s : SciTE) : Prop :=
  (forall i j bi bj k,
      buffers s !! i = Some bi -> buffers s !! j = Some bj ->
      workerOf bi = Some k -> workerOf bj = Some k -> i = j)
  /\ (forall i b k, buffers s !! i = Some b -> workerOf b = Some k -> k < nextWorker s)
  /\ NoDup (threads s)
  /\ Forall (fun k => k < nextWorker s) (threads s).

(** The threads that have been started for the worker that [b] holds. *)
Definition inFlight (s : SciTE) (b : Buffer.t) : list nat :=
  filter (fun k => workerOf b = Some k) (threads s).

(** What the application asks of the input/output code, and what the
    workers tell it. *)
Inductive request `{Platform} : SciTE -> SciTE -> Prop :=
  | request_OpenCurrentFile n q a s : request s (OpenCurrentFile n q a s)
  | request_Open file of_ s : request s (Open file of_ s).2
  | request_Revert s : request s (Revert s)
  | request_Save sf s : request s (Save sf s).2
  | request_SaveIfUnsure q sf s : request s (SaveIfUnsure q sf s).2
  | request_TextRead w s : request s (TextRead w s)
  | request_TextWritten w s : request s (TextWritten w s)
  | request_PerformDeferredTasks s : request s (PerformDeferredTasks s).

(** * Part II: properties *)

(** ** Views *)

Lemma at_lookup (a : string_view) (i : nat) (c : byte) :
  a !! i = Some c -> at_ a i = c.
Proof.
  unfold at_. revert i. induction a as [|x a IH]; intros [|i] Hi; simplify_eq/=; eauto.
Qed.

Lemma take_ext_at (a b : string_view) n :
  n <= length a -> n <= length b ->
  (forall i, i < n -> at_ a i = at_ b i) -> take n a = take n b.
Proof.
  revert a b. induction n as [|n IH]; intros [|x a] [|y b] Ha Hb Hall;
    simpl in *; try lia; auto.
  f_equal.
  - exact (Hall 0 ltac:(lia)).
  - apply IH; try lia. intros i Hi. exact (Hall (S i) ltac:(lia)).
Qed.

Lemma at_drop (a : string_view) k i : at_ (drop k a) i = at_ a (k + i).
Proof.
  unfold at_. revert a. induction k as [|k IH]; intros [|x a]; simpl; auto.
  now destruct i.
Qed.

Lemma drop_ext_at (a b : string_view) n :
  n <= length a -> n <= length b ->
  (forall i, i < n -> at_ a (length a - i - 1) = at_ b (length b - i - 1)) ->
  drop (length a - n) a = drop (length b - n) b.
Proof.
  intros Ha Hb Hall.
  rewrite <- (take_ge (drop (length a - n) a) n) by (rewrite length_drop; lia).
  rewrite <- (take_ge (drop (length b - n) b) n) by (rewrite length_drop; lia).
  apply take_ext_at; rewrite ?length_drop; try lia.
  intros i Hi. rewrite !at_drop.
  replace (length a - n + i) with (length a - (n - 1 - i) - 1) by lia.
  replace (length b - n + i) with (length b - (n - 1 - i) - 1) by lia.
  apply Hall. lia.
Qed.

(** ** CommonEnds *)

Example CommonEnds_mid :
  CommonEnds [x61; x62; x63; x64] [x61; x78; x64] = (1, 1).
Proof. reflexivity. Qed.

Example CommonEnds_repeat :
  CommonEnds [x61; x61] [x61; x61; x61] = (2, 0).
Proof. reflexivity. Qed.

Lemma scanStart_bounds a b len start :
  start <= len -> start <= scanStart a b len start <= len.
Proof.
  funelim (scanStart a b len start); intros; lia.
Qed.

Lemma scanStart_agree a b len start i :
  start <= i -> i < scanStart a b len start -> at_ a i = at_ b i.
Proof.
  funelim (scanStart a b len start); intros; try lia.
  destruct (decide (i = start)) as [->|].
  - now apply byte_dec_bl.
  - match goal with IH : forall i : nat, _ |- _ => apply IH; lia end.
Qed.

Lemma scanStart_all a b len start :
  (forall i, start <= i -> i < len -> at_ a i = at_ b i) ->
  start <= len -> scanStart a b len start = len.
Proof.
  funelim (scanStart a b len start); intros Hall Hle; try lia.
  - match goal with IH : _ -> _ -> scanStart _ _ _ _ = _ |- _ => apply IH; [|lia] end.
    intros i ? ?. apply Hall; lia.
  - match goal with E : Byte.eqb _ _ = false |- _ =>
      rewrite (Hall start) in E by lia;
      rewrite (byte_dec_lb eq_refl) in E; discriminate E end.
Qed.

(** The first loop stops at the first difference: it is not only a common
    prefix that [start] measures but the longest one. *)
Lemma scanStart_stops a b len start :
  start <= len -> scanStart a b len start < len ->
  at_ a (scanStart a b len start) <> at_ b (scanStart a b len start).
Proof.
  funelim (scanStart a b len start); intros Hle Hlt; try lia.
  - match goal with IH : _ -> _ -> at_ _ _ <> _ |- _ => apply IH; lia end.
  - match goal with E : Byte.eqb _ _ = false |- _ => now apply eqb_false end.
Qed.

Lemma scanLast_bounds a b maxLeft last :
  last <= maxLeft -> last <= scanLast a b maxLeft last <= maxLeft.
Proof.
  funelim (scanLast a b maxLeft last); intros; lia.
Qed.

Lemma scanLast_agree a b maxLeft last i :
  last <= i -> i < scanLast a b maxLeft last ->
  at_ a (length a - i - 1) = at_ b (length b - i - 1).
Proof.
  funelim (scanLast a b maxLeft last); intros; try lia.
  match goal with E : Byte.eqb (at_ _ (_ - ?k - 1)) _ = true |- _ =>
    destruct (decide (i = k)) as [->|]; [now apply byte_dec_bl|] end.
  match goal with IH : forall i : nat, _ |- _ => apply IH; lia end.
Qed.

Lemma scanLast_stops a b maxLeft last :
  last <= maxLeft -> scanLast a b maxLeft last < maxLeft ->
  at_ a (length a - scanLast a b maxLeft last - 1)
  <> at_ b (length b - scanLast a b maxLeft last - 1).
Proof.
  funelim (scanLast a b maxLeft last); intros Hle Hlt; try lia.
  - match goal with IH : _ -> _ -> at_ _ _ <> _ |- _ => apply IH; lia end.
  - match goal with E : Byte.eqb _ _ = false |- _ => now apply eqb_false end.
Qed.

Lemma CommonEnds_bounds a b :
  (CommonEnds a b).1 + (CommonEnds a b).2 <= Nat.min (length a) (length b).
Proof.
  unfold CommonEnds. simpl.
  pose proof (scanStart_bounds a b (Nat.min (length a) (length b)) 0 ltac:(lia)) as Hs.
  pose proof (scanLast_bounds a b
    (Nat.min (length a) (length b) - scanStart a b (Nat.min (length a) (length b)) 0) 0
    ltac:(lia)) as Hl.
  lia.
Qed.

Lemma CommonEnds_prefix a b :
  take (CommonEnds a b).1 a = take (CommonEnds a b).1 b.
Proof.
  pose proof (CommonEnds_bounds a b) as Hb. unfold CommonEnds in *. simpl in *.
  apply take_ext_at; try lia.
  intros i Hi. eapply scanStart_agree; [|exact Hi]. lia.
Qed.

Lemma CommonEnds_suffix a b :
  drop (length a - (CommonEnds a b).2) a = drop (length b - (CommonEnds a b).2) b.
Proof.
  pose proof (CommonEnds_bounds a b) as Hb. unfold CommonEnds in *. simpl in *.
  apply drop_ext_at; try lia.
  intros i Hi. eapply scanLast_agree; [|exact Hi]. lia.
Qed.

Lemma CommonEnds_same a : CommonEnds a a = (length a, 0).
Proof.
  unfold CommonEnds. rewrite Nat.min_id.
  rewrite scanStart_all by (auto; lia).
  rewrite Nat.sub_diag. now simp scanLast.
Qed.

(** C10: for all views [a] and [b], [CommonEnds a b] is a pair
    [(start, last)] with [start + last] at most the smaller of the two
    lengths, the first [start] bytes of [a] and [b] equal and the final
    [last] bytes of [a] and [b] equal; on equal views it is [(length, 0)].
    The span [start .. length - last] that [Revert] replaces is therefore
    well formed in both views: prefix and suffix do not overlap. *)
Theorem CommonEnds_spec (a b : string_view) :
  let start := (CommonEnds a b).1 in
  let last := (CommonEnds a b).2 in
  start + last <= Nat.min (length a) (length b)
  /\ take start a = take start b
  /\ drop (length a - last) a = drop (length b - last) b
  /\ CommonEnds a a = (length a, 0)
  /\ start <= length a - last
  /\ start <= length b - last.
Proof.
  pose proof (CommonEnds_bounds a b) as Hb. cbv zeta.
  split; [exact Hb|].
  split; [apply CommonEnds_prefix|].
  split; [apply CommonEnds_suffix|].
  split; [apply CommonEnds_same|].
  lia.
Qed.

(** ** The streaming decoder *)

Import Utf8_16.

Example decode_utf8_bom :
  loadText [[xef; xbb; xbf; x41]] = ([x41], utf8).
Proof. reflexivity. Qed.

Example decode_utf16le_pair :
  loadText [[xff; xfe; x3d; xd8; x00; xde]] = ([xf0; x9f; x98; x80], uni16LE).
Proof. reflexivity. Qed.

Example decode_lone_lead :
  loadText [[xfe; xff; xd8; x3d]] = ([xef; xbf; xbd], uni16BE).
Proof. reflexivity. Qed.

Example decode_short_stream :
  loadText [[xef; xbb]] = ([xef; xbb], uni8Bit).
Proof. reflexivity. Qed.

Lemma feedAll_app r a b :
  Reader.feedAll r (a ++ b) =
  let '(r1, out1) := Reader.feedAll r a in
  let '(r2, out2) := Reader.feedAll r1 b in
  (r2, out1 ++ out2).
Proof.
  revert r. induction a as [|x a IH]; intros r; simpl.
  - now destruct (Reader.feedAll r b).
  - destruct (Reader.feed r x) as [r1 o1]. rewrite IH.
    destruct (Reader.feedAll r1 a) as [r2 o2].
    destruct (Reader.feedAll r2 b) as [r3 o3].
    now rewrite app_assoc.
Qed.

Lemma convert_nonempty r chunk :
  chunk <> [] -> Reader.convert r chunk = Reader.feedAll r chunk.
Proof. now destruct chunk. Qed.

(** The loop over blocks that are not empty feeds the reader the bytes of
    the blocks in order. *)
Lemma loadBlocks_feedAll chunks : forall r added,
  Forall (fun c => c <> []) chunks ->
  loadBlocks r chunks added =
  let '(r1, out) := Reader.feedAll r (mjoin chunks) in (r1, added ++ out).
Proof.
  induction chunks as [|c chunks IH]; intros r added Hne; simpl.
  - now rewrite app_nil_r.
  - inversion Hne as [|? ? Hc Hrest]; subst.
    destruct c as [|x c]; [congruence|].
    rewrite feedAll_app.
    change (Reader.convert r (x :: c)) with (Reader.feedAll r (x :: c)).
    destruct (Reader.feedAll r (x :: c)) as [r1 o1].
    rewrite IH by assumption.
    destruct (Reader.feedAll r1 (mjoin chunks)) as [r2 o2].
    now rewrite app_assoc.
Qed.

(** C1: for every byte stream and every partition of it into consecutive
    chunks, none of them empty, feeding the chunks one at a time to the
    reader as the synchronous load loop does and then flushing with an
    empty chunk gives the same text, and the same detected encoding, as
    feeding the stream as one chunk and flushing. *)
Theorem decode_chunking (chunks : list (list byte)) :
  Forall (fun c => c <> []) chunks ->
  loadText chunks = loadText [mjoin chunks].
Proof.
  intros Hne. unfold loadText.
  rewrite (loadBlocks_feedAll chunks) by assumption.
  destruct (decide (mjoin chunks = [])) as [E|E].
  - rewrite E. reflexivity.
  - rewrite (loadBlocks_feedAll [mjoin chunks]) by (constructor; [assumption|constructor]).
    simpl. now rewrite app_nil_r.
Qed.

Lemma decode_chunking_witness :
  loadText [[xef]; [xbb; xbf; xc3]; [xa9]] = loadText [mjoin [[xef]; [xbb; xbf; xc3]; [xa9]]].
Proof.
  apply decode_chunking.
  repeat constructor; discriminate.
Defined.

(** ** The application state *)

Section State.
Context `{Platform}.

Lemma CurrentBuffer_updCurrent f s :
  hasCurrent s -> CurrentBuffer (updCurrent f s) = f (CurrentBuffer s).
Proof.
  intros [b Hb]. unfold CurrentBuffer, bufferAt, updCurrent, updBuffer. simpl.
  now rewrite list_lookup_alter_eq, Hb.
Qed.

Lemma hasCurrent_updBuffer i f s : hasCurrent s -> hasCurrent (updBuffer i f s).
Proof.
  unfold hasCurrent, updBuffer. simpl. intros [b Hb].
  destruct (decide (Z.to_nat i = Z.to_nat (current s))) as [E|E].
  - rewrite E, list_lookup_alter_eq, Hb. eauto.
  - rewrite list_lookup_alter_ne by auto. eauto.
Qed.

Lemma hasCurrent_updCurrent f s : hasCurrent s -> hasCurrent (updCurrent f s).
Proof. apply hasCurrent_updBuffer. Qed.

Lemma hasCurrent_emit e s : hasCurrent s <-> hasCurrent (emit e s).
Proof. reflexivity. Qed.

Lemma text_setText t s : hasCurrent s -> text (wEditor (setText t s)) = t.
Proof.
  intros Hc. unfold wEditor, setText. now rewrite CurrentBuffer_updCurrent.
Qed.

Lemma CurrentBuffer_EditorSetSavePoint s :
  hasCurrent s ->
  CurrentBuffer (EditorSetSavePoint s) = Buffer.set_isDirty false (CurrentBuffer s).
Proof.
  intros Hc. unfold EditorSetSavePoint.
  change (CurrentBuffer (emit ?e ?x)) with (CurrentBuffer x).
  now rewrite CurrentBuffer_updCurrent.
Qed.

Lemma threads_Notify msg arg s : threads (Notify msg arg s) = threads s.
Proof. unfold Notify, MessageBox. simpl. now destruct (replies s). Qed.

Lemma threads_couldNotOpen q s : threads (couldNotOpen q s) = threads s.
Proof. unfold couldNotOpen. destruct q; auto using threads_Notify. Qed.

Lemma threads_CompleteOpen oc s : threads (CompleteOpen oc s) = threads s.
Proof.
  unfold CompleteOpen.
  repeat match goal with
         | |- context [match ?x with _ => _ end] => destruct x; simpl
         end; reflexivity.
Qed.

(** The synchronous load starts no thread. *)
Lemma threads_OpenCurrentFile_sync n q s :
  threads (OpenCurrentFile n q false s) = threads s.
Proof.
  unfold OpenCurrentFile.
  destruct ((PTRDIFF_MAX <=? n + 1000)%Z || (n <? 0)%Z); [apply threads_couldNotOpen|].
  destruct (bool_decide _); [apply threads_couldNotOpen|].
  destruct (files (disk s) !! filePath s) as [fp|].
  - destruct (loadText _) as [loaded encoding].
    now rewrite threads_CompleteOpen.
  - destruct (negb _); simpl; apply threads_couldNotOpen.
Qed.

(** *** What an operation leaves alone *)

Lemma sameWorld_refl s : sameWorld s s.
Proof. unfold sameWorld. tauto. Qed.

Lemma sameWorld_trans s1 s2 s3 :
  sameWorld s1 s2 -> sameWorld s2 s3 -> sameWorld s1 s3.
Proof. unfold sameWorld. intros. intuition congruence. Qed.

Lemma sameWorld_hasCurrent s s' :
  sameWorld s s' -> hasCurrent s -> hasCurrent s'.
Proof.
  unfold sameWorld, hasCurrent. intros (Hcur & _ & Hlen & _) Hc.
  apply lookup_lt_is_Some in Hc. apply lookup_lt_is_Some.
  rewrite Hcur, Hlen. exact Hc.
Qed.

Ltac world :=
  unfold sameWorld, SetFileName, ReadProperties, SetReadOnly, SetUndoCollection,
    SwitchDocumentAt, ClearAll, AddText, setText, EditorSetSavePoint,
    EditorReplaceTarget, SetTimeFromFile, couldNotOpen, Notify, MessageBox, emit,
    updEditor, updCurrent, updBuffer;
  repeat match goal with
         | |- context [match ?x with _ => _ end] => destruct x
         end;
  simpl; rewrite ?length_alter; tauto.

Lemma world_updBuffer i f s : sameWorld s (updBuffer i f s).
Proof. world. Qed.
Lemma world_updCurrent f s : sameWorld s (updCurrent f s).
Proof. world. Qed.
Lemma world_emit e s : sameWorld s (emit e s).
Proof. world. Qed.
Lemma world_Notify msg arg s : sameWorld s (Notify msg arg s).
Proof. world. Qed.
Lemma world_MessageBox msg arg s : sameWorld s (MessageBox msg arg s).2.
Proof. world. Qed.
Lemma world_couldNotOpen q s : sameWorld s (couldNotOpen q s).
Proof. world. Qed.
Lemma world_SetFileName file s : sameWorld s (SetFileName file s).
Proof. world. Qed.
Lemma world_ReadProperties s : sameWorld s (ReadProperties s).
Proof. world. Qed.
Lemma world_SetReadOnly v s : sameWorld s (SetReadOnly v s).
Proof. world. Qed.
Lemma world_SetUndoCollection v s : sameWorld s (SetUndoCollection v s).
Proof. world. Qed.
Lemma world_SwitchDocumentAt i d s : sameWorld s (SwitchDocumentAt i d s).
Proof. world. Qed.
Lemma world_setText t s : sameWorld s (setText t s).
Proof. world. Qed.
Lemma world_ClearAll s : sameWorld s (ClearAll s).
Proof. world. Qed.
Lemma world_AddText t s : sameWorld s (AddText t s).
Proof. world. Qed.
Lemma world_EditorSetSavePoint s : sameWorld s (EditorSetSavePoint s).
Proof. world. Qed.
Lemma world_EditorReplaceTarget a b c s : sameWorld s (EditorReplaceTarget a b c s).
Proof. world. Qed.
Lemma world_SetTimeFromFile s : sameWorld s (SetTimeFromFile s).
Proof. world. Qed.
Lemma world_set_language v s : sameWorld s (set_language v s).
Proof. world. Qed.
Lemma world_set_codePage v s : sameWorld s (set_codePage v s).
Proof. world. Qed.
Lemma world_set_filePath v s : sameWorld s (set_filePath v s).
Proof. world. Qed.

(** *** The current buffer after an operation *)

Lemma CurrentBuffer_emit e s : CurrentBuffer (emit e s) = CurrentBuffer s.
Proof. reflexivity. Qed.

Lemma CurrentBuffer_Notify msg arg s :
  CurrentBuffer (Notify msg arg s) = CurrentBuffer s.
Proof. unfold Notify, MessageBox. simpl. now destruct (replies s). Qed.

Lemma buffers_Notify msg arg s : buffers (Notify msg arg s) = buffers s.
Proof. unfold Notify, MessageBox. simpl. now destruct (replies s). Qed.

Lemma buffers_couldNotOpen q s : buffers (couldNotOpen q s) = buffers s.
Proof. unfold couldNotOpen. destruct q; auto using buffers_Notify. Qed.

Lemma CurrentBuffer_SetReadOnly v s :
  hasCurrent s ->
  CurrentBuffer (SetReadOnly v s) =
  Buffer.set_doc (mkDocument (text (wEditor s)) v (undoCollection (wEditor s))
                    (options (wEditor s)) (eolMode (wEditor s))) (CurrentBuffer s).
Proof. intros. unfold SetReadOnly, updEditor. now rewrite CurrentBuffer_updCurrent. Qed.

Lemma CurrentBuffer_SetUndoCollection v s :
  hasCurrent s ->
  CurrentBuffer (SetUndoCollection v s) =
  Buffer.set_doc (mkDocument (text (wEditor s)) (readOnly (wEditor s)) v
                    (options (wEditor s)) (eolMode (wEditor s))) (CurrentBuffer s).
Proof. intros. unfold SetUndoCollection, updEditor. now rewrite CurrentBuffer_updCurrent. Qed.

Lemma CurrentBuffer_setText t s :
  hasCurrent s ->
  CurrentBuffer (setText t s) =
  Buffer.set_isDirty true
    (Buffer.set_doc (mkDocument t (readOnly (wEditor s)) (undoCollection (wEditor s))
                       (options (wEditor s)) (eolMode (wEditor s))) (CurrentBuffer s)).
Proof. intros. unfold setText. now rewrite CurrentBuffer_updCurrent. Qed.

Lemma CurrentBuffer_ReadProperties s :
  CurrentBuffer (ReadProperties s) = CurrentBuffer s.
Proof. reflexivity. Qed.

Lemma CurrentBuffer_SwitchDocumentAt d s :
  hasCurrent s ->
  CurrentBuffer (SwitchDocumentAt (current s) d s) = Buffer.set_doc d (CurrentBuffer s).
Proof. intros. apply (CurrentBuffer_updCurrent (Buffer.set_doc d)). assumption. Qed.

Lemma CurrentBuffer_SetTimeFromFile s :
  hasCurrent s ->
  CurrentBuffer (SetTimeFromFile s) =
  Buffer.set_fileModTime (ModifiedTime (disk s) (Buffer.file (CurrentBuffer s)))
    (CurrentBuffer s).
Proof. intros. unfold SetTimeFromFile. now rewrite CurrentBuffer_updCurrent. Qed.

Lemma CurrentBuffer_SetFileName file s :
  hasCurrent s ->
  String.get 0 file <> Some (Ascii.ascii_of_byte x22) ->
  CurrentBuffer (SetFileName file s) = Buffer.set_file file (CurrentBuffer s)
  /\ filePath (SetFileName file s) = file.
Proof.
  intros Hc Hq. unfold SetFileName.
  rewrite bool_decide_eq_false_2 by assumption.
  destruct (decide _) as [|Hn].
  - split; [|reflexivity].
    now rewrite (CurrentBuffer_updCurrent _ (set_filePath file s)).
  - exfalso. apply Hn. apply lookup_lt_is_Some in Hc.
    change (buffers (set_filePath file s)) with (buffers s). lia.
Qed.

End State.

(** ** Revert *)

Section Revert.
Context `{Platform}.

Lemma middle_fits doc vc :
  let '(start, last) := CommonEnds doc vc in
  take start doc ++ middle doc vc ++ drop (length doc - last) doc = vc.
Proof.
  pose proof (CommonEnds_bounds doc vc) as Hb.
  pose proof (CommonEnds_prefix doc vc) as Hp.
  pose proof (CommonEnds_suffix doc vc) as Hs.
  unfold middle. destruct (CommonEnds doc vc) as [start last]. simpl in *.
  rewrite Hp, Hs.
  assert (drop (length vc - last) vc
          = drop (length vc - last - start) (drop start vc)) as ->.
  { rewrite drop_drop. f_equal. lia. }
  now rewrite !take_drop.
Qed.

Lemma same_text_iff doc vc :
  (length vc = length doc /\ (CommonEnds doc vc).1 = length doc) <-> doc = vc.
Proof.
  split.
  - intros [Hlen Hstart].
    pose proof (CommonEnds_prefix doc vc) as Hp.
    rewrite Hstart in Hp.
    rewrite take_ge in Hp by lia. rewrite take_ge in Hp by lia. exact Hp.
  - intros ->. now rewrite CommonEnds_same.
Qed.

(** The edit in place, for any content [vc] to reach. *)
Lemma Revert_in_place s vc :
  hasCurrent s ->
  let doc := TextAsView s in
  let s' :=
    let '(start, last) := CommonEnds doc vc in
    let s1 :=
      if bool_decide (length vc <> length doc) || bool_decide (start <> length doc)
      then EditorReplaceTarget start (length doc - last)
             (take (length vc - last - start) (drop start vc)) s
      else s in
    EditorSetSavePoint s1 in
  threads s' = threads s
  /\ text (wEditor s') = vc
  /\ Buffer.isDirty (CurrentBuffer s') = false
  /\ trace s' =
       trace s
       ++ (if decide (doc = vc) then []
           else [ReplaceTarget (CommonEnds doc vc).1
                   (length doc - (CommonEnds doc vc).2) (middle doc vc)])
       ++ [SetSavePoint]
  /\ take (CommonEnds doc vc).1 doc ++ middle doc vc
       ++ drop (length doc - (CommonEnds doc vc).2) doc = vc.
Proof.
  intros Hc doc.
  pose proof (middle_fits doc vc) as Hfit.
  pose proof (same_text_iff doc vc) as Hsame.
  unfold middle in *.
  destruct (CommonEnds doc vc) as [start last] eqn:Hce.
  cbn [fst snd] in *. cbv zeta.
  destruct (decide (doc = vc)) as [E|E].
  - rewrite (bool_decide_eq_false_2 (length vc <> length doc))
      by (intros ?; apply Hsame in E; tauto).
    rewrite (bool_decide_eq_false_2 (start <> length doc))
      by (intros ?; apply Hsame in E; tauto).
    cbn [orb]. unfold wEditor.
    rewrite CurrentBuffer_EditorSetSavePoint by assumption.
    repeat split; auto.
  - assert ((bool_decide (length vc <> length doc)
             || bool_decide (start <> length doc)) = true) as ->.
    { apply orb_true_iff. rewrite !bool_decide_eq_true.
      destruct (decide (length vc = length doc)); [|tauto].
      destruct (decide (start = length doc)); [|tauto].
      exfalso. apply E, Hsame. tauto. }
    unfold EditorReplaceTarget, wEditor.
    rewrite CurrentBuffer_EditorSetSavePoint
      by (apply hasCurrent_updCurrent; assumption).
    change (CurrentBuffer (emit ?e ?x)) with (CurrentBuffer x).
    unfold setText. rewrite !CurrentBuffer_updCurrent by assumption.
    split; [reflexivity|]. split; [exact Hfit|]. split; [reflexivity|].
    split; [|exact Hfit].
    cbn [trace EditorSetSavePoint emit set_trace updCurrent updBuffer set_buffers].
    now rewrite <- app_assoc.
Qed.

Lemma revertsInPlace_true s :
  revertsInPlace s = true ->
  (GetFileLength (disk s) (filePath s) <? 1000000)%Z = true
  /\ bool_decide (Buffer.unicodeMode (CurrentBuffer s) = cookie
                  \/ Buffer.unicodeMode (CurrentBuffer s) = uni8Bit
                  \/ Buffer.unicodeMode (CurrentBuffer s) = utf8) = true
  /\ (bool_decide (Buffer.unicodeMode (CurrentBuffer s) = utf8)
      && negb (starts_with (Read (disk s) (filePath s)) UTF8BOM)) = false.
Proof.
  unfold revertsInPlace. cbv zeta.
  destruct (Buffer.unicodeMode (CurrentBuffer s));
    destruct (starts_with _ _); destruct (_ <? _)%Z; cbn; intros; try discriminate;
    repeat split; try reflexivity.
Qed.

Lemma revertsInPlace_false s :
  revertsInPlace s = false ->
  ((GetFileLength (disk s) (filePath s) <? 1000000)%Z
   && bool_decide (Buffer.unicodeMode (CurrentBuffer s) = cookie
                   \/ Buffer.unicodeMode (CurrentBuffer s) = uni8Bit
                   \/ Buffer.unicodeMode (CurrentBuffer s) = utf8)) = false
  \/ (bool_decide (Buffer.unicodeMode (CurrentBuffer s) = utf8)
      && negb (starts_with (Read (disk s) (filePath s)) UTF8BOM)) = true.
Proof.
  unfold revertsInPlace. cbv zeta.
  destruct (Buffer.unicodeMode (CurrentBuffer s));
    destruct (starts_with _ _); destruct (_ <? _)%Z; cbn; intros; try discriminate;
    auto.
Qed.


End Revert.

Example Revert_edited :
  text (wEditor (@Revert Sample.platform Sample.edited)) = Sample.bytes "abYYcd"
  /\ trace (@Revert Sample.platform Sample.edited)
     = [ReplaceTarget 2 3 (Sample.bytes "YY"); SetSavePoint].
Proof. split; reflexivity. Qed.




(** ** Completing a load *)

(** Name the value of the first [let] of the goal. *)
Ltac name_let y :=
  match goal with
  | |- context C [let x := ?e in @?body x] =>
      pose (y := e);
      let g := context C [body y] in
      change g; cbv beta
  end.

Section Follows.
Context `{Platform}.

Lemma keepsContent_refl b : keepsContent b b.
Proof. unfold keepsContent. tauto. Qed.

Lemma keepsContent_trans b1 b2 b3 :
  keepsContent b1 b2 -> keepsContent b2 b3 -> keepsContent b1 b3.
Proof. unfold keepsContent. intros. intuition congruence. Qed.

Lemma follows_refl s : follows s s.
Proof.
  split; [apply sameWorld_refl|]. exists id. split.
  - now rewrite list_alter_id.
  - intros b. apply keepsContent_refl.
Qed.

Lemma follows_trans s1 s2 s3 : follows s1 s2 -> follows s2 s3 -> follows s1 s3.
Proof.
  intros [Hw1 (f & Hf & Hkf)] [Hw2 (g & Hg & Hkg)].
  split; [eauto using sameWorld_trans|].
  exists (g ∘ f). split.
  - rewrite Hg, Hf. destruct Hw1 as [-> _]. now rewrite list_alter_alter_eq.
  - intros b. eapply keepsContent_trans; [apply Hkf|apply Hkg].
Qed.

Lemma follows_updCurrent f s :
  (forall b, keepsContent b (f b)) -> follows s (updCurrent f s).
Proof.
  intros Hk. split; [apply world_updCurrent|]. exists f. split; [reflexivity|exact Hk].
Qed.

Lemma follows_same_buffers s s' :
  sameWorld s s' -> buffers s' = buffers s -> follows s s'.
Proof.
  intros Hw Hb. split; [exact Hw|]. exists id. split.
  - now rewrite list_alter_id.
  - intros b. apply keepsContent_refl.
Qed.

Lemma follows_current s s' :
  follows s s' -> hasCurrent s ->
  hasCurrent s' /\ keepsContent (CurrentBuffer s) (CurrentBuffer s').
Proof.
  intros [Hw (f & Hf & Hk)] Hc. split; [eauto using sameWorld_hasCurrent|].
  destruct Hc as [b Hb].
  unfold CurrentBuffer, bufferAt. destruct Hw as [-> _].
  rewrite Hf, list_lookup_alter_eq, Hb. simpl. apply Hk.
Qed.

Ltac keeps := intros ?; unfold keepsContent; simpl; tauto.

Lemma follows_SetReadOnly v s : follows s (SetReadOnly v s).
Proof. apply follows_updCurrent. keeps. Qed.
Lemma follows_SetUndoCollection v s : follows s (SetUndoCollection v s).
Proof. apply follows_updCurrent. keeps. Qed.
Lemma follows_ReadProperties s : follows s (ReadProperties s).
Proof. apply follows_same_buffers; [apply world_ReadProperties|reflexivity]. Qed.
Lemma follows_set_codePage v s : follows s (set_codePage v s).
Proof. apply follows_same_buffers; [apply world_set_codePage|reflexivity]. Qed.
Lemma follows_emit e s : follows s (emit e s).
Proof. apply follows_same_buffers; [apply world_emit|reflexivity]. Qed.
Lemma follows_EditorSetSavePoint s : follows s (EditorSetSavePoint s).
Proof.
  eapply follows_trans; [|apply follows_emit]. apply follows_updCurrent. keeps.
Qed.

Lemma follows_hasCurrent s s' : follows s s' -> hasCurrent s -> hasCurrent s'.
Proof. intros Hf Hc. now apply (follows_current s s'). Qed.

End Follows.

(** [follows s e] from what is known of the states that [e] is built
    from. *)
Ltac fol :=
  repeat lazymatch goal with
    | Hf : follows ?s ?x |- follows ?s ?x => exact Hf
    | |- follows ?s ?s => apply follows_refl
    | |- follows _ (if ?c then _ else _) => destruct c
    | |- follows _ (match ?c with _ => _ end) => destruct c
    | |- follows _ (let x := _ in _) => cbv zeta
    | |- follows ?s (SetReadOnly _ ?x) =>
        apply (follows_trans s x); [|apply follows_SetReadOnly]
    | |- follows ?s (SetUndoCollection _ ?x) =>
        apply (follows_trans s x); [|apply follows_SetUndoCollection]
    | |- follows ?s (ReadProperties ?x) =>
        apply (follows_trans s x); [|apply follows_ReadProperties]
    | |- follows ?s (set_codePage _ ?x) =>
        apply (follows_trans s x); [|apply follows_set_codePage]
    | |- follows ?s (emit _ ?x) =>
        apply (follows_trans s x); [|apply follows_emit]
    | |- follows ?s (EditorSetSavePoint ?x) =>
        apply (follows_trans s x); [|apply follows_EditorSetSavePoint]
    | |- follows ?s (updEditor _ ?x) =>
        apply (follows_trans s x);
        [|apply follows_updCurrent; intros ?; unfold keepsContent; simpl; tauto]
    | |- follows ?s (updCurrent _ ?x) =>
        apply (follows_trans s x);
        [|apply follows_updCurrent; intros ?; unfold keepsContent; simpl; tauto]
    end.

Section CompleteOpen.
Context `{Platform}.

(** [CompleteOpen] ends with [CompleteLoading] on a state that follows the
    initial one and is at its save point. *)
Lemma CompleteOpen_steps oc s :
  hasCurrent s ->
  exists s5,
    CompleteOpen oc s = updCurrent Buffer.CompleteLoading s5
    /\ follows s s5
    /\ Buffer.isDirty (CurrentBuffer s5) = false
    /\ trace s5 = trace s ++ [SetSavePoint]
    /\ replies s5 = replies s.
Proof.
  intros Hc. cbv delta [CompleteOpen]; cbv beta.
  name_let s1.
  assert (follows s s1 /\ trace s1 = trace s /\ replies s1 = replies s) as (F1 & T1 & R1)
    by (subst s1; split; [fol|split; reflexivity]).
  clearbody s1.
  name_let s2.
  assert (follows s s2 /\ trace s2 = trace s /\ replies s2 = replies s) as (F2 & T2 & R2)
    by (subst s2; split; [fol|destruct oc; auto]).
  clearbody s2. clear s1 F1 T1 R1.
  name_let s3.
  assert (follows s s3 /\ trace s3 = trace s /\ replies s3 = replies s) as (F3 & T3 & R3).
  { subst s3. split; [fol|].
    destruct (_ || _); [|auto]. cbv zeta. destruct (decide _); auto. }
  clearbody s3. clear s2 F2 T2 R2.
  name_let s4.
  assert (follows s s4 /\ trace s4 = trace s /\ replies s4 = replies s) as (F4 & T4 & R4)
    by (subst s4; split; [fol|destruct (decide _); auto]).
  clearbody s4. clear s3 F3 T3 R3.
  name_let s5.
  assert (follows s s5 /\ trace s5 = trace s /\ replies s5 = replies s) as (F5 & T5 & R5).
  { subst s5. split; [fol|].
    destruct (negb _); [|auto]. destruct (chooseEOL _); auto. }
  clearbody s5. clear s4 F4 T4 R4.
  name_let s6.
  exists s6. split; [reflexivity|].
  pose proof (follows_hasCurrent _ _ F5 Hc) as Hc5.
  subst s6. split; [fol|].
  destruct (negb _).
  - rewrite CurrentBuffer_EditorSetSavePoint
      by (eapply sameWorld_hasCurrent; [apply world_SetUndoCollection|assumption]).
    split; [reflexivity|]. split; [|assumption].
    simpl. now rewrite T5.
  - rewrite CurrentBuffer_EditorSetSavePoint by assumption.
    split; [reflexivity|]. split; [|assumption].
    simpl. now rewrite T5.
Qed.

(** After [CompleteOpen] the editor shows the same text, at its save
    point, and the buffer is in the steady state without a loader. *)
Lemma CompleteOpen_current oc s :
  hasCurrent s ->
  let b := CurrentBuffer s in
  let b' := CurrentBuffer (CompleteOpen oc s) in
  hasCurrent (CompleteOpen oc s)
  /\ sameWorld s (CompleteOpen oc s)
  /\ text (Buffer.doc b') = text (Buffer.doc b)
  /\ options (Buffer.doc b') = options (Buffer.doc b)
  /\ Buffer.isDirty b' = false
  /\ Buffer.lifeState b' = LifeState.opened
  /\ Buffer.file b' = Buffer.file b
  /\ Buffer.unicodeMode b' = Buffer.unicodeMode b
  /\ Buffer.isReadOnly b' = Buffer.isReadOnly b
  /\ Buffer.loading b' = false
  /\ Buffer.storing b' = Buffer.storing b
  /\ (Buffer.pFileWorker b = None -> Buffer.pFileWorker b' = None)
  /\ trace (CompleteOpen oc s) = trace s ++ [SetSavePoint].
Proof.
  intros Hc. cbv zeta.
  destruct (CompleteOpen_steps oc s Hc) as (s5 & -> & F & Hd & Ht & _).
  destruct (follows_current _ _ F Hc) as (Hc5 & Hk).
  destruct F as [Hw _].
  rewrite CurrentBuffer_updCurrent by assumption.
  unfold keepsContent in Hk.
  destruct Hk as (K1 & K2 & K3 & K4 & K5 & K6 & K7 & K8 & K9).
  split; [now apply hasCurrent_updCurrent|].
  split; [eapply sameWorld_trans; [exact Hw|apply world_updCurrent]|].
  unfold Buffer.CompleteLoading, Buffer.loading, Buffer.storing. simpl. rewrite K9.
  destruct (Buffer.pFileWorker (CurrentBuffer s)) as [w|]; simpl;
    [destruct (FileWorker.IsLoading w) eqn:E; simpl; rewrite ?K9, ?E|];
    simpl; repeat split; auto; try congruence.
  all: now rewrite K9.
Qed.

End CompleteOpen.

(** ** OpenCurrentFile *)

Section OpenCurrentFile.
Context `{Platform}.

(** The state in which the load proper starts. *)
Lemma OpenCurrentFile_guards n s :
  (0 <= n)%Z -> (n + 1000 < PTRDIFF_MAX)%Z ->
  Buffer.pFileWorker (CurrentBuffer s) = None ->
  ((PTRDIFF_MAX <=? n + 1000)%Z || (n <? 0)%Z) = false
  /\ bool_decide (is_Some (Buffer.pFileWorker (CurrentBuffer s))) = false.
Proof.
  intros Hn Hp Hw. split.
  - apply orb_false_iff. split; [apply Z.leb_gt|apply Z.ltb_ge]; lia.
  - apply bool_decide_eq_false. rewrite Hw. now intros [? ?].
Qed.

Lemma OpenCurrentFile_async n q s fp :
  (0 <= n)%Z -> (n + 1000 < PTRDIFF_MAX)%Z ->
  Buffer.pFileWorker (CurrentBuffer s) = None ->
  files (disk s) !! filePath s = Some fp ->
  loaderFails s = false -> threadsStart s = true ->
  OpenCurrentFile n q true s =
  emit (PerformOnNewThread (nextWorker s))
    (set_threads (nextWorker s :: threads s)
       (set_nextWorker (S (nextWorker s))
          (updCurrent (Buffer.set_pFileWorker (Some (theLoader s)))
             (SetReadOnly true
                (ClearAll
                   (updCurrent (Buffer.set_lifeState LifeState.reading)
                      (SetTimeFromFile s))))))).
Proof.
  intros Hn Hp Hw Hf Hl Ht.
  destruct (OpenCurrentFile_guards n s Hn Hp Hw) as [G1 G2].
  unfold OpenCurrentFile. rewrite G1, G2, Hf.
  change (loaderFails (SetReadOnly true ?x)) with (loaderFails s).
  rewrite Hl. unfold StartThread.
  change (threadsStart (set_nextWorker ?a ?x)) with (threadsStart s).
  rewrite Ht. reflexivity.
Qed.

Lemma OpenCurrentFile_sync n q s fp :
  (0 <= n)%Z -> (n + 1000 < PTRDIFF_MAX)%Z ->
  Buffer.pFileWorker (CurrentBuffer s) = None ->
  files (disk s) !! filePath s = Some fp ->
  OpenCurrentFile n q false s =
  CompleteOpen synchronous
    (updCurrent (Buffer.set_unicodeMode (loadText (freadBlocks blockSize fp)).2)
       (AddText (loadText (freadBlocks blockSize fp)).1
          (ClearAll
             (updCurrent (Buffer.set_lifeState LifeState.reading)
                (SetTimeFromFile s))))).
Proof.
  intros Hn Hp Hw Hf.
  destruct (OpenCurrentFile_guards n s Hn Hp Hw) as [G1 G2].
  unfold OpenCurrentFile. rewrite G1, G2, Hf.
  now destruct (loadText _).
Qed.

(** A buffer that has a worker is left as it is, whatever is asked. *)
Lemma OpenCurrentFile_busy n q a s :
  is_Some (Buffer.pFileWorker (CurrentBuffer s)) ->
  OpenCurrentFile n q a s = couldNotOpen q s.
Proof.
  intros Hw. unfold OpenCurrentFile.
  destruct (_ || _); [reflexivity|].
  now rewrite bool_decide_eq_true_2.
Qed.

End OpenCurrentFile.

(** ** Open: synchronous or in the background *)

Section OpenDecision.
Context `{Platform}.

Lemma flagSet_lor of_ a b :
  flagSet of_ (Z.lor a b) = flagSet of_ a || flagSet of_ b.
Proof.
  unfold flagSet. rewrite Z.land_lor_distr_r.
  destruct (Z.land of_ a =? 0)%Z eqn:Ea, (Z.land of_ b =? 0)%Z eqn:Eb; simpl.
  - apply Z.eqb_eq in Ea, Eb. rewrite Ea, Eb. reflexivity.
  - apply Z.eqb_eq in Ea. apply Z.eqb_neq in Eb. rewrite Ea. simpl.
    apply negb_true_iff, Z.eqb_neq. exact Eb.
  - apply Z.eqb_neq in Ea. apply negb_true_iff, Z.eqb_neq.
    intros E. apply Z.lor_eq_0_iff in E. tauto.
  - apply Z.eqb_neq in Ea. apply negb_true_iff, Z.eqb_neq.
    intros E. apply Z.lor_eq_0_iff in E. tauto.
Qed.

(** The decision of the source is the decision in the words of the
    specification. *)
Lemma opensInBackground_eq s fileSize of_ :
  ((GetInt s "background.open.size" (-1) <? fileSize)%Z
   && negb (flagSet of_ (Z.lor ofPreserveUndo ofSynchronous)))
  = opensInBackground s fileSize of_.
Proof.
  unfold opensInBackground. rewrite flagSet_lor.
  destruct (_ <? _)%Z, (flagSet of_ ofPreserveUndo), (flagSet of_ ofSynchronous);
    reflexivity.
Qed.

Lemma afterLoad_current y :
  hasCurrent y ->
  let b := CurrentBuffer y in
  let b' := CurrentBuffer (afterLoad y) in
  hasCurrent (afterLoad y)
  /\ sameWorld y (afterLoad y)
  /\ text (Buffer.doc b') = text (Buffer.doc b)
  /\ Buffer.isDirty b' = Buffer.isDirty b
  /\ Buffer.lifeState b' = Buffer.lifeState b
  /\ Buffer.pFileWorker b' = Buffer.pFileWorker b.
Proof.
  intros Hc. cbv zeta. unfold afterLoad.
  assert (hasCurrent (updCurrent
            (Buffer.set_isReadOnly (negb (GetInt y "read.only" 0 =? 0)%Z)) y)) as Hc1
    by now apply hasCurrent_updCurrent.
  split; [eapply sameWorld_hasCurrent; [apply world_SetReadOnly|exact Hc1]|].
  split; [eapply sameWorld_trans; [apply world_updCurrent|apply world_SetReadOnly]|].
  rewrite CurrentBuffer_SetReadOnly by exact Hc1.
  unfold wEditor. rewrite !CurrentBuffer_updCurrent by exact Hc.
  simpl. tauto.
Qed.

Lemma readyFor_SetReadOnly s file v x :
  readyFor s file x -> readyFor s file (SetReadOnly v x).
Proof.
  intros (Hw & Hc & Hn & Hp). split; [|split; [|split]].
  - eapply sameWorld_trans; [exact Hw|apply world_SetReadOnly].
  - eapply sameWorld_hasCurrent; [apply world_SetReadOnly|exact Hc].
  - now rewrite CurrentBuffer_SetReadOnly.
  - exact Hp.
Qed.

Lemma readyFor_SetUndoCollection s file v x :
  readyFor s file x -> readyFor s file (SetUndoCollection v x).
Proof.
  intros (Hw & Hc & Hn & Hp). split; [|split; [|split]].
  - eapply sameWorld_trans; [exact Hw|apply world_SetUndoCollection].
  - eapply sameWorld_hasCurrent; [apply world_SetUndoCollection|exact Hc].
  - now rewrite CurrentBuffer_SetUndoCollection.
  - exact Hp.
Qed.

Lemma readyFor_SwitchDocumentAt s file d x :
  readyFor s file x -> readyFor s file (SwitchDocumentAt (current x) d x).
Proof.
  intros (Hw & Hc & Hn & Hp). split; [|split; [|split]].
  - eapply sameWorld_trans; [exact Hw|apply world_SwitchDocumentAt].
  - eapply sameWorld_hasCurrent; [apply world_SwitchDocumentAt|exact Hc].
  - now rewrite CurrentBuffer_SwitchDocumentAt.
  - exact Hp.
Qed.

Lemma readyFor_start s file :
  hasCurrent s ->
  Buffer.pFileWorker (CurrentBuffer s) = None ->
  String.get 0 file <> Some (Ascii.ascii_of_byte x22) ->
  readyFor s file
    (ReadProperties (updCurrent (Buffer.set_overrideExtension EmptyString)
                       (SetFileName file s))).
Proof.
  intros Hc Hw Hq.
  destruct (CurrentBuffer_SetFileName file s Hc Hq) as [Hb Hp].
  assert (hasCurrent (SetFileName file s)) as Hc0
    by (eapply sameWorld_hasCurrent; [apply world_SetFileName|exact Hc]).
  split; [|split; [|split]].
  - eapply sameWorld_trans; [apply world_SetFileName|].
    eapply sameWorld_trans; [apply world_updCurrent|apply world_ReadProperties].
  - now apply hasCurrent_updCurrent.
  - rewrite CurrentBuffer_ReadProperties, CurrentBuffer_updCurrent, Hb by exact Hc0.
    exact Hw.
  - exact Hp.
Qed.

(** The load in the background, from a state that is ready for it. *)
Lemma load_in_background s file x fp n q :
  readyFor s file x ->
  files (disk s) !! file = Some fp ->
  (0 <= n)%Z -> (n + 1000 < PTRDIFF_MAX)%Z ->
  loaderFails s = false -> threadsStart s = true ->
  let y := afterLoad (OpenCurrentFile n q true x) in
  loadsInBackground y
  /\ Buffer.lifeState (CurrentBuffer y) = LifeState.reading
  /\ threads y = nextWorker s :: threads s
  /\ extender y = extender s.
Proof.
  intros (Hw & Hc & Hn & Hp) Hf Hn0 Hn1 Hl Ht. cbv zeta.
  pose proof Hw as (_ & _ & _ & _ & _ & Hext & _ & _ & _ & Hd & Hts & Hlf & Hth & Hnw).
  rewrite (OpenCurrentFile_async n q x fp)
    by (rewrite ?Hp, ?Hd, ?Hlf, ?Hts; assumption).
  set (x1 := SetReadOnly true (ClearAll (updCurrent (Buffer.set_lifeState LifeState.reading)
                                           (SetTimeFromFile x)))).
  assert (hasCurrent x1) as Hc1.
  { subst x1. eapply sameWorld_hasCurrent; [apply world_SetReadOnly|].
    eapply sameWorld_hasCurrent; [apply world_ClearAll|].
    apply hasCurrent_updCurrent.
    eapply sameWorld_hasCurrent; [apply world_SetTimeFromFile|exact Hc]. }
  assert (Buffer.lifeState (CurrentBuffer x1) = LifeState.reading) as Hls.
  { subst x1. rewrite CurrentBuffer_SetReadOnly.
    - unfold ClearAll. rewrite CurrentBuffer_setText.
      + rewrite CurrentBuffer_updCurrent; [reflexivity|].
        eapply sameWorld_hasCurrent; [apply world_SetTimeFromFile|exact Hc].
      + apply hasCurrent_updCurrent.
        eapply sameWorld_hasCurrent; [apply world_SetTimeFromFile|exact Hc].
    - eapply sameWorld_hasCurrent; [apply world_ClearAll|].
      apply hasCurrent_updCurrent.
      eapply sameWorld_hasCurrent; [apply world_SetTimeFromFile|exact Hc]. }
  assert (extender x1 = extender x) as Hex1 by reflexivity.
  clearbody x1.
  set (y := emit _ _).
  assert (hasCurrent y) as Hcy by (subst y; now apply hasCurrent_updCurrent).
  assert (CurrentBuffer y = Buffer.set_pFileWorker (Some (theLoader x)) (CurrentBuffer x1))
    as Hby by (subst y; now apply CurrentBuffer_updCurrent).
  assert (threads y = nextWorker s :: threads s) as Hty
    by (subst y; simpl; now rewrite Hth, Hnw).
  assert (extender y = extender x1) as Hey by reflexivity.
  clearbody y.
  destruct (afterLoad_current y Hcy) as (_ & Hwy & _ & _ & L & W).
  cbv zeta in L, W.
  pose proof Hwy as (_ & _ & _ & _ & _ & Hext' & _ & _ & _ & _ & _ & _ & Hth' & _).
  split; [|split; [|split]].
  - exists (theLoader x). split; [now rewrite W, Hby|]. split; [reflexivity|].
    rewrite Hth', Hty. change (FileWorker.id (theLoader x)) with (nextWorker x).
    rewrite Hnw. constructor.
  - now rewrite L, Hby.
  - now rewrite Hth'.
  - now rewrite Hext', Hey, Hex1.
Qed.

(** The load in the same call, from a state that is ready for it. *)
Lemma load_in_same_call s file x fp n q :
  readyFor s file x ->
  files (disk s) !! file = Some fp ->
  (0 <= n)%Z -> (n + 1000 < PTRDIFF_MAX)%Z ->
  let y := afterLoad (OpenCurrentFile n q false x) in
  threads y = threads s
  /\ Buffer.pFileWorker (CurrentBuffer y) = None
  /\ text (wEditor y) = (loadText (freadBlocks blockSize fp)).1
  /\ Buffer.isDirty (CurrentBuffer y) = false
  /\ Buffer.lifeState (CurrentBuffer y) = LifeState.opened
  /\ extender y = extender s.
Proof.
  intros (Hw & Hc & Hn & Hp) Hf Hn0 Hn1. cbv zeta.
  pose proof Hw as (_ & _ & _ & _ & _ & Hext & _ & _ & _ & Hd & Hts & Hlf & Hth & Hnw).
  rewrite (OpenCurrentFile_sync n q x fp) by (rewrite ?Hp, ?Hd; assumption).
  set (loaded := (loadText (freadBlocks blockSize fp)).1).
  set (encoding := (loadText (freadBlocks blockSize fp)).2).
  set (x0 := updCurrent (Buffer.set_lifeState LifeState.reading) (SetTimeFromFile x)).
  assert (hasCurrent x0) as Hc0.
  { subst x0. apply hasCurrent_updCurrent.
    eapply sameWorld_hasCurrent; [apply world_SetTimeFromFile|exact Hc]. }
  assert (sameWorld x x0) as Hw0.
  { subst x0. eapply sameWorld_trans; [apply world_SetTimeFromFile|apply world_updCurrent]. }
  assert (Buffer.pFileWorker (CurrentBuffer x0) = None) as Hn0'.
  { subst x0. rewrite CurrentBuffer_updCurrent, CurrentBuffer_SetTimeFromFile; [exact Hn|exact Hc|].
    eapply sameWorld_hasCurrent; [apply world_SetTimeFromFile|exact Hc]. }
  clearbody x0.
  set (x1 := updCurrent _ (AddText loaded (ClearAll x0))).
  assert (hasCurrent (ClearAll x0)) as Hca
    by (eapply sameWorld_hasCurrent; [apply world_ClearAll|exact Hc0]).
  assert (hasCurrent (AddText loaded (ClearAll x0))) as Hcb
    by (eapply sameWorld_hasCurrent; [apply world_AddText|exact Hca]).
  assert (hasCurrent x1) as Hc1 by (subst x1; now apply hasCurrent_updCurrent).
  assert (sameWorld x0 x1) as Hw1.
  { subst x1. eapply sameWorld_trans; [apply world_ClearAll|].
    eapply sameWorld_trans; [apply world_AddText|apply world_updCurrent]. }
  assert (text (Buffer.doc (CurrentBuffer x1)) = loaded
          /\ Buffer.pFileWorker (CurrentBuffer x1) = None) as [Htx Hn1'].
  { subst x1. rewrite CurrentBuffer_updCurrent by exact Hcb.
    unfold AddText. rewrite CurrentBuffer_setText by exact Hca.
    unfold wEditor at 1, ClearAll.
    rewrite !CurrentBuffer_setText by exact Hc0. simpl. auto. }
  clearbody x1.
  destruct (CompleteOpen_current synchronous x1 Hc1)
    as (Hc2 & Hw2 & T2 & _ & D2 & L2 & _ & _ & _ & _ & _ & W2 & _).
  cbv zeta in *.
  destruct (afterLoad_current _ Hc2) as (_ & Hw3 & T3 & D3 & L3 & W3).
  cbv zeta in *.
  assert (sameWorld s (afterLoad (CompleteOpen synchronous x1))) as Hall
    by eauto using sameWorld_trans.
  pose proof Hall as (_ & _ & _ & _ & _ & Hext' & _ & _ & _ & _ & _ & _ & Hth' & _).
  unfold wEditor. rewrite T3, D3, L3, W3, T2.
  repeat split; auto.
Qed.


End OpenDecision.


(** ** The synchronous save *)

Import Utf8_16.

Section SaveLoop.
Context `{Platform}.

Lemma putAll_app w a b :
  Writer.putAll w (a ++ b) =
  let '(w1, out1) := Writer.putAll w a in
  let '(w2, out2) := Writer.putAll w1 b in
  (w2, out1 ++ out2).
Proof.
  revert w. induction a as [|x a IH]; intros w; simpl.
  - now destruct (Writer.putAll w b).
  - destruct (Writer.put w x) as [w1 o1]. rewrite IH.
    destruct (Writer.putAll w1 a) as [w2 o2].
    destruct (Writer.putAll w2 b) as [w3 o3].
    now rewrite app_assoc.
Qed.

Lemma put_mode w b : Writer.mode (Writer.put w b).1 = Writer.mode w.
Proof.
  unfold Writer.put. destruct (Writer.mode w) eqn:E; simpl; auto;
    destruct (decide _); simpl; auto.
Qed.

Lemma putAll_mode w l : Writer.mode (Writer.putAll w l).1 = Writer.mode w.
Proof.
  revert w. induction l as [|x l IH]; intros w; simpl; [reflexivity|].
  pose proof (put_mode w x) as Hp.
  destruct (Writer.put w x) as [w1 o1]. specialize (IH w1).
  destruct (Writer.putAll w1 l) as [w2 o2]. simpl in *. congruence.
Qed.

Lemma put_firstWrite w fw b :
  Writer.put (Writer.mk (Writer.mode w) fw (Writer.pending w)) b =
  (Writer.mk (Writer.mode (Writer.put w b).1) fw (Writer.pending (Writer.put w b).1),
   (Writer.put w b).2).
Proof.
  unfold Writer.put. simpl.
  destruct (Writer.mode w) eqn:E; simpl; rewrite ?E; auto;
    destruct (decide _); simpl; auto.
Qed.

Lemma putAll_firstWrite l : forall w fw,
  Writer.putAll (Writer.mk (Writer.mode w) fw (Writer.pending w)) l =
  (Writer.mk (Writer.mode (Writer.putAll w l).1) fw (Writer.pending (Writer.putAll w l).1),
   (Writer.putAll w l).2).
Proof.
  induction l as [|x l IH]; intros w fw; simpl; [reflexivity|].
  rewrite put_firstWrite.
  destruct (Writer.put w x) as [w1 o1]. simpl. rewrite IH.
  now destruct (Writer.putAll w1 l) as [w2 o2].
Qed.

(** The writer is a streaming encoder: a text encoded block after block
    gives the bytes of the text encoded at once. *)
Lemma encode_app w a b :
  (Writer.encode w (a ++ b)).2 =
  (Writer.encode w a).2 ++ (Writer.encode (Writer.encode w a).1 b).2.
Proof.
  unfold Writer.encode. rewrite putAll_app.
  destruct (Writer.putAll w a) as [w1 o1]. simpl.
  rewrite (putAll_firstWrite b w1 false).
  destruct (Writer.putAll w1 b) as [w2 o2]. simpl.
  now rewrite app_assoc.
Qed.

Lemma encode_nil_later w :
  Writer.firstWrite w = false -> (Writer.encode w []).2 = [].
Proof. unfold Writer.encode. simpl. now intros ->. Qed.

Lemma encode_firstWrite w chunk : Writer.firstWrite (Writer.encode w chunk).1 = false.
Proof. unfold Writer.encode. now destruct (Writer.putAll w chunk). Qed.

Lemma grabSizeAt_bounds doc startBlock :
  wholeChars doc -> startBlock < length doc ->
  0 < grabSizeAt doc startBlock <= length doc - startBlock.
Proof.
  intros Hw Hlt. specialize (Hw startBlock Hlt). cbv zeta in Hw.
  unfold grabSizeAt.
  pose proof (Nat.le_min_l (length doc - startBlock) blockSize) as Hm.
  set (m := Nat.min _ _) in *. set (p := PositionBefore _ _) in *.
  clearbody m p. lia.
Qed.

(** The rest of the text is the block taken and what follows it. *)
Lemma restBytes_step doc convert startBlock :
  wholeChars doc -> startBlock < length doc ->
  let chunk := take (grabSizeAt doc startBlock) (drop startBlock doc) in
  restBytes convert doc startBlock =
  (Writer.encode convert chunk).2
  ++ restBytes (Writer.encode convert chunk).1 doc (startBlock + grabSizeAt doc startBlock).
Proof.
  intros Hw Hlt. cbv zeta.
  pose proof (grabSizeAt_bounds doc startBlock Hw Hlt) as Hg.
  unfold restBytes. rewrite decide_True by assumption.
  rewrite <- (take_drop (grabSizeAt doc startBlock) (drop startBlock doc)) at 1.
  rewrite encode_app, drop_drop.
  destruct (decide (startBlock + grabSizeAt doc startBlock < length doc)) as [|Hge];
    [reflexivity|].
  rewrite (drop_ge doc (startBlock + grabSizeAt doc startBlock)) by lia.
  now rewrite encode_nil_later by apply encode_firstWrite.
Qed.

(** The synchronous save succeeds exactly when the device has room for all
    the bytes that the rest of the text becomes; in any case the file
    receives those bytes as far as there is room. *)
Lemma saveBlocks_spec doc convert fp startBlock :
  wholeChars doc ->
  let total := restBytes convert doc startBlock in
  (saveBlocks doc convert fp startBlock).1.1 = bool_decide (length total <= room fp)
  /\ (saveBlocks doc convert fp startBlock).2 =
     mkFILE (written fp ++ take (room fp) total) (room fp - length total).
Proof.
  intros Hw. cbv zeta.
  funelim (saveBlocks doc convert fp startBlock).
  - (* the end of the text *)
    unfold restBytes. rewrite decide_False by assumption. simpl.
    rewrite take_nil, app_nil_r, Nat.sub_0_r. now destruct fp.
  - (* a short write *)
    clear Heqcall.
    rewrite (restBytes_step doc convert startBlock Hw l).
    match goal with E : @eq (sigma _) _ _ |- _ => clear E end.
    match goal with E : Writer.fwrite _ _ _ = _ |- _ => rename E into Hfw end.
    unfold Writer.fwrite in Hfw.
    destruct (Writer.encode convert _) as [w1 out] eqn:He.
    unfold fwriteBytes in Hfw. simpl in *.
    pose proof (grabSizeAt_bounds doc startBlock Hw l) as Hg.
    destruct (decide _) as [Hshort|]; simplify_eq.
    + rewrite length_app. split.
      * symmetry. apply bool_decide_eq_false. lia.
      * assert (Nat.min (length out) (room fp) = room fp) as -> by lia.
        rewrite take_app_le by lia.
        match goal with |- mkFILE ?a ?b = mkFILE ?a ?c =>
          replace b with c by lia; reflexivity end.
    + match goal with E : length _ = 0 |- _ =>
        rewrite length_take, length_drop in E; lia end.
  - (* a whole block, and on *)
    clear Heqcall.
    rewrite (restBytes_step doc convert startBlock Hw l).
    match goal with E : @eq (sigma _) _ _ |- _ => clear E end.
    match goal with E : Writer.fwrite _ _ _ = _ |- _ => rename E into Hfw end.
    unfold Writer.fwrite in Hfw.
    destruct (Writer.encode convert _) as [w1 out] eqn:He.
    unfold fwriteBytes in Hfw. simpl in *.
    destruct (decide _) as [|Hfit]; simplify_eq.
    match goal with IH : _ -> _ /\ _ |- _ => destruct (IH Hw) as [IH1 IH2] end.
    rewrite IH1, IH2. simpl.
    set (rest := restBytes _ doc _).
    rewrite length_app.
    assert (length out <= room fp) as Hle by lia.
    rewrite Nat.min_l by lia. rewrite (take_ge out) by lia.
    split.
    + apply bool_decide_ext. lia.
    + rewrite <- app_assoc, take_app_ge by lia.
      match goal with |- mkFILE ?a ?b = mkFILE ?a ?c =>
        replace b with c by lia; reflexivity end.
Qed.

End SaveLoop.

(** ** SaveBuffer, synchronously *)

Import Utf8_16.

Section SaveBuffer.
Context `{Platform}.

Lemma world_PrepareBufferForSave saveName s :
  sameWorld s (PrepareBufferForSave saveName s).2.
Proof.
  unfold PrepareBufferForSave. cbn [snd].
  repeat first
    [ apply sameWorld_refl
    | match goal with
      | |- sameWorld ?a (if ?c then _ else _) => destruct c
      | |- sameWorld ?a (setText _ ?x) =>
          apply (sameWorld_trans a x); [|apply world_setText]
      end ].
Qed.

(** The synchronous save of a buffer that the extension does not take
    over, to a path that can be written: the file receives the bytes that
    the text becomes as far as the device has room, and the save succeeds
    exactly when all of them fit and the file can be closed. *)
Lemma SaveBuffer_synchronous s saveName sf :
  (PrepareBufferForSave saveName s).1 = false ->
  saveName ∉ locked (disk s) ->
  flagSet sf sfSynchronous = true ->
  let s1 := (PrepareBufferForSave saveName s).2 in
  let doc := text (wEditor s1) in
  let fileBytes := savedBytes (Buffer.unicodeMode (CurrentBuffer s1)) doc in
  wholeChars doc ->
  (SaveBuffer saveName sf s).1 =
    bool_decide (length fileBytes <= free (disk s)) && closeOk (disk s)
  /\ files (disk (SaveBuffer saveName sf s).2) !! saveName
     = Some (take (free (disk s)) fileBytes)
  /\ free (disk (SaveBuffer saveName sf s).2) = free (disk s) - length fileBytes
  /\ buffers (SaveBuffer saveName sf s).2 = buffers s1
  /\ threads (SaveBuffer saveName sf s).2 = threads s
  /\ trace (SaveBuffer saveName sf s).2 =
       trace s1 ++ (if (SaveBuffer saveName sf s).1 && extender s
                    then [OnSave saveName] else []).
Proof.
  intros Hprep Hlock Hsync. cbv zeta. intros Hwhole.
  pose proof (world_PrepareBufferForSave saveName s) as Hw.
  unfold SaveBuffer.
  destruct (PrepareBufferForSave saveName s) as [r s1]. simpl in *. subst r.
  destruct Hw as (_ & _ & _ & _ & _ & Hext & _ & _ & _ & Hd & _ & _ & Hth & _).
  unfold OpenForWrite. rewrite Hd.
  rewrite bool_decide_eq_false_2 by assumption.
  cbn [negb]. rewrite Hsync. cbn [negb].
  change (text (wEditor (set_disk ?d s1))) with (text (wEditor s1)).
  change (CurrentBuffer (set_disk ?d s1)) with (CurrentBuffer s1).
  pose proof (saveBlocks_spec (text (wEditor s1))
                (Writer.Allocate (Buffer.unicodeMode (CurrentBuffer s1)) blockSize)
                (mkFILE [] (free (disk s))) 0 Hwhole) as [Hok Hfile].
  cbv zeta in Hok, Hfile.
  destruct (saveBlocks _ _ _ 0) as [[ok w] fp]. simpl in Hok, Hfile. subst ok fp.
  unfold fclose. simpl.
  change (restBytes (Writer.Allocate ?m blockSize) ?d 0) with (savedBytes m d).
  set (fileBytes := savedBytes _ _).
  rewrite Hext, andb_true_r.
  destruct (bool_decide (length fileBytes <= free (disk s)) && closeOk (disk s));
    [destruct (extender s)|]; simpl; rewrite lookup_insert_eq, ?app_nil_r; auto 10.
Qed.


End SaveBuffer.

Lemma Sample_wholeChars doc : @wholeChars Sample.platform doc.
Proof.
  intros startBlock Hlt. simpl.
  pose proof (Nat.le_min_l (length doc - startBlock) 4).
  assert (0 < Nat.min (length doc - startBlock) 4) by (apply Nat.min_glb_lt; lia).
  lia.
Qed.


(** ** Writing a text and reading it back *)

Import Utf8_16.

Example saved_utf16 :
  savedBytes uni16LE [x41; xe2; x82; xac] = [xff; xfe; x41; x00; xac; x20].
Proof. reflexivity. Qed.

Example saved_loaded_utf16 :
  decoded (savedBytes uni16BE [xf0; x9f; x98; x80; x41]) = [xf0; x9f; x98; x80; x41].
Proof. reflexivity. Qed.

Lemma allFrom_spec f n : forall start k,
  allFrom f n start = true ->
  (start <= k)%N -> (k < start + N.of_nat n)%N -> f k = true.
Proof.
  induction n as [|n IH]; intros start k Hall Hlo Hhi; [lia|].
  simpl in Hall. apply andb_true_iff in Hall as [Hs Hrest].
  destruct (decide (k = start)) as [->|Hne]; [exact Hs|].
  apply (IH (N.succ start)); [exact Hrest|lia|lia].
Qed.

Lemma scalarOk_checked : allFrom scalarOk (N.to_nat 0x110000) 0 = true.
Proof. vm_compute. reflexivity. Qed.

Lemma unitOk_checked : allFrom unitOk (N.to_nat 0x10000) 0 = true.
Proof. vm_compute. reflexivity. Qed.

Lemma scalarOk_all cp : isScalar cp = true -> scalarOk cp = true.
Proof.
  intros Hs. apply (allFrom_spec scalarOk (N.to_nat 0x110000) 0 cp scalarOk_checked).
  - lia.
  - unfold isScalar in Hs. apply andb_true_iff in Hs as [_ Hlt].
    apply N.ltb_lt in Hlt. rewrite N2Nat.id. lia.
Qed.

Lemma unitOk_all u : (u < 0x10000)%N -> unitOk u = true.
Proof.
  intros Hlt. apply (allFrom_spec unitOk (N.to_nat 0x10000) 0 u unitOk_checked).
  - lia.
  - rewrite N2Nat.id. lia.
Qed.

(** *** The writer on well-formed UTF-8 *)

Lemma put_sequence m fw l rest :
  is16 m -> l <> [] -> Writer.seqLen (hd x00 l) = length l ->
  Writer.putAll (Writer.mk m fw []) (l ++ rest) =
  ((Writer.putAll (Writer.mk m fw []) rest).1,
   mjoin (Writer.unitBytes m <$> Writer.units (Writer.codePoint l))
   ++ (Writer.putAll (Writer.mk m fw []) rest).2).
Proof.
  intros Hm Hne Hlen.
  assert (Writer.seqLen (hd x00 l) <= 4) as Hle4.
  { unfold Writer.seqLen. repeat destruct (_ <? _)%N; lia. }
  destruct l as [|a [|b [|c [|d [|e l]]]]]; simpl in Hlen, Hle4; try congruence; try lia;
    destruct Hm as [-> | ->]; simpl; unfold Writer.put; simpl;
    repeat (progress (rewrite ?Hlen; simpl));
    destruct (Writer.putAll _ rest) as [w o]; simpl; rewrite ?app_nil_r; reflexivity.
Qed.

Lemma scalar_facts cp :
  isScalar cp = true ->
  utf8Bytes cp <> []
  /\ Writer.seqLen (hd x00 (utf8Bytes cp)) = length (utf8Bytes cp)
  /\ Writer.codePoint (utf8Bytes cp) = cp
  /\ ((Writer.units cp = [cp] /\ (cp < 0x10000)%N
       /\ isLead cp = false /\ isTrail cp = false)
      \/ (exists hi lo, Writer.units cp = [hi; lo]
            /\ isLead hi = true /\ isTrail lo = true
            /\ (hi < 0x10000)%N /\ (lo < 0x10000)%N
            /\ Reader.pair16 hi lo = cp)).
Proof.
  intros Hs. pose proof (scalarOk_all cp Hs) as Hok.
  unfold scalarOk in Hok. rewrite Hs in Hok. simpl in Hok.
  apply andb_true_iff in Hok as [Hok Hu].
  apply andb_true_iff in Hok as [Hlen Hcp].
  apply bool_decide_eq_true in Hlen. apply N.eqb_eq in Hcp.
  split; [unfold utf8Bytes; repeat destruct (_ <? _)%N; discriminate|].
  split; [exact Hlen|]. split; [exact Hcp|].
  destruct (Writer.units cp) as [|u [|lo [|? ?]]]; try discriminate.
  - left.
    repeat match goal with
           | Hx : _ && _ = true |- _ => apply andb_true_iff in Hx as [? ?]
           end.
    repeat match goal with
           | Hx : negb _ = true |- _ => apply negb_true_iff in Hx
           | Hx : (_ =? _)%N = true |- _ => apply N.eqb_eq in Hx
           | Hx : (_ <? _)%N = true |- _ => apply N.ltb_lt in Hx
           end.
    subst. auto.
  - right. exists u, lo.
    repeat match goal with
           | Hx : _ && _ = true |- _ => apply andb_true_iff in Hx as [? ?]
           end.
    repeat match goal with
           | Hx : (_ =? _)%N = true |- _ => apply N.eqb_eq in Hx
           | Hx : (_ <? _)%N = true |- _ => apply N.ltb_lt in Hx
           end.
    auto 10.
Qed.

(** The writer turns well-formed UTF-8 into the UTF-16 form of the same
    code points and keeps nothing back. *)
Lemma putAll_utf8Text m fw cps :
  is16 m -> Forall (fun cp => isScalar cp = true) cps ->
  Writer.putAll (Writer.mk m fw []) (utf8Text cps) = (Writer.mk m fw [], utf16Bytes m cps).
Proof.
  intros Hm Hall. induction Hall as [|cp cps Hs _ IH]; [reflexivity|].
  destruct (scalar_facts cp Hs) as (Hne & Hlen & Hcp & _).
  change (utf8Text (cp :: cps)) with (utf8Bytes cp ++ utf8Text cps).
  rewrite (put_sequence m fw (utf8Bytes cp) _ Hm Hne Hlen), IH, Hcp. reflexivity.
Qed.

(** *** The reader on UTF-16 *)

#[local] Arguments Reader.unit16 : simpl never.
#[local] Arguments Reader.pair16 : simpl never.
#[local] Arguments isLead : simpl never.
#[local] Arguments isTrail : simpl never.
#[local] Arguments utf8Bytes : simpl never.

Lemma unit_bytes m u :
  is16 m -> (u < 0x10000)%N ->
  exists b0 b1, Writer.unitBytes m u = [b0; b1] /\ Reader.unit16 m b0 b1 = u.
Proof.
  intros Hm Hlt. pose proof (unitOk_all u Hlt) as Hok. unfold unitOk in Hok.
  destruct Hm as [-> | ->]; simpl in *;
    apply andb_true_iff in Hok as [H1 H2];
    apply N.eqb_eq in H1, H2; eauto.
Qed.

Lemma feed_unit m u rest :
  is16 m -> (u < 0x10000)%N -> isLead u = false -> isTrail u = false ->
  Reader.feedAll (Reader.mk m true false []) (Writer.unitBytes m u ++ rest) =
  ((Reader.feedAll (Reader.mk m true false []) rest).1,
   utf8Bytes u ++ (Reader.feedAll (Reader.mk m true false []) rest).2).
Proof.
  intros Hm Hlt Hl Ht.
  destruct (unit_bytes m u Hm Hlt) as (b0 & b1 & -> & Hu).
  destruct Hm as [-> | ->]; simpl; unfold Reader.feed, Reader.feed16; simpl;
    rewrite Hu, Hl, Ht; destruct (Reader.feedAll _ rest); reflexivity.
Qed.

Lemma feed_pair m hi lo rest :
  is16 m -> (hi < 0x10000)%N -> (lo < 0x10000)%N ->
  isLead hi = true -> isTrail lo = true ->
  Reader.feedAll (Reader.mk m true false [])
    (Writer.unitBytes m hi ++ Writer.unitBytes m lo ++ rest) =
  ((Reader.feedAll (Reader.mk m true false []) rest).1,
   utf8Bytes (Reader.pair16 hi lo)
   ++ (Reader.feedAll (Reader.mk m true false []) rest).2).
Proof.
  intros Hm Hhi Hlo Hl Ht.
  destruct (unit_bytes m hi Hm Hhi) as (b0 & b1 & -> & Hu).
  destruct (unit_bytes m lo Hm Hlo) as (c0 & c1 & -> & Hv).
  destruct Hm as [-> | ->]; simpl; unfold Reader.feed, Reader.feed16; simpl;
    rewrite ?Hu, ?Hl; simpl; rewrite ?Hu, ?Hv, ?Ht;
    destruct (Reader.feedAll _ rest); reflexivity.
Qed.

(** The reader turns the UTF-16 form of code points into their UTF-8 form
    and keeps nothing back. *)
Lemma feedAll_utf16Bytes m cps :
  is16 m -> Forall (fun cp => isScalar cp = true) cps ->
  Reader.feedAll (Reader.mk m true false []) (utf16Bytes m cps)
  = (Reader.mk m true false [], utf8Text cps).
Proof.
  intros Hm Hall. induction Hall as [|cp cps Hs _ IH]; [reflexivity|].
  destruct (scalar_facts cp Hs) as (_ & _ & _ & Hunits).
  change (utf8Text (cp :: cps)) with (utf8Bytes cp ++ utf8Text cps).
  change (utf16Bytes m (cp :: cps))
    with (mjoin (Writer.unitBytes m <$> Writer.units cp) ++ utf16Bytes m cps).
  destruct Hunits as [(-> & Hlt & Hl & Ht) | (hi & lo & -> & Hl & Ht & Hhi & Hlo & Hp)].
  - change (mjoin (Writer.unitBytes m <$> [cp])) with (Writer.unitBytes m cp ++ []).
    rewrite app_nil_r, (feed_unit m cp _ Hm Hlt Hl Ht), IH. reflexivity.
  - change (mjoin (Writer.unitBytes m <$> [hi; lo]))
      with (Writer.unitBytes m hi ++ Writer.unitBytes m lo ++ []).
    rewrite app_nil_r, <- app_assoc.
    rewrite (feed_pair m hi lo _ Hm Hhi Hlo Hl Ht), IH, Hp. reflexivity.
Qed.

(** *** Modes that keep the bytes *)

Lemma putAll_plain w l :
  ~ is16 (Writer.mode w) -> Writer.putAll w l = (w, l).
Proof.
  intros Hm. induction l as [|b l IH]; simpl; [reflexivity|].
  unfold Writer.put. unfold is16 in Hm.
  destruct (Writer.mode w) eqn:E; try tauto; now rewrite IH.
Qed.

Lemma feedAll_plain r l :
  Reader.atStart r = false -> ~ is16 (Reader.mode r) ->
  Reader.feedAll r l = (r, l).
Proof.
  intros Hs Hm. induction l as [|b l IH]; simpl; [reflexivity|].
  unfold Reader.feed. rewrite Hs. unfold is16 in Hm.
  destruct (Reader.mode r) eqn:E; try tauto; now rewrite IH.
Qed.

Lemma starts_with_app sv pre rest : starts_with ((pre ++ rest) ++ sv) pre = true.
Proof.
  unfold starts_with. apply bool_decide_eq_true.
  rewrite <- app_assoc. now rewrite take_app_length.
Qed.

(** At the start of a stream that does not begin with a byte-order mark,
    the reader gives back what it kept and what it is fed. *)
Lemma feedAll_start l : forall p,
  startsWithBom (p ++ l) = false ->
  let '(r, out) := Reader.feedAll (Reader.mk uni8Bit false true p) l in
  out ++ (Reader.flush r).2 = p ++ l.
Proof.
  induction l as [|b l IH]; intros p Hbom.
  - simpl. unfold Reader.flush. simpl. rewrite app_nil_r.
    now destruct p.
  - simpl. unfold Reader.feed. simpl.
    destruct (decide (p ++ [b] = UTF16BEBOM)) as [E|_].
    { exfalso. unfold startsWithBom in Hbom.
      replace (p ++ b :: l) with ((UTF16BEBOM ++ []) ++ l) in Hbom
        by (rewrite app_nil_r, <- E, <- app_assoc; reflexivity).
      rewrite (starts_with_app l UTF16BEBOM []) in Hbom.
      now rewrite orb_true_r in Hbom. }
    destruct (decide (p ++ [b] = UTF16LEBOM)) as [E|_].
    { exfalso. unfold startsWithBom in Hbom.
      replace (p ++ b :: l) with ((UTF16LEBOM ++ []) ++ l) in Hbom
        by (rewrite app_nil_r, <- E, <- app_assoc; reflexivity).
      rewrite (starts_with_app l UTF16LEBOM []) in Hbom.
      now rewrite !orb_true_r in Hbom. }
    destruct (decide (p ++ [b] = UTF8BOM)) as [E|_].
    { exfalso. unfold startsWithBom in Hbom.
      replace (p ++ b :: l) with ((UTF8BOM ++ []) ++ l) in Hbom
        by (rewrite app_nil_r, <- E, <- app_assoc; reflexivity).
      now rewrite (starts_with_app l UTF8BOM []) in Hbom. }
    destruct (Reader.bomPrefix (p ++ [b])).
    + specialize (IH (p ++ [b])). rewrite <- app_assoc in IH. specialize (IH Hbom).
      destruct (Reader.feedAll _ l) as [r out]. exact IH.
    + rewrite feedAll_plain by (simpl; unfold is16; first [reflexivity | intros [?|?]; discriminate]).
      unfold Reader.flush. simpl. now rewrite app_nil_r, <- app_assoc.
Qed.

Lemma decoded_plain t : startsWithBom t = false -> decoded t = t.
Proof.
  intros Hbom. unfold decoded, loadText.
  destruct t as [|b t]; [reflexivity|].
  pose proof (feedAll_start (b :: t) [] Hbom) as Hf.
  cbn [loadBlocks]. change (Reader.convert Reader.Allocate (b :: t))
    with (Reader.feedAll (Reader.mk uni8Bit false true []) (b :: t)).
  destruct (Reader.feedAll _ (b :: t)) as [r out].
  cbn [loadBlocks app]. change (Reader.convert r []) with (Reader.flush r).
  destruct (Reader.flush r) as [r' trail]. exact Hf.
Qed.

Lemma decoded_utf8 t : decoded (UTF8BOM ++ t) = t.
Proof.
  unfold decoded, loadText. cbn [loadBlocks app UTF8BOM].
  unfold Reader.convert. cbn [Reader.feedAll].
  change (Reader.feed Reader.Allocate xef) with (Reader.mk uni8Bit false true [xef], @nil byte).
  cbv iota beta.
  change (Reader.feed (Reader.mk uni8Bit false true [xef]) xbb)
    with (Reader.mk uni8Bit false true [xef; xbb], @nil byte).
  cbv iota beta.
  change (Reader.feed (Reader.mk uni8Bit false true [xef; xbb]) xbf)
    with (Reader.mk utf8 true false [], @nil byte).
  cbv iota beta.
  rewrite feedAll_plain by (simpl; unfold is16; first [reflexivity | intros [?|?]; discriminate]).
  cbn. now rewrite app_nil_r.
Qed.

Lemma decoded_utf16 m cps :
  is16 m -> Forall (fun cp => isScalar cp = true) cps ->
  decoded (bomOf m ++ utf16Bytes m cps) = utf8Text cps.
Proof.
  intros Hm Hall. pose proof (feedAll_utf16Bytes m cps Hm Hall) as Hf.
  unfold decoded, loadText.
  destruct Hm as [-> | ->]; cbn [bomOf UTF16BEBOM UTF16LEBOM loadBlocks app];
    unfold Reader.convert; cbn [Reader.feedAll].
  - change (Reader.feed Reader.Allocate xfe) with (Reader.mk uni8Bit false true [xfe], @nil byte).
    cbv iota beta.
    change (Reader.feed (Reader.mk uni8Bit false true [xfe]) xff)
      with (Reader.mk uni16BE true false [], @nil byte).
    cbv iota beta. rewrite Hf. cbn. now rewrite app_nil_r.
  - change (Reader.feed Reader.Allocate xff) with (Reader.mk uni8Bit false true [xff], @nil byte).
    cbv iota beta.
    change (Reader.feed (Reader.mk uni8Bit false true [xff]) xfe)
      with (Reader.mk uni16LE true false [], @nil byte).
    cbv iota beta. rewrite Hf. cbn. now rewrite app_nil_r.
Qed.

(** *** What a save writes *)

Lemma savedBytes_nil m : savedBytes m [] = [].
Proof. reflexivity. Qed.

Lemma savedBytes_cons m t :
  t <> [] ->
  savedBytes m t = bomOf m ++ (Writer.putAll (Writer.mk m true []) t).2.
Proof.
  intros Hne. unfold savedBytes, restBytes.
  rewrite decide_True by (destruct t; simpl; [congruence|lia]).
  unfold Writer.encode, Writer.Allocate. rewrite drop_0.
  now destruct (Writer.putAll _ t).
Qed.

Lemma savedBytes_plain m t : bomOf m = [] -> savedBytes m t = t.
Proof.
  intros Hb. destruct t as [|b t]; [reflexivity|].
  rewrite savedBytes_cons by discriminate. rewrite Hb.
  rewrite putAll_plain; [reflexivity|].
  simpl. intros [-> | ->]; discriminate.
Qed.

Lemma savedBytes_utf8 t : t <> [] -> savedBytes utf8 t = UTF8BOM ++ t.
Proof.
  intros Hne. rewrite savedBytes_cons by assumption.
  rewrite putAll_plain; [reflexivity|].
  simpl. intros [? | ?]; discriminate.
Qed.

Lemma savedBytes_utf16 m cps :
  is16 m -> Forall (fun cp => isScalar cp = true) cps -> utf8Text cps <> [] ->
  savedBytes m (utf8Text cps) = bomOf m ++ utf16Bytes m cps.
Proof.
  intros Hm Hall Hne. rewrite savedBytes_cons by assumption.
  now rewrite putAll_utf8Text.
Qed.




(** ** The end of a background save *)

Section TextWritten.
Context `{Platform}.

Lemma quietly_refl s : quietly s s.
Proof.
  repeat split. exists []. rewrite app_nil_r. split; [reflexivity|]. apply not_elem_of_nil.
Qed.

Lemma quietly_trans s1 s2 s3 : quietly s1 s2 -> quietly s2 s3 -> quietly s1 s3.
Proof.
  intros (B1 & C1 & L1 & W1 & H1 & e1 & T1 & N1) (B2 & C2 & L2 & W2 & H2 & e2 & T2 & N2).
  repeat split; try congruence.
  exists (e1 ++ e2). rewrite T2, T1, app_assoc. split; [reflexivity|].
  rewrite elem_of_app. tauto.
Qed.

Lemma quietly_emit e s : e <> SetSavePoint -> quietly s (emit e s).
Proof.
  intros He. repeat split. exists [e]. split; [reflexivity|].
  rewrite list_elem_of_singleton. congruence.
Qed.

Lemma quietly_ReloadProperties s : quietly s (ReloadProperties s).
Proof.
  repeat split. exists []. simpl. rewrite app_nil_r. split; [reflexivity|].
  apply not_elem_of_nil.
Qed.

Lemma quietly_Notify msg arg s : quietly s (Notify msg arg s).
Proof.
  unfold Notify, MessageBox.
  destruct (replies (emit _ s)) eqn:E; simpl;
    (repeat split; exists [WindowMessageBox msg arg]; split; [reflexivity|];
     rewrite list_elem_of_singleton; congruence).
Qed.

Lemma newEvents_quietly s s' : quietly s s' -> SetSavePoint ∉ newEvents s s'.
Proof.
  intros (_ & _ & _ & _ & _ & evs & T & N). unfold newEvents. now rewrite T, drop_app_length.
Qed.

(** What [TextWritten] does after it has dealt with the buffer sets no
    save point and touches no buffer. *)
Lemma TextWritten_steps w s :
  FileWorker.IsLoading w = false ->
  exists s1,
    quietly s1 (TextWritten w s)
    /\ s1 =
       (let iBuffer := GetDocumentByWorker s (Some w) in
        if (0 <=? iBuffer)%Z then
          let s := updBuffer iBuffer Buffer.CompleteStoring s in
          if negb (FileWorker.err w =? 0)%Z || FileWorker.Cancelling w then
            let s := SetVisible iBuffer true s in
            if (iBuffer =? current s)%Z
            then SetReadOnly (Buffer.isReadOnly (CurrentBuffer s)) s
            else s
          else
            let s := if negb (GetVisible s iBuffer) then RemoveInvisible iBuffer s else s in
            if (iBuffer =? current s)%Z then
              let s := SetReadOnly (Buffer.isReadOnly (CurrentBuffer s)) s in
              let s :=
                if SameNameAs (FileWorker.path w) (Buffer.file (CurrentBuffer s))
                then EditorSetSavePoint s else s in
              if extender s then emit (OnSave (Buffer.file (bufferAt s iBuffer))) s else s
            else updBuffer iBuffer Buffer.ScheduleFinishSave s
        else Notify "Could not find buffer '^0'." (FileWorker.path w) s).
Proof.
  intros Hl. cbv delta [TextWritten]; cbv beta. rewrite Hl.
  name_let pFileStorer. name_let iBuffer. name_let pathSaved.
  name_let errSaved. name_let cancelledSaved.
  name_let s1. exists s1. split; [|reflexivity]. clearbody s1.
  name_let s2.
  assert (quietly s1 s2) as Q2
    by (subst s2; destruct errSaved; [now apply quietly_emit|apply quietly_refl]).
  clearbody s2.
  name_let s3.
  assert (quietly s1 s3) as Q3.
  { apply (quietly_trans _ s2); [assumption|]. subst s3.
    destruct (IsPropertiesFile _); [apply quietly_ReloadProperties|apply quietly_refl]. }
  clearbody s3. clear s2 Q2.
  name_let s4.
  assert (quietly s1 s4) as Q4.
  { apply (quietly_trans _ s3); [assumption|]. subst s4.
    destruct (_ && _); [now apply quietly_emit|apply quietly_refl]. }
  clearbody s4. clear s3 Q3.
  apply (quietly_trans _ s4); [assumption|].
  destruct (_ && _); [now apply quietly_emit|apply quietly_refl].
Qed.


Lemma GetDocumentByWorker_found s w i :
  GetDocumentByWorker s (Some w) = i -> (0 <= i)%Z ->
  exists b, buffers s !! Z.to_nat i = Some b
            /\ FileWorker.id <$> Buffer.pFileWorker b = Some (FileWorker.id w).
Proof.
  unfold GetDocumentByWorker. intros Hi Hpos.
  destruct (list_find _ (buffers s)) as [[k b]|] eqn:E; [|lia].
  apply list_find_Some in E as (Hk & Hb & _).
  exists b. subst i. now rewrite Nat2Z.id.
Qed.

Lemma bufferAt_lookup s i b :
  (0 <= i)%Z -> buffers s !! Z.to_nat i = Some b -> bufferAt s i = b.
Proof. intros _ Hb. unfold bufferAt. now rewrite Hb. Qed.

Lemma storing_CompleteStoring b : Buffer.storing (Buffer.CompleteStoring b) = false.
Proof.
  unfold Buffer.CompleteStoring. destruct (Buffer.storing b) eqn:E; [reflexivity|exact E].
Qed.

(** The buffer that [TextWritten] finds for a failed save, after it has
    been released, made visible and, if current, given back its read-only
    setting. *)
Lemma failed_save_buffer s i b :
  listed s -> (0 <= i)%Z -> buffers s !! Z.to_nat i = Some b ->
  let s1 := updBuffer i Buffer.CompleteStoring s in
  let s2 := SetVisible i true s1 in
  let s3 := if (i =? current s2)%Z
            then SetReadOnly (Buffer.isReadOnly (CurrentBuffer s2)) s2 else s2 in
  exists b', buffers s3 !! Z.to_nat (shownAt s i) = Some b'
    /\ GetVisible s3 (shownAt s i) = true
    /\ current s3 = current s
    /\ trace s3 = trace s
    /\ Buffer.file b' = Buffer.file b
    /\ text (Buffer.doc b') = text (Buffer.doc b)
    /\ Buffer.isDirty b' = Buffer.isDirty b
    /\ Buffer.lifeState b' = Buffer.lifeState b
    /\ Buffer.isReadOnly b' = Buffer.isReadOnly b
    /\ Buffer.storing b' = false
    /\ readOnly (Buffer.doc b')
       = (if (i =? current s)%Z then Buffer.isReadOnly b else readOnly (Buffer.doc b)).
Proof.
  intros ((Hc0 & HcL) & HL) Hi Hb. cbv zeta.
  unfold shownAt, SetVisible.
  assert (GetVisible (updBuffer i Buffer.CompleteStoring s) i = GetVisible s i) as -> by reflexivity.
  pose proof (storing_CompleteStoring b) as Hst.
  destruct (GetVisible s i) eqn:Hv; unfold GetVisible in Hv; simpl negb; simpl andb; cbv iota.
  - change (current (updBuffer i Buffer.CompleteStoring s)) with (current s).
    destruct (i =? current s)%Z eqn:Hcur.
    + apply Z.eqb_eq in Hcur.
      exists (Buffer.set_doc
                (mkDocument (text (Buffer.doc b)) (Buffer.isReadOnly b)
                   (undoCollection (Buffer.doc b)) (options (Buffer.doc b))
                   (eolMode (Buffer.doc b))) (Buffer.CompleteStoring b)).
      assert (CurrentBuffer (updBuffer i Buffer.CompleteStoring s) = Buffer.CompleteStoring b) as Hcb.
      { unfold CurrentBuffer, bufferAt, updBuffer. simpl. rewrite <- Hcur.
        now rewrite list_lookup_alter_eq, Hb. }
      rewrite Hcb.
      split.
      { unfold SetReadOnly, updEditor, updCurrent, updBuffer. simpl. rewrite <- Hcur.
        rewrite !list_lookup_alter_eq, Hb. simpl.
        unfold Buffer.CompleteStoring. now destruct (Buffer.storing b). }
      split; [unfold GetVisible; simpl; exact Hv|].
      split; [reflexivity|]. split; [reflexivity|].
      unfold Buffer.CompleteStoring in *.
      destruct (Buffer.storing b); simpl; repeat split; auto.
    + exists (Buffer.CompleteStoring b).
      split; [unfold updBuffer; simpl; now rewrite list_lookup_alter_eq, Hb|].
      split; [unfold GetVisible; simpl; exact Hv|].
      split; [reflexivity|]. split; [reflexivity|].
      unfold Buffer.CompleteStoring in *.
      destruct (Buffer.storing b); simpl; repeat split; auto.
  - apply Z.ltb_ge in Hv.
    assert ((i =? current s)%Z = false) as Hcur by (apply Z.eqb_neq; lia).
    change (current (set_lengthVisible _ _)) with (current s). rewrite Hcur.
    exists (Buffer.CompleteStoring b).
    assert (Z.to_nat (lengthVisible s) <= Z.to_nat i) as Hle by lia.
    pose proof (lookup_lt_Some _ _ _ Hb) as Hlen.
    destruct (lookup_lt_is_Some_2 (buffers s) (Z.to_nat (lengthVisible s)) ltac:(lia)) as [bL HbL].
    split.
    { simpl. unfold swapBuffers.
      rewrite list_lookup_alter_eq, Hb. simpl.
      destruct (decide (Z.to_nat (lengthVisible s) = Z.to_nat i)) as [E|NE].
      - rewrite E, list_lookup_alter_eq, Hb. simpl.
        rewrite list_lookup_insert_eq; [reflexivity|].
        rewrite length_insert, length_alter. lia.
      - rewrite list_lookup_alter_ne, HbL by congruence.
        rewrite list_lookup_insert_eq; [reflexivity|].
        rewrite length_insert, length_alter. lia. }
    split; [unfold GetVisible; simpl; lia|].
    split; [reflexivity|]. split; [reflexivity|].
    unfold Buffer.CompleteStoring in *.
    destruct (Buffer.storing b); simpl; repeat split; auto.
Qed.

(** C4: when a background save ends with an error or after it was
    cancelled, [TextWritten] leaves the buffer that owns the storer among
    the visible buffers, without its storer; the buffer keeps its text, its
    file name, its lifecycle state and its dirty flag, and no save point is
    set; if it is the current buffer the editor is read-only exactly when
    the buffer is set to be. *)
Theorem TextWritten_failed (w : FileWorker.t) (s : SciTE) (i : Z) :
  saveFailed w -> listed s ->
  GetDocumentByWorker s (Some w) = i -> (0 <= i)%Z ->
  let s' := TextWritten w s in
  let b := bufferAt s i in
  exists b', buffers s' !! Z.to_nat (shownAt s i) = Some b'
    /\ GetVisible s' (shownAt s i) = true
    /\ Buffer.storing b' = false
    /\ text (Buffer.doc b') = text (Buffer.doc b)
    /\ Buffer.file b' = Buffer.file b
    /\ Buffer.lifeState b' = Buffer.lifeState b
    /\ Buffer.isDirty b' = Buffer.isDirty b
    /\ Buffer.isReadOnly b' = Buffer.isReadOnly b
    /\ (SetSavePoint ∉ newEvents s s')
    /\ current s' = current s
    /\ (i = current s ->
        CurrentBuffer s' = b'
        /\ readOnly (wEditor s') = Buffer.isReadOnly (CurrentBuffer s')).
Proof.
  intros (Hl & Hfail) Hlisted Hi Hpos. cbv zeta.
  destruct (GetDocumentByWorker_found s w i Hi Hpos) as (b & Hb & _).
  rewrite (bufferAt_lookup s i b Hpos Hb).
  destruct (TextWritten_steps w s Hl) as (s1 & Q & E1).
  rewrite Hi in E1. cbv zeta in E1.
  assert ((0 <=? i)%Z = true) as Hle by (apply Z.leb_le; exact Hpos).
  assert ((negb (FileWorker.err w =? 0)%Z || FileWorker.Cancelling w) = true) as Hf.
  { destruct Hfail as [He | ->]; [|apply orb_true_r].
    apply Z.eqb_neq in He. now rewrite He. }
  rewrite Hle, Hf in E1.
  destruct (failed_save_buffer s i b Hlisted Hpos Hb)
    as (b' & L & V & C & T & F1 & F2 & F3 & F4 & F5 & F6 & F7).
  cbv zeta in L, V, C, T. rewrite <- E1 in L, V, C, T.
  pose proof (newEvents_quietly _ _ Q) as Hn.
  destruct Q as (QB & QC & QL & _ & _ & evs & QT & QN).
  exists b'. rewrite QB. split; [exact L|].
  split; [unfold GetVisible in *; now rewrite QL|].
  repeat (split; [assumption|]).
  split.
  { unfold newEvents. rewrite QT, T, drop_app_length. exact QN. }
  split; [congruence|].
  intros ->.
  assert (shownAt s (current s) = current s) as Hshown.
  { unfold shownAt, GetVisible. destruct Hlisted as ((? & ?) & ?).
    now rewrite (proj2 (Z.ltb_lt _ _)). }
  rewrite Hshown in L.
  assert (CurrentBuffer (TextWritten w s) = b') as Hcb.
  { unfold CurrentBuffer, bufferAt. now rewrite QB, QC, C, L. }
  split; [exact Hcb|].
  unfold wEditor. rewrite Hcb, F7, Z.eqb_refl. congruence.
Qed.


(** C5: when a background save went through and the buffer that owns the
    storer is the current buffer, [TextWritten] sets the save point, which
    clears the dirty flag, exactly when the path that was saved has the
    same name as the file of the buffer. *)
Theorem TextWritten_saved (w : FileWorker.t) (s : SciTE) :
  saveSucceeded w -> listed s ->
  GetDocumentByWorker s (Some w) = current s ->
  let s' := TextWritten w s in
  let same := SameNameAs (FileWorker.path w) (Buffer.file (CurrentBuffer s)) in
  (SetSavePoint ∈ newEvents s s' <-> same = true)
  /\ Buffer.isDirty (CurrentBuffer s')
     = (if same then false else Buffer.isDirty (CurrentBuffer s))
  /\ Buffer.storing (CurrentBuffer s') = false
  /\ text (wEditor s') = text (wEditor s)
  /\ current s' = current s.
Proof.
  intros (Hl & Herr & Hcan) Hlisted Hi. cbv zeta.
  pose proof Hlisted as ((Hc0 & HcL) & HL).
  destruct (GetDocumentByWorker_found s w _ Hi Hc0) as (b & Hb & _).
  destruct (TextWritten_steps w s Hl) as (s1 & Q & E1).
  rewrite Hi, Herr, Hcan in E1. cbv zeta in E1.
  rewrite (proj2 (Z.leb_le _ _) Hc0) in E1. simpl orb in E1. cbv iota in E1.
  assert (GetVisible (updBuffer (current s) Buffer.CompleteStoring s) (current s) = true) as Hv
    by (unfold GetVisible; simpl; now apply Z.ltb_lt).
  rewrite Hv in E1. simpl negb in E1. cbv iota in E1.
  change (current (updBuffer (current s) Buffer.CompleteStoring s)) with (current s) in E1.
  rewrite Z.eqb_refl in E1.
  assert (hasCurrent s) as Hcur by (exists b; exact Hb).
  assert (CurrentBuffer s = b) as Hcb by (unfold CurrentBuffer, bufferAt; now rewrite Hb).
  set (s2 := SetReadOnly _ _) in E1.
  assert (hasCurrent s2) as Hcur2.
  { subst s2. eapply sameWorld_hasCurrent; [apply world_SetReadOnly|].
    now apply hasCurrent_updBuffer. }
  assert (CurrentBuffer s2
          = Buffer.set_doc
              (mkDocument (text (Buffer.doc b)) (Buffer.isReadOnly b)
                 (undoCollection (Buffer.doc b)) (options (Buffer.doc b))
                 (eolMode (Buffer.doc b))) (Buffer.CompleteStoring b)) as Hcb2.
  { subst s2. unfold SetReadOnly, updEditor, updCurrent, updBuffer, CurrentBuffer, bufferAt.
    simpl. rewrite !list_lookup_alter_eq, Hb. simpl.
    unfold Buffer.CompleteStoring. now destruct (Buffer.storing b). }
  assert (trace s2 = trace s) as Ht2 by reflexivity.
  assert (current s2 = current s) as Hc2 by reflexivity.
  assert (Buffer.file (CurrentBuffer s2) = Buffer.file b) as Hfile.
  { rewrite Hcb2. unfold Buffer.CompleteStoring. now destruct (Buffer.storing b). }
  rewrite Hfile in E1. rewrite Hcb.
  pose proof (storing_CompleteStoring b) as Hst.
  destruct Q as (QB & QC & QL & _ & _ & evs & QT & QN).
  assert (CurrentBuffer (TextWritten w s) = CurrentBuffer s1) as Hcbw
    by (unfold CurrentBuffer, bufferAt; now rewrite QB, QC).
  unfold wEditor, newEvents. rewrite Hcbw, QT, QC.
  clearbody s2.
  destruct (SameNameAs (FileWorker.path w) (Buffer.file b)) eqn:Hsame.
  - assert (trace s1 = trace s ++ SetSavePoint :: (if extender s2 then [OnSave (Buffer.file (bufferAt (EditorSetSavePoint s2) (current s)))] else [])
            /\ CurrentBuffer s1 = CurrentBuffer (EditorSetSavePoint s2)
            /\ current s1 = current s) as (T1 & B1 & C1).
    { subst s1. change (extender (EditorSetSavePoint s2)) with (extender s2).
      destruct (extender s2); simpl; rewrite Ht2, <- ?app_assoc; auto. }
    rewrite T1, B1, C1, <- app_assoc, drop_app_length.
    rewrite CurrentBuffer_EditorSetSavePoint by assumption. rewrite Hcb2. simpl.
    split; [split; [reflexivity|intros _; constructor]|].
    rewrite Hcb. unfold Buffer.CompleteStoring in *.
    destruct (Buffer.storing b) eqn:Es; simpl; repeat split; auto.
  - assert (trace s1 = trace s ++ (if extender s2 then [OnSave (Buffer.file (bufferAt s2 (current s)))] else [])
            /\ CurrentBuffer s1 = CurrentBuffer s2
            /\ current s1 = current s) as (T1 & B1 & C1).
    { subst s1. destruct (extender s2); simpl; rewrite Ht2, ?app_nil_r; auto. }
    rewrite T1, B1, C1, <- app_assoc, drop_app_length, Hcb2. simpl.
    split.
    { split; [|discriminate]. intros Hin. exfalso.
      apply elem_of_app in Hin as [Hin|Hin]; [|contradiction].
      destruct (extender s2); [|now apply not_elem_of_nil in Hin].
      apply list_elem_of_singleton in Hin. discriminate. }
    rewrite Hcb. unfold Buffer.CompleteStoring in *.
    destruct (Buffer.storing b) eqn:Es; simpl; repeat split; auto.
Qed.

End TextWritten.

(** The device is full: the buffer stays edited and is writable again. *)
Lemma TextWritten_failed_witness :
  exists b', buffers (@TextWritten Sample.platform (Sample.storer "/a.txt" 28) (Sample.saving (Sample.storer "/a.txt" 28)))
               !! 0 = Some b'
    /\ Buffer.isDirty b' = true
    /\ text (Buffer.doc b') = Sample.bytes "abXcd"
    /\ readOnly (Buffer.doc b') = false.
Proof.
  destruct (@TextWritten_failed Sample.platform (Sample.storer "/a.txt" 28)
              (Sample.saving (Sample.storer "/a.txt" 28)) 0)
    as (b' & L & V & S & T & F & LS & D & RO & N & C & R).
  - split; [reflexivity|left; discriminate].
  - split; simpl; lia.
  - reflexivity.
  - lia.
  - exists b'. split; [exact L|]. split; [exact D|]. split; [exact T|].
    destruct (R eq_refl) as [Hcb Hro]. unfold wEditor in Hro.
    rewrite Hcb, RO in Hro. exact Hro.
Defined.

(** A save as "/a.txt" of the buffer "/a.txt" that went through. *)
Lemma TextWritten_saved_witness :
  Buffer.isDirty (CurrentBuffer (@TextWritten Sample.platform (Sample.storer "/a.txt" 0)
                                   (Sample.saving (Sample.storer "/a.txt" 0)))) = false.
Proof.
  refine (proj1 (proj2 (@TextWritten_saved Sample.platform (Sample.storer "/a.txt" 0)
                          (Sample.saving (Sample.storer "/a.txt" 0)) _ _ _))).
  - repeat split.
  - split; simpl; lia.
  - reflexivity.
Defined.

(** The buffer was renamed while it was saved: it stays dirty. *)
Example TextWritten_renamed :
  let s := @TextWritten Sample.platform (Sample.storer "/old.txt" 0)
             (Sample.saving (Sample.storer "/old.txt" 0)) in
  Buffer.isDirty (CurrentBuffer s) = true /\ trace s = [].
Proof. split; reflexivity. Qed.

(** ** The end of a background load *)

Section TextRead.
Context `{Platform}.

Lemma current_Notify msg arg s : current (Notify msg arg s) = current s.
Proof. exact (proj1 (world_Notify msg arg s)). Qed.

(** When the loader belongs to the current buffer, [TextRead] ends in
    [CompleteOpen]: the buffer is in the steady state and shows what the
    loader has read, whether the load failed or not. *)
Lemma TextRead_current w s :
  FileWorker.IsLoading w = true ->
  GetDocumentByWorker s (Some w) = current s -> (0 <= current s)%Z ->
  let s' := TextRead w s in
  Buffer.lifeState (CurrentBuffer s') = LifeState.opened
  /\ Buffer.ShouldNotSave (CurrentBuffer s') = false
  /\ Buffer.loading (CurrentBuffer s') = false
  /\ Buffer.isDirty (CurrentBuffer s') = false
  /\ text (wEditor s') = FileWorker.pLoader w
  /\ Buffer.unicodeMode (CurrentBuffer s') = FileWorker.unicodeMode w.
Proof.
  intros Hl Hi Hpos. cbv zeta.
  destruct (GetDocumentByWorker_found s w _ Hi Hpos) as (b & Hb & Hid).
  unfold TextRead. rewrite Hl, Hi.
  rewrite (proj2 (Z.leb_le _ _) Hpos).
  rewrite bool_decide_eq_true_2 by (now exists w).
  cbn [andb].
  set (s3 := SwitchDocumentAt _ _ _).
  assert (current s3 = current s) as Hc3
    by (subst s3; destruct (negb _); simpl; rewrite ?current_Notify; reflexivity).
  rewrite Hc3, Z.eqb_refl.
  assert (exists b3, buffers s3 !! Z.to_nat (current s) = Some b3
                     /\ text (Buffer.doc b3) = FileWorker.pLoader w
                     /\ Buffer.unicodeMode b3 = FileWorker.unicodeMode w
                     /\ Buffer.pFileWorker b3 = Buffer.pFileWorker b) as (b3 & Hb3 & Ht3 & Hu3 & Hw3).
  { subst s3. unfold SwitchDocumentAt, updBuffer.
    destruct (negb _); simpl; rewrite ?buffers_Notify; simpl;
      rewrite !list_lookup_alter_eq, Hb; simpl; eexists; (split; [reflexivity|]);
      simpl; auto. }
  assert (hasCurrent s3) as Hcur3 by (exists b3; unfold hasCurrent; now rewrite Hc3).
  assert (CurrentBuffer s3 = b3) as Hcb3
    by (unfold CurrentBuffer, bufferAt; now rewrite Hc3, Hb3).
  pose proof (CompleteOpen_current completeCurrent s3 Hcur3) as Hco.
  cbv zeta in Hco. rewrite Hcb3 in Hco.
  destruct Hco as (_ & _ & T & _ & D & L & _ & U & _ & Hld & _ & _ & _).
  set (s4 := CompleteOpen completeCurrent s3) in *.
  assert (CurrentBuffer (if extender s4
                         then emit (OnOpen (Buffer.file (bufferAt s4 (current s)))) s4
                         else s4) = CurrentBuffer s4) as ->
    by (destruct (extender s4); reflexivity).
  unfold wEditor.
  assert (CurrentBuffer (if extender s4
                         then emit (OnOpen (Buffer.file (bufferAt s4 (current s)))) s4
                         else s4) = CurrentBuffer s4) as ->
    by (destruct (extender s4); reflexivity).
  split; [exact L|]. split; [unfold Buffer.ShouldNotSave; rewrite L; reflexivity|].
  split; [exact Hld|].
  split; [exact D|]. split; congruence.
Qed.

(** When the loader belongs to another buffer, a failed load leaves that
    buffer in the state [empty], in which it is not saved. *)
Lemma TextRead_behind w s i :
  FileWorker.IsLoading w = true -> FileWorker.err w <> 0%Z ->
  GetDocumentByWorker s (Some w) = i -> (0 <= i)%Z ->
  (0 <= current s)%Z -> i <> current s ->
  let s' := TextRead w s in
  Buffer.lifeState (bufferAt s' i) = LifeState.empty
  /\ Buffer.ShouldNotSave (bufferAt s' i) = true
  /\ text (Buffer.doc (bufferAt s' i)) = FileWorker.pLoader w
  /\ CurrentBuffer s' = CurrentBuffer s.
Proof.
  intros Hl He Hi Hpos Hcur Hne. cbv zeta.
  destruct (GetDocumentByWorker_found s w _ Hi Hpos) as (b & Hb & Hid).
  unfold TextRead. rewrite Hl, Hi.
  rewrite (proj2 (Z.leb_le _ _) Hpos).
  rewrite bool_decide_eq_true_2 by (now exists w).
  cbn [andb].
  rewrite (proj2 (Z.eqb_neq _ _) He). cbn [negb].
  match goal with |- context [(i =? current ?x)%Z] =>
    replace (current x) with (current s) by (simpl; now rewrite current_Notify) end.
  rewrite (proj2 (Z.eqb_neq _ _) Hne).
  unfold SwitchDocumentAt, updBuffer, CurrentBuffer, bufferAt. simpl.
  rewrite !buffers_Notify. simpl.
  rewrite !list_lookup_alter_eq, Hb. simpl.
  rewrite current_Notify. simpl.
  rewrite !list_lookup_alter_ne by lia.
  repeat split; reflexivity.
Qed.

End TextRead.

(** C3, as the code has it: a load of the current buffer that failed
    half-way is completed like any other.  [TextRead] reports the error and
    puts the buffer in the state [empty], and [CompleteOpen] then puts it in
    the steady state [opened]; [Save] takes it for a buffer that may be
    saved, shows no message, and replaces the file by the part that was
    read. *)
Lemma failed_load_is_saved :
  let w := Sample.loader 5 in
  let s := @TextRead Sample.platform w (Sample.halfRead w) in
  let r := @Save Sample.platform 16 s in
  files (disk (Sample.halfRead w)) !! "/x.xml"
    = Some (Sample.bytes "<?xml version='1.0'?><doc/>")
  /\ trace s = [WindowMessageBox "Could not open file '^0'." "/x.xml"; SetSavePoint]
  /\ Buffer.lifeState (CurrentBuffer s) = LifeState.opened
  /\ Buffer.ShouldNotSave (CurrentBuffer s) = false
  /\ r.1 = true
  /\ files (disk r.2) !! "/x.xml" = Some (Sample.bytes "<?xml ver")
  /\ trace r.2 = trace s ++ [SetSavePoint].
Proof. vm_compute. repeat split; reflexivity. Qed.

(** ** One worker for a buffer *)

Section Workers.
Context `{Platform}.

(** The buffers of [s'] are buffers of [s], each at most once, with the
    worker they had or none. *)
Lemma tidy_reindex (sigma : nat -> nat) s s' :
  tidy s -> nextWorker s' = nextWorker s -> threads s' = threads s ->
  (forall k1 k2, sigma k1 = sigma k2 -> k1 = k2) ->
  (forall k b m, buffers s' !! k = Some b -> workerOf b = Some m ->
                 exists b0, buffers s !! sigma k = Some b0 /\ workerOf b0 = Some m) ->
  tidy s'.
Proof.
  intros (U & B & N & F) Hn Ht Hinj Hfrom.
  split; [|split; [|split]].
  - intros i j bi bj k Hi Hj Wi Wj.
    destruct (Hfrom i bi k Hi Wi) as (bi0 & Hi0 & Wi0).
    destruct (Hfrom j bj k Hj Wj) as (bj0 & Hj0 & Wj0).
    apply Hinj. eapply U; eassumption.
  - intros i b k Hi Wi. rewrite Hn.
    destruct (Hfrom i b k Hi Wi) as (b0 & Hi0 & Wi0). eapply B; eassumption.
  - now rewrite Ht.
  - now rewrite Ht, Hn.
Qed.

Lemma tidy_fields s s' :
  buffers s' = buffers s -> nextWorker s' = nextWorker s -> threads s' = threads s ->
  tidy s -> tidy s'.
Proof.
  intros Hb Hn Ht Hs. apply (tidy_reindex id s s'); auto.
  intros k b m Hk Hm. rewrite Hb in Hk. eauto.
Qed.

Lemma tidy_updBuffer i f s :
  (forall b, workerOf (f b) = workerOf b \/ workerOf (f b) = None) ->
  tidy s -> tidy (updBuffer i f s).
Proof.
  intros Hf Hs. apply (tidy_reindex id s); auto.
  intros k b m Hk Hm. simpl in Hk.
  destruct (decide (Z.to_nat i = k)) as [<-|Hne].
  - rewrite list_lookup_alter_eq in Hk.
    destruct (buffers s !! Z.to_nat i) as [b0|] eqn:E; [|discriminate].
    simpl in Hk. injection Hk as <-. exists b0. split; [exact E|].
    destruct (Hf b0) as [<-|E']; [assumption|congruence].
  - rewrite list_lookup_alter_ne in Hk by assumption. eauto.
Qed.

Lemma tidy_updCurrent f s :
  (forall b, workerOf (f b) = workerOf b \/ workerOf (f b) = None) ->
  tidy s -> tidy (updCurrent f s).
Proof. apply tidy_updBuffer. Qed.

Lemma tidy_emit e s : tidy s -> tidy (emit e s).
Proof. now apply tidy_fields. Qed.
Lemma tidy_set_language v s : tidy s -> tidy (set_language v s).
Proof. now apply tidy_fields. Qed.
Lemma tidy_set_codePage v s : tidy s -> tidy (set_codePage v s).
Proof. now apply tidy_fields. Qed.
Lemma tidy_set_filePath v s : tidy s -> tidy (set_filePath v s).
Proof. now apply tidy_fields. Qed.
Lemma tidy_set_disk v s : tidy s -> tidy (set_disk v s).
Proof. now apply tidy_fields. Qed.
Lemma tidy_set_replies v s : tidy s -> tidy (set_replies v s).
Proof. now apply tidy_fields. Qed.
Lemma tidy_set_lengthVisible v s : tidy s -> tidy (set_lengthVisible v s).
Proof. now apply tidy_fields. Qed.

Lemma tidy_MessageBox msg arg s : tidy s -> tidy (MessageBox msg arg s).2.
Proof.
  intros Hs. unfold MessageBox. destruct (replies _); simpl.
  - now apply tidy_emit.
  - now apply tidy_set_replies, tidy_emit.
Qed.

Lemma tidy_Notify msg arg s : tidy s -> tidy (Notify msg arg s).
Proof. apply tidy_MessageBox. Qed.

Lemma tidy_couldNotOpen q s : tidy s -> tidy (couldNotOpen q s).
Proof. intros. unfold couldNotOpen. destruct q; [assumption|now apply tidy_Notify]. Qed.

Ltac same_worker := intros ?; left; reflexivity.

Lemma tidy_updEditor f s : tidy s -> tidy (updEditor f s).
Proof. apply tidy_updCurrent. same_worker. Qed.
Lemma tidy_setText t s : tidy s -> tidy (setText t s).
Proof. apply tidy_updCurrent. same_worker. Qed.
Lemma tidy_ClearAll s : tidy s -> tidy (ClearAll s).
Proof. apply tidy_setText. Qed.
Lemma tidy_AddText t s : tidy s -> tidy (AddText t s).
Proof. apply tidy_setText. Qed.
Lemma tidy_SetReadOnly v s : tidy s -> tidy (SetReadOnly v s).
Proof. apply tidy_updEditor. Qed.
Lemma tidy_SetUndoCollection v s : tidy s -> tidy (SetUndoCollection v s).
Proof. apply tidy_updEditor. Qed.
Lemma tidy_EditorSetSavePoint s : tidy s -> tidy (EditorSetSavePoint s).
Proof. intros. apply tidy_emit, tidy_updCurrent; [same_worker|assumption]. Qed.
Lemma tidy_EditorReplaceTarget a b c s : tidy s -> tidy (EditorReplaceTarget a b c s).
Proof. intros. now apply tidy_emit, tidy_setText. Qed.
Lemma tidy_SetTimeFromFile s : tidy s -> tidy (SetTimeFromFile s).
Proof. apply tidy_updCurrent. same_worker. Qed.
Lemma tidy_ReadProperties s : tidy s -> tidy (ReadProperties s).
Proof. apply tidy_set_language. Qed.
Lemma tidy_ReloadProperties s : tidy s -> tidy (ReloadProperties s).
Proof. apply tidy_ReadProperties. Qed.
Lemma tidy_SwitchDocumentAt i d s : tidy s -> tidy (SwitchDocumentAt i d s).
Proof. apply tidy_updBuffer. same_worker. Qed.

Lemma tidy_SetFileName file s : tidy s -> tidy (SetFileName file s).
Proof.
  intros Hs. unfold SetFileName.
  destruct (bool_decide _); (destruct (decide _);
    [apply tidy_updCurrent; [same_worker|]|]; now apply tidy_set_filePath).
Qed.

Lemma worker_CompleteLoading b :
  workerOf (Buffer.CompleteLoading b) = workerOf b
  \/ workerOf (Buffer.CompleteLoading b) = None.
Proof.
  unfold Buffer.CompleteLoading. destruct (Buffer.loading _); [right|left]; reflexivity.
Qed.

Lemma worker_CompleteStoring b :
  workerOf (Buffer.CompleteStoring b) = workerOf b
  \/ workerOf (Buffer.CompleteStoring b) = None.
Proof.
  unfold Buffer.CompleteStoring. destruct (Buffer.storing _); [right|left]; reflexivity.
Qed.

End Workers.

(** [tidy e] from what is known of the states that [e] is built from. *)
Ltac tidies :=
  repeat lazymatch goal with
    | Ht : tidy ?x |- tidy ?x => exact Ht
    | |- tidy (if ?c then _ else _) => destruct c
    | |- tidy (let x := _ in _) =>
        let y := fresh "y" in
        name_let y;
        first [ assert (tidy y) by (subst y; tidies); clearbody y | subst y ]
    | |- tidy (match ?c with Some _ => _ | None => _ end) => destruct c
    | |- tidy (emit _ _) => apply tidy_emit
    | |- tidy (set_language _ _) => apply tidy_set_language
    | |- tidy (set_codePage _ _) => apply tidy_set_codePage
    | |- tidy (set_filePath _ _) => apply tidy_set_filePath
    | |- tidy (set_disk _ _) => apply tidy_set_disk
    | |- tidy (set_lengthVisible _ _) => apply tidy_set_lengthVisible
    | |- tidy (Notify _ _ _) => apply tidy_Notify
    | |- tidy (MessageBox _ _ _).2 => apply tidy_MessageBox
    | |- tidy (couldNotOpen _ _) => apply tidy_couldNotOpen
    | |- tidy (setText _ _) => apply tidy_setText
    | |- tidy (ClearAll _) => apply tidy_ClearAll
    | |- tidy (AddText _ _) => apply tidy_AddText
    | |- tidy (SetReadOnly _ _) => apply tidy_SetReadOnly
    | |- tidy (SetUndoCollection _ _) => apply tidy_SetUndoCollection
    | |- tidy (EditorSetSavePoint _) => apply tidy_EditorSetSavePoint
    | |- tidy (EditorReplaceTarget _ _ _ _) => apply tidy_EditorReplaceTarget
    | |- tidy (SetTimeFromFile _) => apply tidy_SetTimeFromFile
    | |- tidy (ReadProperties _) => apply tidy_ReadProperties
    | |- tidy (ReloadProperties _) => apply tidy_ReloadProperties
    | |- tidy (SwitchDocumentAt _ _ _) => apply tidy_SwitchDocumentAt
    | |- tidy (SetFileName _ _) => apply tidy_SetFileName
    | |- tidy (updEditor _ _) => apply tidy_updEditor
    | |- tidy (updCurrent Buffer.CompleteLoading _) =>
        apply tidy_updCurrent; [apply worker_CompleteLoading|]
    | |- tidy (updBuffer _ Buffer.CompleteStoring _) =>
        apply tidy_updBuffer; [apply worker_CompleteStoring|]
    | |- tidy (updCurrent _ _) => apply tidy_updCurrent; [intros ?; left; reflexivity|]
    | |- tidy (updBuffer _ _ _) => apply tidy_updBuffer; [intros ?; left; reflexivity|]
    end.

Section Requests.
Context `{Platform}.

Lemma tidy_CompleteOpen oc s : tidy s -> tidy (CompleteOpen oc s).
Proof.
  intros Hs. cbv delta [CompleteOpen]; cbv beta. tidies.
Qed.


(** A new worker for the current buffer, with the thread that is started
    for it. *)
Lemma tidy_spawn w x :
  tidy x -> FileWorker.id w = nextWorker x ->
  let x1 := updCurrent (Buffer.set_pFileWorker (Some w)) x in
  let x2 := set_nextWorker (S (nextWorker x1)) x1 in
  tidy x2 /\ tidy (StartThread w x2).2.
Proof.
  intros (U & B & N & F) Hid. cbv zeta.
  assert (forall i b k,
            buffers (updCurrent (Buffer.set_pFileWorker (Some w)) x) !! i = Some b ->
            workerOf b = Some k ->
            (i = Z.to_nat (current x) /\ k = nextWorker x)
            \/ (i <> Z.to_nat (current x) /\ k < nextWorker x
                /\ exists b0, buffers x !! i = Some b0 /\ workerOf b0 = Some k)) as Hcase.
  { intros i b k Hi Wi. simpl in Hi.
    destruct (decide (Z.to_nat (current x) = i)) as [<-|Hne].
    - left. split; [reflexivity|].
      rewrite list_lookup_alter_eq in Hi.
      destruct (buffers x !! Z.to_nat (current x)); [|discriminate].
      simpl in Hi. injection Hi as <-. unfold workerOf in Wi. simpl in Wi. congruence.
    - right. rewrite list_lookup_alter_ne in Hi by assumption.
      split; [congruence|]. split; [eapply B; eassumption|eauto]. }
  assert (tidy (set_nextWorker (S (nextWorker x))
                  (updCurrent (Buffer.set_pFileWorker (Some w)) x))) as Ht.
  { split; [|split; [|split]].
    - intros i j bi bj k Hi Hj Wi Wj.
      destruct (Hcase i bi k Hi Wi) as [[-> ->]|(Ni & Li & bi0 & Hi0 & Wi0)];
        destruct (Hcase j bj _ Hj Wj) as [[-> E]|(Nj & Lj & bj0 & Hj0 & Wj0)];
        try reflexivity; try lia.
      eapply U; eassumption.
    - intros i b k Hi Wi. simpl.
      destruct (Hcase i b k Hi Wi) as [[-> ->]|(Ni & Li & _)]; lia.
    - exact N.
    - simpl. eapply Forall_impl; [exact F|]. simpl. intros; lia. }
  split; [exact Ht|].
  unfold StartThread. simpl. destruct (threadsStart x); [|exact Ht].
  destruct Ht as (U' & B' & _ & F').
  split; [exact U'|]. split; [exact B'|]. simpl. split.
  - apply NoDup_cons. split; [|exact N].
    intros Hin. rewrite Forall_forall in F. specialize (F _ Hin). lia.
  - constructor; [lia|exact F'].
Qed.

Lemma tidy_OpenCurrentFile n q a s : tidy s -> tidy (OpenCurrentFile n q a s).
Proof.
  intros Hs. unfold OpenCurrentFile.
  destruct (_ || _); [tidies|].
  destruct (bool_decide _); [tidies|].
  destruct (files (disk s) !! filePath s) as [fp|]; [|tidies].
  destruct a.
  - set (x := SetReadOnly true _).
    assert (tidy x) as Hx by (subst x; tidies).
    clearbody x. destruct (loaderFails x); [assumption|].
    apply (tidy_spawn _ x Hx). reflexivity.
  - destruct (loadText _) as [loaded encoding].
    apply tidy_CompleteOpen. tidies.
Qed.

Lemma tidy_TextRead w s : tidy s -> tidy (TextRead w s).
Proof.
  intros Hs. unfold TextRead.
  destruct (_ && _); [|assumption].
  set (x := SwitchDocumentAt _ _ _).
  assert (tidy x) as Hx by (subst x; tidies).
  clearbody x.
  destruct (_ =? _)%Z; [|assumption].
  destruct (extender _); [apply tidy_emit|]; now apply tidy_CompleteOpen.
Qed.

Lemma tidy_putCurrent b' s :
  workerOf b' = workerOf (CurrentBuffer s) -> tidy s ->
  tidy (updCurrent (fun _ => b') s).
Proof.
  intros Hw Hs. apply (tidy_reindex id s); auto.
  intros k b m Hk Wk. simpl in Hk.
  destruct (decide (Z.to_nat (current s) = k)) as [<-|Hne].
  - rewrite list_lookup_alter_eq in Hk. unfold CurrentBuffer, bufferAt in Hw.
    destruct (buffers s !! Z.to_nat (current s)) as [b0|] eqn:E; [|discriminate].
    simpl in *. injection Hk as <-. exists b0. split; [exact E|congruence].
  - rewrite list_lookup_alter_ne in Hk by assumption. eauto.
Qed.

Lemma tidy_PerformDeferredTasks s : tidy s -> tidy (PerformDeferredTasks s).
Proof.
  intros Hs. unfold PerformDeferredTasks, Buffer.FinishSave.
  destruct (Buffer.finishSave (CurrentBuffer s)) eqn:E.
  - apply tidy_SetReadOnly, tidy_EditorSetSavePoint.
    now apply tidy_putCurrent.
  - now apply tidy_putCurrent.
Qed.


Lemma tidy_SetVisible i v s : tidy s -> tidy (SetVisible i v s).
Proof.
  intros Hs. unfold SetVisible. destruct (_ && _); [|assumption].
  apply tidy_set_lengthVisible. unfold swapBuffers.
  set (a := Z.to_nat (lengthVisible s)). set (c := Z.to_nat i).
  destruct (buffers s !! a) as [ba|] eqn:Ea;
    [destruct (buffers s !! c) as [bc|] eqn:Ec|]; [|now apply (tidy_fields s)..].
  apply (tidy_reindex
           (fun k => if decide (k = a) then c else if decide (k = c) then a else k) s);
    auto.
  - intros k1 k2. repeat destruct (decide _); intros; congruence.
  - intros k b m Hk Wk. simpl in Hk.
    pose proof (lookup_lt_Some _ _ _ Ea). pose proof (lookup_lt_Some _ _ _ Ec).
    destruct (decide (k = a)) as [->|Na].
    + rewrite list_lookup_insert_eq in Hk by (rewrite length_insert; lia).
      injection Hk as <-. eauto.
    + rewrite list_lookup_insert_ne in Hk by congruence.
      destruct (decide (k = c)) as [->|Nc].
      * rewrite list_lookup_insert_eq in Hk by lia. injection Hk as <-. eauto.
      * rewrite list_lookup_insert_ne in Hk by congruence. eauto.
Qed.

Lemma tidy_RemoveInvisible i s : tidy s -> tidy (RemoveInvisible i s).
Proof.
  intros Hs. unfold RemoveInvisible. destruct (GetVisible s i); [assumption|].
  apply (tidy_reindex
           (fun j => if decide (j < Z.to_nat i) then j else S j) s); auto.
  - intros k1 k2. repeat destruct (decide _); intros; lia.
  - intros k b m Hk Wk. simpl in Hk. rewrite list_lookup_delete in Hk. eauto.
Qed.

Lemma tidy_TextWritten w s : tidy s -> tidy (TextWritten w s).
Proof.
  intros Hs. destruct (FileWorker.IsLoading w) eqn:Hl.
  - unfold TextWritten. now rewrite Hl.
  - destruct (TextWritten_steps w s Hl) as (s1 & (QB & _ & _ & QW & QH & _) & E1).
    assert (tidy s1) as H1.
    { subst s1. cbv zeta.
      destruct (0 <=? _)%Z; [|now apply tidy_Notify].
      set (x := updBuffer _ Buffer.CompleteStoring s).
      assert (tidy x) as Hx by (subst x; tidies). clearbody x.
      destruct (_ || _).
      - pose proof (tidy_SetVisible (GetDocumentByWorker s (Some w)) true x Hx).
        destruct (_ =? _)%Z; [now apply tidy_SetReadOnly|assumption].
      - set (x1 := if negb _ then _ else x).
        assert (tidy x1) as Hx1
          by (subst x1; destruct (negb _); [now apply tidy_RemoveInvisible|assumption]).
        clearbody x1.
        destruct (_ =? _)%Z; tidies. }
    revert H1. now apply tidy_fields.
Qed.


Lemma tidy_Revert s : tidy s -> tidy (Revert s).
Proof.
  intros Hs. unfold Revert.
  destruct (IsUntitled _); [tidies|].
  destruct (_ && _); [|now apply tidy_OpenCurrentFile].
  destruct (_ && _); [now apply tidy_OpenCurrentFile|].
  destruct (CommonEnds _ _) as [start last].
  tidies.
Qed.

Lemma tidy_Open file of_ s : tidy s -> tidy (Open file of_ s).2.
Proof.
  intros Hs. unfold Open.
  destruct (_ <? _)%Z; [simpl; tidies|].
  match goal with
  | |- context [if ?c then MessageBox ?m ?a ?x else ?e] =>
      set (asked := if c then MessageBox m a x else e)
  end.
  assert (tidy asked.2) as Ha.
  { subst asked. destruct (_ && _); [tidies|exact Hs]. }
  destruct asked as [answer s1]. simpl in Ha.
  destruct (decide _); [exact Ha|].
  set (s2 := ReadProperties _).
  assert (tidy s2) as H2 by (subst s2; tidies). clearbody s2.
  destruct (negb (IsUntitled _)).
  - set (loaded := if negb _ && bool_decide _ then _ else _).
    assert (tidy loaded.2) as Hld.
    { subst loaded. destruct (_ && _); simpl; tidies. }
    destruct loaded as [allowUndoLoad s3]. simpl in Hld.
    set (s4 := if allowUndoLoad then s3 else _).
    assert (tidy s4) as H4 by (subst s4; tidies). clearbody s4.
    set (s5 := OpenCurrentFile _ _ _ _).
    assert (tidy s5) as H5 by (subst s5; now apply tidy_OpenCurrentFile). clearbody s5.
    simpl. tidies.
  - simpl. tidies.
Qed.

Lemma tidy_PrepareBufferForSave saveName s :
  tidy s -> tidy (PrepareBufferForSave saveName s).2.
Proof. intros Hs. unfold PrepareBufferForSave. simpl. tidies. Qed.

Lemma tidy_SaveBuffer saveName sf s : tidy s -> tidy (SaveBuffer saveName sf s).2.
Proof.
  intros Hs. unfold SaveBuffer.
  pose proof (tidy_PrepareBufferForSave saveName s Hs) as Hp.
  destruct (PrepareBufferForSave saveName s) as [r s1]. simpl in Hp.
  assert (forall (p : bool * SciTE), tidy p.2 ->
            tidy (let '(retVal, s) := p in
                  (retVal, if retVal && extender s && flagSet sf sfSynchronous
                           then emit (OnSave saveName) s else s)).2) as Hfin.
  { intros [r' x] Hx. simpl in *. tidies. }
  apply Hfin.
  destruct (negb r); [|exact Hp].
  unfold OpenForWrite.
  destruct (bool_decide _); [exact Hp|].
  destruct (negb (flagSet sf sfSynchronous)).
  - set (x := SetReadOnly true _).
    assert (tidy x) as Hx by (subst x; tidies). clearbody x.
    set (w := FileWorker.mk _ _ _ _ _ _ _ _ _ _).
    destruct (tidy_spawn w x Hx eq_refl) as [_ Hsp]. cbv zeta in Hsp.
    destruct (StartThread w _) as [[|] x2]; simpl in *; tidies.
  - destruct (saveBlocks _ _ _ _) as [[ok cw] fp].
    unfold fclose. simpl. tidies.
Qed.

Lemma tidy_RemoveFile path s : tidy s -> tidy (RemoveFile path s).
Proof. intros. unfold RemoveFile. now apply tidy_set_disk. Qed.

Section Dialog.
Hypothesis dialog : forall x, tidy x -> tidy (SaveAsDialog x).2.

Lemma tidy_Save sf s : tidy s -> tidy (Save sf s).2.
Proof using dialog.
  intros Hs. unfold Save.
  destruct (negb (IsUntitled _)).
  - destruct (Buffer.ShouldNotSave _); [simpl; tidies|].
    destruct (bool_decide _); [simpl; tidies|].
    match goal with
    | |- context [if negb ?c then (true, ?a) else ?e] =>
        set (checked := if negb c then (true, a) else e)
    end.
    assert (tidy checked.2) as Hc.
    { subst checked. destruct (negb _); [simpl; now apply tidy_RemoveFile|].
      destruct (negb _); [|exact Hs].
      destruct (_ && _); [|exact Hs].
      pose proof (tidy_MessageBox "The file '^0' has been modified outside SciTE. Should it be saved?" (filePath s) s Hs).
      destruct (MessageBox _ _ s). assumption. }
    destruct checked as [proceed s1]. simpl in Hc.
    destruct (negb proceed); [exact Hc|].
    match goal with
    | |- context [SaveBuffer ?p ?f s1] =>
        pose proof (tidy_SaveBuffer p f s1 Hc) as Hsb;
        destruct (SaveBuffer p f s1) as [[|] s2]; simpl in Hsb
    end.
    + simpl. tidies.
    + destruct (negb _); [|exact Hsb].
      set (x := updCurrent _ s2).
      assert (tidy x) as Hx by (subst x; tidies). clearbody x.
      pose proof (tidy_MessageBox "Could not save file '^0'. Save under a different name?" (filePath x) x Hx) as Hm.
      destruct (MessageBox _ _ x) as [decision x1]. simpl in Hm.
      destruct (decide _); [now apply dialog|exact Hm].
  - pose proof (dialog s Hs) as Hd.
    destruct (SaveAsDialog s) as [ret x]. simpl in Hd.
    destruct (negb ret); simpl; tidies.
Qed.

Lemma tidy_SaveIfUnsure q sf s : tidy s -> tidy (SaveIfUnsure q sf s).2.
Proof using dialog.
  intros Hs. unfold SaveIfUnsure.
  set (x := updCurrent _ s).
  assert (tidy x) as Hx by (subst x; tidies). clearbody x.
  destruct (Buffer.pFileWorker _) as [w|].
  - destruct (FileWorker.IsLoading w); exact Hx.
  - destruct (_ && _); [|exact Hx].
    destruct (_ || _).
    + match goal with
      | |- context [if negb ?c then MessageBox ?m ?a ?y else ?e] =>
          set (asked := if negb c then MessageBox m a y else e)
      end.
      assert (tidy asked.2) as Ha by (subst asked; destruct (negb _); tidies).
      destruct asked as [decision x1]. simpl in Ha.
      destruct (decide _); [|exact Ha].
      pose proof (tidy_Save sf x1 Ha) as Hsv.
      destruct (Save sf x1) as [[|] x2]; exact Hsv.
    + pose proof (tidy_Save sf x Hx) as Hsv.
      destruct (Save sf x) as [[|] x2]; exact Hsv.
Qed.

Lemma tidy_request s s' : request s s' -> tidy s -> tidy s'.
Proof using dialog.
  intros [] Hs.
  - now apply tidy_OpenCurrentFile.
  - now apply tidy_Open.
  - now apply tidy_Revert.
  - now apply tidy_Save.
  - now apply tidy_SaveIfUnsure.
  - now apply tidy_TextRead.
  - now apply tidy_TextWritten.
  - now apply tidy_PerformDeferredTasks.
Qed.

End Dialog.


Lemma inFlight_one s b : NoDup (threads s) -> length (inFlight s b) <= 1.
Proof.
  unfold inFlight. generalize (threads s) as l.
  induction l as [|x l IH]; intros Hnd; [simpl; lia|].
  apply NoDup_cons in Hnd as [Hx Hl]. rewrite filter_cons.
  destruct (decide (workerOf b = Some x)) as [E|_]; [|now apply IH].
  assert (filter (fun k => workerOf b = Some k) l = []) as ->; [|simpl; lia].
  clear IH Hl. induction l as [|y l IH]; [reflexivity|].
  rewrite filter_cons. apply not_elem_of_cons in Hx as [Hxy Hx].
  destruct (decide (workerOf b = Some y)) as [Ey|_]; [congruence|now apply IH].
Qed.

Lemma Save_busy sf s :
  is_Some (Buffer.pFileWorker (CurrentBuffer s)) -> IsUntitled (filePath s) = false ->
  exists msg, Save sf s = (true, Notify msg (filePath s) s).
Proof.
  intros Hw Hu. unfold Save. rewrite Hu. simpl.
  destruct (Buffer.ShouldNotSave _); [eauto|].
  rewrite bool_decide_eq_true_2 by assumption. eauto.
Qed.


End Requests.

